(** * The scoring engine of the business-signal analyzer

    A shallow embedding of [backend/scoring/engine.py]: the six factor
    functions, the weight table (loading, validation, normalisation),
    [score_idea] and [rank_ideas], followed by the properties checked
    against the specification.

    Modelling choices.
    - A Python [float] is a real number ([R]); the arithmetic is exact, so
      rounding, overflow and NaN are outside this model.  The validation
      of the weight table, where an overflow changes the outcome, is
      embedded a second time over binary64 numbers ([Binary64]).
    - An idea and a signal are Python dictionaries: finite maps from
      strings to dynamically typed values.  A lookup of a missing key, a
      method call on a value of the wrong type and a division by zero
      raise, as in the source.
    - The clock read by [_is_recent] ([datetime.utcnow()]) is an explicit
      argument [now], in microseconds since 0001-01-01T00:00:00.
    - [rank_ideas] runs on a store of mutable objects, so that copying and
      in-place updates are visible. *)

From Stdlib Require Import Floats.PrimFloat.
From Stdlib Require Import Reals Lra Lia ZArith String Ascii List Sorting.Sorted.
From stdpp Require Import base option strings list gmap fin_maps pretty.

Local Open Scope R_scope.
#[local] Set Warnings "-register-all".
#[local] Set Warnings "-inexact-float".

(** ** Dynamically typed values *)

Inductive value : Type :=
| VNone
| VBool (b : bool)
| VInt (z : Z)
| VFloat (x : R)
| VStr (s : string)
| VList (vs : list value)
| VDict (kvs : list (string * value)).

Abbreviation dict := (gmap string value).

Inductive exn : Type :=
| KeyError (k : string)
| TypeError
| AttributeError
| ValueError
| ZeroDivisionError
| NameError.

Inductive result (A : Type) : Type :=
| Ok (a : A)
| Raise (e : exn).
Arguments Ok {A} a.
Arguments Raise {A} e.

Definition rbind {A B} (r : result A) (f : A -> result B) : result B :=
  match r with
  | Ok a => f a
  | Raise e => Raise e
  end.

Notation "x <~ r ;; k" := (rbind r (fun x => k))
  (at level 100, r at next level, right associativity).

Definition is_ok {A} (r : result A) : Prop := exists a, r = Ok a.

(** [d[k]]: raises [KeyError] on a missing key. *)
Definition getitem (d : dict) (k : string) : result value :=
  match d !! k with
  | Some v => Ok v
  | None => Raise (KeyError k)
  end.

(** [d.get(k, dflt)]. *)
Definition get (d : dict) (k : string) (dflt : value) : value :=
  match d !! k with
  | Some v => v
  | None => dflt
  end.

(** Python truthiness, as used by [if idea.get(...)]. *)
Definition truthy (v : value) : bool :=
  match v with
  | VNone => false
  | VBool b => b
  | VInt z => negb (z =? 0)%Z
  | VFloat x => if Req_dec_T x 0 then false else true
  | VStr s => negb (String.eqb s "")
  | VList vs => match vs with [] => false | _ => true end
  | VDict kvs => match kvs with [] => false | _ => true end
  end.

(** The numbers [sum] accepts: [int], [float] and [bool]. *)
Definition as_number (v : value) : option R :=
  match v with
  | VInt z => Some (IZR z)
  | VFloat x => Some x
  | VBool b => Some (if b then 1 else 0)
  | _ => None
  end.

(** [sum(vs)]: left to right from [0]; [TypeError] at the first operand
    that is not a number.  The additions are exact: this is what Python
    computes for [int] and [bool] operands, and what it computes up to
    rounding, and short of an overflow, for [float] operands. *)
Fixpoint py_sum_from (acc : R) (vs : list value) : result R :=
  match vs with
  | [] => Ok acc
  | v :: rest =>
      match as_number v with
      | Some x => py_sum_from (acc + x) rest
      | None => Raise TypeError
      end
  end.

Definition py_sum (vs : list value) : result R := py_sum_from 0 vs.

(** ** Strings *)

(** [str.lower()] on the ASCII letters. *)
Definition lower_ascii (c : ascii) : ascii :=
  let n := nat_of_ascii c in
  if ((65 <=? n) && (n <=? 90))%nat then ascii_of_nat (n + 32) else c.

Fixpoint lower (s : string) : string :=
  match s with
  | EmptyString => EmptyString
  | String c t => String (lower_ascii c) (lower t)
  end.

(** [needle in hay] for two strings: substring test. *)
Fixpoint contains (needle hay : string) : bool :=
  String.prefix needle hay ||
  match hay with
  | EmptyString => false
  | String _ t => contains needle t
  end.

(** [v in [s1, ..., sn]] for a list literal of strings. *)
Definition in_strs (v : value) (l : list string) : bool :=
  match v with
  | VStr s => existsb (String.eqb s) l
  | _ => false
  end.

(** ['show_hn' in v]: substring of a string, element of a list, key of a
    dictionary; [TypeError] for a value that is not a container. *)
Definition show_hn_in (v : value) : result bool :=
  match v with
  | VStr s => Ok (contains "show_hn" s)
  | VList vs =>
      Ok (existsb (fun e => match e with
                            | VStr s => String.eqb s "show_hn"
                            | _ => false
                            end) vs)
  | VDict kvs => Ok (existsb (fun kv => String.eqb (fst kv) "show_hn") kvs)
  | _ => Raise TypeError
  end.

(** ** Dates: [datetime.strptime(s, '%Y-%m-%d')] *)

Definition digit (c : ascii) : option Z :=
  let n := nat_of_ascii c in
  if ((48 <=? n) && (n <=? 57))%nat then Some (Z.of_nat (n - 48)) else None.

(** [%Y]: exactly four digits. *)
Definition parse_year (s : string) : option (Z * string) :=
  match s with
  | String a (String b (String c (String d rest))) =>
      match digit a, digit b, digit c, digit d with
      | Some a, Some b, Some c, Some d =>
          Some ((1000 * a + 100 * b + 10 * c + d)%Z, rest)
      | _, _, _, _ => None
      end
  | _ => None
  end.

(** [%m]: [1[0-2]|0[1-9]|[1-9]]. *)
Definition parse_month (s : string) : option (Z * string) :=
  match s with
  | String a rest =>
      match digit a with
      | Some x =>
          match rest with
          | String b rest' =>
              match digit b with
              | Some y =>
                  if ((x =? 1) && (y <=? 2))%Z then Some ((10 + y)%Z, rest')
                  else if ((x =? 0) && (1 <=? y))%Z then Some (y, rest')
                  else if (1 <=? x)%Z then Some (x, rest) else None
              | None => if (1 <=? x)%Z then Some (x, rest) else None
              end
          | EmptyString => if (1 <=? x)%Z then Some (x, rest) else None
          end
      | None => None
      end
  | EmptyString => None
  end.

(** [%d]: [3[01]|[12]\d|0[1-9]|[1-9]| [1-9]]. *)
Definition parse_day (s : string) : option (Z * string) :=
  match s with
  | String a rest =>
      match digit a with
      | Some x =>
          match rest with
          | String b rest' =>
              match digit b with
              | Some y =>
                  if ((x =? 3) && (y <=? 1))%Z then Some ((30 + y)%Z, rest')
                  else if ((1 <=? x) && (x <=? 2))%Z then Some ((10 * x + y)%Z, rest')
                  else if ((x =? 0) && (1 <=? y))%Z then Some (y, rest')
                  else if (1 <=? x)%Z then Some (x, rest) else None
              | None => if (1 <=? x)%Z then Some (x, rest) else None
              end
          | EmptyString => if (1 <=? x)%Z then Some (x, rest) else None
          end
      | None =>
          if Ascii.eqb a " " then
            match rest with
            | String b rest' =>
                match digit b with
                | Some y => if (1 <=? y)%Z then Some (y, rest') else None
                | None => None
                end
            | EmptyString => None
            end
          else None
      end
  | EmptyString => None
  end.

Definition is_leap (y : Z) : bool :=
  ((y mod 4 =? 0) && (negb (y mod 100 =? 0) || (y mod 400 =? 0)))%Z.

Definition days_in_month (y m : Z) : Z :=
  if (m =? 2)%Z then (if is_leap y then 29 else 28)%Z
  else if ((m =? 4) || (m =? 6) || (m =? 9) || (m =? 11))%Z then 30%Z
  else 31%Z.

Definition days_before_year (y : Z) : Z :=
  ((y - 1) * 365 + (y - 1) / 4 - (y - 1) / 100 + (y - 1) / 400)%Z.

Fixpoint days_before_month_nat (y : Z) (m : nat) : Z :=
  match m with
  | O => 0%Z
  | S k => (days_before_month_nat y k + days_in_month y (Z.of_nat (S k)))%Z
  end.

Definition days_before_month (y m : Z) : Z :=
  days_before_month_nat y (Z.to_nat (m - 1)).

(** [date.toordinal()]: 0001-01-01 is day 1. *)
Definition ymd2ord (y m d : Z) : Z :=
  (days_before_year y + days_before_month y m + d)%Z.

Definition us_per_day : Z := 86400000000%Z.

(** Microseconds from 0001-01-01T00:00:00 to midnight of the parsed date;
    [None] where [strptime] raises [ValueError]. *)
Definition strptime_ymd (s : string) : option Z :=
  match parse_year s with
  | Some (y, String "-" s1) =>
      match parse_month s1 with
      | Some (m, String "-" s2) =>
          match parse_day s2 with
          | Some (d, EmptyString) =>
              if ((1 <=? y) && (d <=? days_in_month y m))%Z
              then Some ((ymd2ord y m d - 1) * us_per_day)%Z
              else None
          | _ => None
          end
      | _ => None
      end
  | _ => None
  end.

(** ** The factor functions *)

(** [ScoringEngine._is_recent(date_str, days)]: any exception raised while
    parsing (a value that is not a string, a malformed date) is caught and
    gives [False]. *)
Definition _is_recent (now : Z) (date_str : value) (days : Z) : bool :=
  match date_str with
  | VStr s =>
      match strptime_ymd s with
      | Some date => (now - date <? days * us_per_day)%Z
      | None => false
      end
  | _ => false
  end.

Definition volume_types : list string :=
  ["volume"; "post_count"; "story_count"; "video_count"; "interest_score"]%string.

Definition growth_types : list string :=
  ["growth_rate"; "trend_slope"]%string.

(** [[s['metric_value'] for s in signals if s['metric_type'] in types]]. *)
Fixpoint select_metric (types : list string) (signals : list dict)
  : result (list value) :=
  match signals with
  | [] => Ok []
  | s :: rest =>
      mt <~ getitem s "metric_type";;
      if in_strs mt types then
        v <~ getitem s "metric_value";;
        vs <~ select_metric types rest;;
        Ok (v :: vs)
      else select_metric types rest
  end.

(** [math.log1p]: a domain error at or below [-1]. *)
Definition log1p (x : R) : result R :=
  if Rle_dec x (-1) then Raise ValueError else Ok (ln (1 + x)).

Definition calculate_demand_strength (signals : list dict) : result R :=
  match signals with
  | [] => Ok 0
  | _ =>
      volume_metrics <~ select_metric volume_types signals;;
      match volume_metrics with
      | [] => Ok 50
      | _ =>
          total <~ py_sum volume_metrics;;
          let avg_volume := total / INR (length volume_metrics) in
          l <~ log1p avg_volume;;
          Ok (Rmin 100 (l * 10))
      end
  end.

Definition has_recent (now : Z) (signals : list dict) : bool :=
  existsb (fun s => truthy (get s "data_date" VNone)
                    && _is_recent now (get s "data_date" VNone) 7) signals.

Definition calculate_demand_velocity (now : Z) (signals : list dict)
  : result R :=
  match signals with
  | [] => Ok 50
  | _ =>
      growth_signals <~ select_metric growth_types signals;;
      match growth_signals with
      | _ :: _ =>
          total <~ py_sum growth_signals;;
          let avg_growth := total / INR (length growth_signals) in
          let score := 50 + avg_growth / 2 in
          Ok (Rmax 0 (Rmin 100 score))
      | [] => if has_recent now signals then Ok 70 else Ok 50
      end
  end.

(** [len([s for s in signals if 'show_hn' in s.get('source', '')])]. *)
Fixpoint count_show_hn (signals : list dict) : result nat :=
  match signals with
  | [] => Ok O
  | s :: rest =>
      b <~ show_hn_in (get s "source" (VStr ""));;
      n <~ count_show_hn rest;;
      Ok (if b then S n else n)
  end.

Definition calculate_competition_proxy (signals : list dict) (idea : dict)
  : result R :=
  volume <~ calculate_demand_strength signals;;
  show_hn_count <~ count_show_hn signals;;
  if (5 <? show_hn_count)%nat then Ok 30
  else if Rgt_dec volume 80 then Ok 50
  else if Rlt_dec volume 30 then Ok 80
  else Ok 65.

(** [idea.get('ops_burden_estimate', 'medium').lower()]: only a string has
    the method. *)
Definition ops_burden_of (idea : dict) : result string :=
  match get idea "ops_burden_estimate" (VStr "medium") with
  | VStr s => Ok (lower s)
  | _ => Raise AttributeError
  end.

Definition feasibility_burden_score (ops_burden : string) : R :=
  if String.eqb ops_burden "low" then 85
  else if String.eqb ops_burden "medium" then 65
  else if String.eqb ops_burden "high" then 40
  else 65.

Definition calculate_feasibility (idea : dict) : result R :=
  ops_burden <~ ops_burden_of idea;;
  let base_score := feasibility_burden_score ops_burden in
  let base_score :=
    if truthy (get idea "distribution_channel" VNone)
    then base_score + 10 else base_score in
  let base_score :=
    if truthy (get idea "compliance_risks" VNone)
    then base_score - 15 else base_score in
  Ok (Rmax 0 (Rmin 100 base_score)).

Definition automation_burden_score (ops_burden : string) : R :=
  if String.eqb ops_burden "low" then 90
  else if String.eqb ops_burden "medium" then 60
  else if String.eqb ops_burden "high" then 30
  else 60.

Definition calculate_automation_friendly (idea : dict) : result R :=
  ops_burden <~ ops_burden_of idea;;
  Ok (automation_burden_score ops_burden).

Definition calculate_monetization_clarity (idea : dict) : result R :=
  let score := 50 in
  let score :=
    if truthy (get idea "pricing_model" VNone) then score + 20 else score in
  let score :=
    if truthy (get idea "target_user" VNone) then score + 15 else score in
  let score :=
    if truthy (get idea "value_prop" VNone) then score + 15 else score in
  Ok (Rmin 100 score).

(** ** The weight table and the engine *)

Record ScoreBreakdown : Type := {
  demand_strength : R;
  demand_velocity : R;
  competition_proxy : R;
  feasibility : R;
  automation_friendly : R;
  monetization_clarity : R;
  total : R
}.

Definition DEFAULT_WEIGHTS : gmap string R :=
  <["demand_strength" := 25 / 100]>
  (<["demand_velocity" := 20 / 100]>
  (<["competition_proxy" := 15 / 100]>
  (<["feasibility" := 20 / 100]>
  (<["automation_friendly" := 10 / 100]>
  (<["monetization_clarity" := 10 / 100]> ∅))))).

(** What [_load_weights] finds at [weights_path].  [Unreadable] stands for
    every file on which the body of the [try] raises: [open] or
    [yaml.safe_load] fails, or the document is not a mapping, so that
    [config.get] fails (an empty file is loaded as [None]).  [Config] is a
    document that is a mapping, with its [weights] entry when there is
    one; the entry is a table, a mapping from strings to numbers.  An
    entry of another kind (null, a list, a mapping with a value that is
    not a number) is outside this type: the engine does not check for it,
    and [_validate_weights] fails on it with [AttributeError] or
    [TypeError]. *)
Inductive weights_source : Type :=
| NoFile                                   (* no path, or no file there *)
| Unreadable                               (* the body of the try raises *)
| Config (entry : option (gmap string R)). (* the file's 'weights' entry *)

Definition _load_weights (src : weights_source) : gmap string R :=
  match src with
  | Config (Some w) => w
  | Config None => DEFAULT_WEIGHTS
  | Unreadable => DEFAULT_WEIGHTS
  | NoFile => DEFAULT_WEIGHTS
  end.

(** [sum(self.weights.values())]. *)
Definition weights_sum (w : gmap string R) : R :=
  map_fold (fun _ v acc => v + acc) 0 w.

(** [_validate_weights]: the table the engine keeps.  The division
    [v / total] raises [ZeroDivisionError] for the first item when [total]
    is zero.  Sum and quotients are exact here; [Binary64._validate_weights]
    is the same function over binary64 numbers. *)
Definition _validate_weights (w : gmap string R) : result (gmap string R) :=
  let total := weights_sum w in
  if Rgt_dec (Rabs (total - 1)) (1 / 1000) then
    if Req_dec_T total 0 then
      if decide (w = ∅) then Ok ∅ else Raise ZeroDivisionError
    else Ok ((fun v => v / total) <$> w)
  else Ok w.

Record ScoringEngine : Type := { weights : gmap string R }.

(** [ScoringEngine.__init__]. *)
Definition __init__ (src : weights_source) : result ScoringEngine :=
  w <~ _validate_weights (_load_weights src);;
  Ok {| weights := w |}.

(** [self.weights[k]]. *)
Definition weight (self : ScoringEngine) (k : string) : result R :=
  match weights self !! k with
  | Some x => Ok x
  | None => Raise (KeyError k)
  end.

Definition score_idea (self : ScoringEngine) (now : Z)
    (idea : dict) (signals : list dict) : result ScoreBreakdown :=
  ds <~ calculate_demand_strength signals;;
  dv <~ calculate_demand_velocity now signals;;
  cp <~ calculate_competition_proxy signals idea;;
  fe <~ calculate_feasibility idea;;
  af <~ calculate_automation_friendly idea;;
  mc <~ calculate_monetization_clarity idea;;
  w_ds <~ weight self "demand_strength";;
  w_dv <~ weight self "demand_velocity";;
  w_cp <~ weight self "competition_proxy";;
  w_fe <~ weight self "feasibility";;
  w_af <~ weight self "automation_friendly";;
  w_mc <~ weight self "monetization_clarity";;
  Ok {| demand_strength := ds;
        demand_velocity := dv;
        competition_proxy := cp;
        feasibility := fe;
        automation_friendly := af;
        monetization_clarity := mc;
        total := ds * w_ds + dv * w_dv + cp * w_cp
                 + fe * w_fe + af * w_af + mc * w_mc |}.

(** ** The validation over binary64 numbers

    [_validate_weights] once more, with the numbers Python computes with:
    IEEE 754 binary64, sums and quotients rounded to nearest, an overflow
    giving an infinity.  A table is the list of the items of the
    dictionary, in the order in which the dictionary yields them. *)

Module Binary64.

(** [sum(self.weights.values())]: the values are added to [0] from left
    to right.  (From CPython 3.12 on [sum] carries a correction term for
    the rounding errors; a sum that has overflowed stays infinite.) *)
Definition weights_sum (w : list (string * float)) : float :=
  fold_left PrimFloat.add w.*2 0%float.

(** [_validate_weights]: a comparison with a NaN is false; the division
    of a float by zero raises [ZeroDivisionError], for the first item. *)
Definition _validate_weights (w : list (string * float))
  : result (list (string * float)) :=
  let total := weights_sum w in
  if (0.001 <? PrimFloat.abs (total - 1.0))%float then
    match w with
    | [] => Ok []
    | _ :: _ =>
        if (total =? 0)%float then Raise ZeroDivisionError
        else Ok ((fun kv => (kv.1, (kv.2 / total)%float)) <$> w)
    end
  else Ok w.

End Binary64.

(** ** [ScoreBreakdown.to_dict] *)

Definition floorZ (x : R) : Z := (up x - 1)%Z.

(** [round] of an exact value: to the nearest integer, ties to even. *)
Definition round_half_even (x : R) : Z :=
  let f := floorZ x in
  let r := x - IZR f in
  if Rlt_dec r (1 / 2) then f
  else if Rgt_dec r (1 / 2) then (f + 1)%Z
  else if Z.even f then f else (f + 1)%Z.

(** [round(x, 2)]. *)
Definition round2 (x : R) : R := IZR (round_half_even (x * 100)) / 100.

Definition to_dict (b : ScoreBreakdown) : value :=
  VDict [("demand_strength", VFloat (round2 (demand_strength b)));
         ("demand_velocity", VFloat (round2 (demand_velocity b)));
         ("competition_proxy", VFloat (round2 (competition_proxy b)));
         ("feasibility", VFloat (round2 (feasibility b)));
         ("automation_friendly", VFloat (round2 (automation_friendly b)));
         ("monetization_clarity", VFloat (round2 (monetization_clarity b)));
         ("total", VFloat (round2 (total b)))]%string.

(** ** [list.sort(key=..., reverse=True)]

    Python's sort is stable, also with [reverse=True], and the keys are
    computed once per element before sorting.  The result of a stable sort
    is determined by the keys, so a stable insertion sort over the list of
    (key, element) pairs stands for it. *)

Section Sort.
Context {A : Type}.

(** [x] goes before the first element whose key is not greater. *)
Fixpoint insert_desc (x : R * A) (l : list (R * A)) : list (R * A) :=
  match l with
  | [] => [x]
  | y :: l' =>
      if Rlt_dec (fst x) (fst y) then y :: insert_desc x l' else x :: l
  end.

Fixpoint sort_desc (l : list (R * A)) : list (R * A) :=
  match l with
  | [] => []
  | x :: l' => insert_desc x (sort_desc l')
  end.
End Sort.

(** ** The store of mutable objects *)

Definition loc := positive.

Inductive obj : Type :=
| ODict (d : dict)
| OList (items : list loc).

Abbreviation heap := (gmap loc obj).

(** Computations that read and write the store and may raise. *)
Definition M (A : Type) : Type := heap -> result A * heap.

Definition mret {A} (a : A) : M A := fun h => (Ok a, h).

Definition mbind' {A B} (m : M A) (f : A -> M B) : M B :=
  fun h =>
    match m h with
    | (Ok a, h') => f a h'
    | (Raise e, h') => (Raise e, h')
    end.

Notation "x <- m ;; k" := (mbind' m (fun x => k))
  (at level 100, m at next level, right associativity).

Definition lift {A} (r : result A) : M A := fun h => (r, h).

(** A new object, at an address not in use. *)
Definition alloc (o : obj) : M loc :=
  fun h => let l := fresh (dom h) in (Ok l, <[l := o]> h).

Definition load_dict (l : loc) : M dict :=
  fun h =>
    match h !! l with
    | Some (ODict d) => (Ok d, h)
    | _ => (Raise TypeError, h)
    end.

Definition load_list (l : loc) : M (list loc) :=
  fun h =>
    match h !! l with
    | Some (OList ls) => (Ok ls, h)
    | _ => (Raise TypeError, h)
    end.

(** [d[k] = v] on the dictionary at [l]. *)
Definition setitem (l : loc) (k : string) (v : value) : M unit :=
  fun h =>
    match h !! l with
    | Some (ODict d) => (Ok tt, <[l := ODict (<[k := v]> d)]> h)
    | _ => (Raise TypeError, h)
    end.

Fixpoint for_each {A B} (f : A -> M B) (l : list A) : M (list B) :=
  match l with
  | [] => mret []
  | x :: l' => y <- f x;; ys <- for_each f l';; mret (y :: ys)
  end.

(** ** [ScoringEngine.rank_ideas] *)

(** The body of the first loop: score, copy ([dict(idea)]), extend the
    copy. *)
Definition score_one (self : ScoringEngine) (now : Z) (item : loc * loc)
  : M loc :=
  let '(idea_l, signals_l) := item in
  idea <- load_dict idea_l;;
  signal_ls <- load_list signals_l;;
  signals <- for_each load_dict signal_ls;;
  breakdown <- lift (score_idea self now idea signals);;
  idea_with_score <- alloc (ODict idea);;
  _ <- setitem idea_with_score "total_score" (VFloat (total breakdown));;
  _ <- setitem idea_with_score "score_breakdown" (to_dict breakdown);;
  mret idea_with_score.

(** The first loop: [scored_ideas] in the order of the batch. *)
Fixpoint score_all (self : ScoringEngine) (now : Z) (items : list (loc * loc))
  : M (list loc) :=
  match items with
  | [] => mret []
  | item :: rest =>
      idea_with_score <- score_one self now item;;
      scored <- score_all self now rest;;
      mret (idea_with_score :: scored)
  end.

(** The sort key [x['total_score']]. *)
Definition sort_key (l : loc) : M R :=
  d <- load_dict l;;
  v <- lift (getitem d "total_score");;
  match as_number v with
  | Some x => mret x
  | None => lift (Raise TypeError)
  end.

(** [for i, idea in enumerate(scored_ideas, i0): idea['rank'] = i]. *)
Fixpoint assign_ranks (i : Z) (scored : list loc) : M unit :=
  match scored with
  | [] => mret tt
  | l :: rest => _ <- setitem l "rank" (VInt i);; assign_ranks (i + 1) rest
  end.

Definition rank_ideas (self : ScoringEngine) (now : Z)
    (ideas_with_signals : list (loc * loc)) : M (list loc) :=
  scored_ideas <- score_all self now ideas_with_signals;;
  keys <- for_each sort_key scored_ideas;;
  let scored_ideas := (sort_desc (zip keys scored_ideas)).*2 in
  _ <- assign_ranks 1 scored_ideas;;
  mret scored_ideas.

(** ** Inputs of the scenarios *)

(** A signal holding only a metric type and a value. *)
Definition signal (metric_type : string) (metric_value : R) : dict :=
  <["metric_type" := VStr metric_type]>
  (<["metric_value" := VFloat metric_value]> ∅).

(** The same signal with a [data_date]. *)
Definition dated (data_date : string) (s : dict) : dict :=
  <["data_date" := VStr data_date]> s.

Definition scenario_signals : list dict :=
  [signal "post_count" 150; signal "interest_score" 75;
   signal "story_count" 25].

(** A signal with or without a [data_date]. *)
Definition observed (data_date : option string) (s : dict) : dict :=
  match data_date with
  | Some d => dated d s
  | None => s
  end.

(** The scenario's signals, each with or without a [data_date]. *)
Definition scenario_signals_on (d1 d2 d3 : option string) : list dict :=
  [observed d1 (signal "post_count" 150);
   observed d2 (signal "interest_score" 75);
   observed d3 (signal "story_count" 25)].

Definition scenario_idea : dict :=
  <["ops_burden_estimate" := VStr "low"]>
  (<["pricing_model" := VStr "$29/mo subscription"]>
  (<["target_user" := VStr "Freelancers"]>
  (<["value_prop" := VStr "Automate invoicing"]>
  (<["distribution_channel" := VStr "Content marketing"]>
  (<["compliance_risks" := VNone]> ∅))))).

Definition default_engine : ScoringEngine := {| weights := DEFAULT_WEIGHTS |}.

(** Midnight (UTC) of a calendar day, on the clock's scale. *)
Definition utc_midnight (y m d : Z) : Z := ((ymd2ord y m d - 1) * us_per_day)%Z.

(** A table with a negative weight whose weights sum to one. *)
Definition negative_table : gmap string R :=
  <["demand_strength" := - (25 / 100)]>
  (<["demand_velocity" := 50 / 100]>
  (<["competition_proxy" := 15 / 100]>
  (<["feasibility" := 30 / 100]>
  (<["automation_friendly" := 20 / 100]>
  (<["monetization_clarity" := 10 / 100]> ∅))))).

(** The default table with one key the engine does not know. *)
Definition table_with_unknown_key : gmap string R :=
  <["legacy_factor" := 1]> DEFAULT_WEIGHTS.

(** A table without the key [feasibility]; its weights sum to one. *)
Definition table_without_feasibility : gmap string R :=
  <["demand_strength" := 25 / 100]>
  (<["demand_velocity" := 25 / 100]>
  (<["competition_proxy" := 20 / 100]>
  (<["automation_friendly" := 15 / 100]>
  (<["monetization_clarity" := 15 / 100]> ∅)))).

(** One signal that is neither a volume nor a growth metric, observed on
    2026-02-23. *)
Definition engagement_signal : dict := dated "2026-02-23" (signal "engagement" 40).

(** The breakdown of an idea without fields and without signals under the
    default weights. *)
Definition bare_breakdown : ScoreBreakdown :=
  {| demand_strength := 0; demand_velocity := 50; competition_proxy := 80;
     feasibility := 65; automation_friendly := 60; monetization_clarity := 50;
     total := 0 * (25 / 100) + 50 * (20 / 100) + 80 * (15 / 100)
              + 65 * (20 / 100) + 60 * (10 / 100) + 50 * (10 / 100) |}.

(** A store with one idea without fields (at 1) and one empty list of
    signals (at 2), and a batch that ranks this idea twice. *)
Definition example_heap : heap :=
  <[1%positive := ODict ∅]> (<[2%positive := OList []]> ∅).

Definition example_batch : list (loc * loc) :=
  [(1%positive, 2%positive); (1%positive, 2%positive)].

(** The competition branch taken for a given demand strength when fewer
    than six launch posts are counted. *)
Definition competition_of_volume (volume : R) : R :=
  if Rgt_dec volume 80 then 50
  else if Rlt_dec volume 30 then 80
  else 65.






(** A table with a single key, which is not the name of a factor. *)
Definition legacy_table : gmap string R := <["legacy_factor" := 2]> ∅.

(** A signal whose value is an [int]. *)
Definition counted (metric_type : string) (n : Z) : dict :=
  <["metric_type" := VStr metric_type]>
  (<["metric_value" := VInt n]> ∅).

(** A launch post as [test_competition_proxy_high_saturation] writes it:
    a source and a value, no metric type. *)
Definition launch_post : dict :=
  <["source" := VStr "hackernews_show_hn"]>
  (<["metric_value" := VInt 100]> ∅).

(** ** Well-formed inputs

    What the specification's data model demands of the dictionaries that
    reach the engine. *)

(** A signal has a metric type; the value of a volume metric is a
    non-negative number, the value of a growth metric a number; the source,
    when given, is a string (or a container). *)
Definition signal_ok (s : dict) : Prop :=
  exists mt, s !! "metric_type" = Some mt /\
    (in_strs mt volume_types = true ->
     exists v x, s !! "metric_value" = Some v /\ as_number v = Some x /\ 0 <= x) /\
    (in_strs mt growth_types = true ->
     exists v x, s !! "metric_value" = Some v /\ as_number v = Some x) /\
    is_ok (show_hn_in (get s "source" (VStr ""))).

(** The operational burden of an idea is a string, when the key is there. *)
Definition idea_ok (idea : dict) : Prop :=
  idea !! "ops_burden_estimate" = None \/
  exists s, idea !! "ops_burden_estimate" = Some (VStr s).

Definition factor_names : list string :=
  ["demand_strength"; "demand_velocity"; "competition_proxy";
   "feasibility"; "automation_friendly"; "monetization_clarity"]%string.

(** A normalised table, as [_validate_weights] counts it: the six factors
    have a weight, no weight is negative, and the weights sum to one
    within 1e-3. *)
Definition normalized_table (w : gmap string R) : Prop :=
  Forall (fun k => is_Some (w !! k)) factor_names /\
  (forall k v, w !! k = Some v -> 0 <= v) /\
  Rabs (weights_sum w - 1) <= 1 / 1000.

Definition in_range (x : R) : Prop := 0 <= x <= 100.

(** ** Reading a batch

    What [rank_ideas] is given, read from the store the caller hands over:
    the dictionary of an idea, the dictionaries of its list of signals, and
    the breakdown [score_idea] computes from them. *)

Definition heap_dict (h : heap) (l : loc) : option dict :=
  match h !! l with
  | Some (ODict d) => Some d
  | _ => None
  end.

Fixpoint heap_dicts (h : heap) (ls : list loc) : option (list dict) :=
  match ls with
  | [] => Some []
  | l :: ls' =>
      match heap_dict h l, heap_dicts h ls' with
      | Some d, Some ds => Some (d :: ds)
      | _, _ => None
      end
  end.

Definition heap_signals (h : heap) (l : loc) : option (list dict) :=
  match h !! l with
  | Some (OList ls) => heap_dicts h ls
  | _ => None
  end.

Definition item_score (self : ScoringEngine) (now : Z) (h : heap)
    (item : loc * loc) : option (dict * ScoreBreakdown) :=
  match heap_dict h item.1, heap_signals h item.2 with
  | Some idea, Some signals =>
      match score_idea self now idea signals with
      | Ok b => Some (idea, b)
      | Raise _ => None
      end
  | _, _ => None
  end.

(** The copy of an idea with its score, before and after ranking. *)
Definition scored_entry (e : dict * ScoreBreakdown) : dict :=
  <["score_breakdown" := to_dict e.2]>
  (<["total_score" := VFloat (total e.2)]> e.1).

Definition ranked_entry (e : dict * ScoreBreakdown) (rank : Z) : dict :=
  <["rank" := VInt rank]> (scored_entry e).

(** The element at a position of a list ([dflt] outside the list). *)
Definition at_position {A} (dflt : A) (l : list A) (i : nat) : A :=
  default dflt (l !! i).

(** Order of two (key, input position) pairs in a stably sorted output:
    the greater key first, and of two equal keys the earlier position. *)
Definition stable_desc (a b : R * nat) : Prop :=
  a.1 > b.1 \/ (a.1 = b.1 /\ (a.2 < b.2)%nat).

(** A computation started in a store that extends [h0] ends in a store
    that extends [h0], and a result it returns satisfies [P]. *)
Definition frames {A} (h0 : heap) (P : A -> Prop) (m : M A) : Prop :=
  forall h, h0 ⊆ h -> h0 ⊆ (m h).2 /\ forall a, (m h).1 = Ok a -> P a.

(** ** Further notions used in the properties *)

(** An idea with its operational burden set to the string [s]. *)
Definition with_burden (s : string) (idea : dict) : dict :=
  <["ops_burden_estimate" := VStr s]> idea.

(** [idea.get(k)] is truthy. *)
Definition has_field (idea : dict) (k : string) : bool :=
  truthy (get idea k VNone).

(** A signal whose metric type is a growth metric. *)
Definition is_growth_signal (s : dict) : Prop :=
  exists mt, s !! "metric_type" = Some mt /\ in_strs mt growth_types = true.

(** The calendar day of an instant: whole days since 0001-01-01. *)
Definition day_of (instant : Z) : Z := (instant / us_per_day)%Z.

(** A signal whose [metric_value], when it has one, is not a [float]:
    Python adds such values exactly. *)
Definition integer_valued (s : dict) : Prop :=
  match s !! "metric_value" with
  | Some (VFloat _) => False
  | _ => True
  end.

(** ** [main.update_scoring_weights]

    The endpoint builds a table from the six fields of the request,
    normalises it with its own tolerance (1e-2), opens [weights.yaml] for
    writing, dumps the table with [yaml.dump] and builds a new engine from
    the file.  It works on two pieces of state: the global [scorer] and
    the file.  [main.py] never imports [yaml], so the name is looked up,
    and missed, when the call is reached. *)

Module Main.

Record ScoreWeights : Type := {
  demand_strength : R;
  demand_velocity : R;
  competition_proxy : R;
  feasibility : R;
  automation_friendly : R;
  monetization_clarity : R
}.

Definition new_weights_of (weights : ScoreWeights) : gmap string R :=
  <["demand_strength" := demand_strength weights]>
  (<["demand_velocity" := demand_velocity weights]>
  (<["competition_proxy" := competition_proxy weights]>
  (<["feasibility" := feasibility weights]>
  (<["automation_friendly" := automation_friendly weights]>
  (<["monetization_clarity" := monetization_clarity weights]> ∅))))).

(** The names [main.py] binds at module level: by its [import]
    statements, its assignments, its classes and its functions. *)
Definition module_names : list string :=
  ["os"; "sys"; "hashlib"; "json"; "Path"; "List"; "Optional"; "datetime";
   "FastAPI"; "HTTPException"; "File"; "UploadFile"; "Form";
   "CORSMiddleware"; "StaticFiles"; "BaseModel";
   "init_db"; "create_conversation"; "get_conversation";
   "list_conversations"; "create_message"; "get_messages_by_conversation";
   "create_topic"; "get_topics_by_conversation";
   "update_topic_message_count"; "create_pain_point";
   "get_pain_points_by_topic"; "create_demand_signal";
   "get_demand_signals_by_topic"; "get_demand_signals_stats";
   "create_business_idea"; "get_business_ideas"; "update_idea_score";
   "create_evidence_link"; "get_evidence_by_idea";
   "GoogleTrendsConnector"; "RedditConnector"; "HackerNewsConnector";
   "YouTubeConnector"; "ScoringEngine";
   "app"; "startup"; "gtrends"; "reddit"; "hn"; "youtube";
   "weights_path"; "scorer";
   "ConversationCreate"; "TopicResponse"; "BusinessIdeaCreate";
   "ScoreWeights";
   "root"; "health"; "create_conversation_endpoint";
   "list_conversations_endpoint"; "get_conversation_endpoint";
   "create_topic_endpoint"; "list_topics_endpoint";
   "collect_demand_signals"; "get_demand_for_topic";
   "create_idea_endpoint"; "list_ideas_endpoint"; "score_idea_endpoint";
   "rank_ideas_endpoint"; "add_evidence"; "get_evidence_for_idea";
   "get_scoring_weights"; "update_scoring_weights"]%string.

(** Reading a global name that is not a builtin. *)
Definition global_name (name : string) : result unit :=
  if bool_decide (name ∈ module_names) then Ok tt else Raise NameError.

(** The global [scorer] and the file at [weights_path]. *)
Record state : Type := {
  scorer : ScoringEngine;
  weights_yaml : weights_source
}.

(** The answer, or the exception that escapes, and the state left behind.
    [open(weights_path, 'w')] empties the file before anything is
    written; an empty file is one [_load_weights] cannot use. *)
Definition update_scoring_weights (weights : ScoreWeights) (s : state)
  : result (gmap string R) * state :=
  let new_weights := new_weights_of weights in
  let total := weights_sum new_weights in
  match
    (if Rgt_dec (Rabs (total - 1)) (1 / 100) then
       if Req_dec_T total 0 then Raise ZeroDivisionError
       else Ok ((fun v => v / total) <$> new_weights)
     else Ok new_weights)
  with
  | Raise e => (Raise e, s)
  | Ok new_weights =>
      let s := {| scorer := scorer s; weights_yaml := Unreadable |} in
      match global_name "yaml" with
      | Raise e => (Raise e, s)
      | Ok _ =>
          let s := {| scorer := scorer s;
                      weights_yaml := Config (Some new_weights) |} in
          match __init__ (weights_yaml s) with
          | Raise e => (Raise e, s)
          | Ok engine =>
              (Ok new_weights,
               {| scorer := engine; weights_yaml := weights_yaml s |})
          end
      end
  end.

End Main.

(** A store with a sound idea (at 1), an empty list of signals (at 2) and
    an idea whose operational burden is [None] (at 3). *)
Definition faulty_heap : heap :=
  <[1%positive := ODict ∅]>
  (<[2%positive := OList []]>
  (<[3%positive := ODict (<["ops_burden_estimate" := VNone]> ∅)]> ∅)).

(** ** The connectors ([backend/connectors])

    A connector turns a query into a list of [DemandSignal] objects.  The
    clock ([datetime.utcnow()]) is a sequence of readings: [clock k] is
    what the [k]-th call returns, and every function that reads the clock
    takes the number of readings made so far and returns the new number.
    The answer of an external service is an argument of the function that
    asks for it. *)

Module Connectors.

(** A naive [datetime]. *)
Record datetime : Type := {
  year : Z; month : Z; day : Z;
  hour : Z; minute : Z; second : Z; microsecond : Z
}.

(** The values [datetime] accepts. *)
Definition valid (t : datetime) : Prop :=
  (1 <= year t <= 9999 /\ 1 <= month t <= 12 /\
   1 <= day t <= days_in_month (year t) (month t) /\
   0 <= hour t < 24 /\ 0 <= minute t < 60 /\ 0 <= second t < 60 /\
   0 <= microsecond t < 1000000)%Z.

(** Microseconds from 0001-01-01T00:00:00 to [t]. *)
Definition instant (t : datetime) : Z :=
  ((ymd2ord (year t) (month t) (day t) - 1) * us_per_day
   + ((hour t * 60 + minute t) * 60 + second t) * 1000000
   + microsecond t)%Z.

Fixpoint zeros (n : nat) : string :=
  match n with
  | O => EmptyString
  | S k => String "0" (zeros k)
  end.

(** ["%0<width>d" % n] for [n >= 0]. *)
Definition zfill (width : nat) (n : Z) : string :=
  let s := pretty n in zeros (width - String.length s) +:+ s.

(** [t.strftime('%Y-%m-%d')].  A year below 1000 is padded to four digits
    here, as [isoformat] pads it; the C libraries differ on this, and the
    properties below take years from 1000 on. *)
Definition strftime_ymd (t : datetime) : string :=
  zfill 4 (year t) +:+ "-" +:+ zfill 2 (month t) +:+ "-" +:+ zfill 2 (day t).

(** [t.isoformat()]: the microseconds are left out when they are zero. *)
Definition isoformat (t : datetime) : string :=
  zfill 4 (year t) +:+ "-" +:+ zfill 2 (month t) +:+ "-" +:+ zfill 2 (day t)
  +:+ "T" +:+ zfill 2 (hour t) +:+ ":" +:+ zfill 2 (minute t)
  +:+ ":" +:+ zfill 2 (second t)
  +:+ (if (microsecond t =? 0)%Z then "" else "." +:+ zfill 6 (microsecond t)).

(** [s or dflt] for an optional string: [None] and the empty string are
    falsy. *)
Definition str_truthy (s : option string) : bool :=
  match s with
  | Some (String _ _) => true
  | _ => false
  end.

Module DemandSignal.

Record t : Type := {
  source : string;
  query : string;
  metric_type : string;
  metric_value : R;
  metric_unit : string;
  url : string;
  timestamp : datetime;
  data_date : string
}.

(** The constructor reads the clock once for each of [timestamp] and
    [data_date] that is missing (or, for the date, empty). *)
Definition __init__ (clock : nat -> datetime) (k : nat)
    (source query metric_type : string) (metric_value : R)
    (metric_unit url : string)
    (timestamp : option datetime) (data_date : option string) : t * nat :=
  let '(timestamp, k) :=
    match timestamp with
    | Some ts => (ts, k)
    | None => (clock k, S k)
    end in
  let '(data_date, k) :=
    match data_date with
    | Some (String c s) => (String c s, k)
    | _ => (strftime_ymd (clock k), S k)
    end in
  ({| source := source; query := query; metric_type := metric_type;
      metric_value := metric_value; metric_unit := metric_unit; url := url;
      timestamp := timestamp; data_date := data_date |}, k).

Definition to_dict (self : t) : dict :=
  <["source" := VStr (source self)]>
  (<["query" := VStr (query self)]>
  (<["metric_type" := VStr (metric_type self)]>
  (<["metric_value" := VFloat (metric_value self)]>
  (<["metric_unit" := VStr (metric_unit self)]>
  (<["url" := VStr (url self)]>
  (<["timestamp" := VStr (isoformat (timestamp self))]>
  (<["data_date" := VStr (data_date self)]> ∅))))))).

End DemandSignal.

(** The four connector classes. *)
Inductive connector_class : Type :=
  | GoogleTrendsConnector
  | RedditConnector
  | HackerNewsConnector
  | YouTubeConnector.

Definition source_name (c : connector_class) : string :=
  match c with
  | GoogleTrendsConnector => "google_trends"
  | RedditConnector => "reddit"
  | HackerNewsConnector => "hackernews"
  | YouTubeConnector => "youtube"
  end.

(** The attributes of a connector the code below reads. *)
Record connector : Type := {
  class : connector_class;
  api_key : option string;
  mock_mode : bool
}.

(** [self.mock_mode], for the places where an argument has that name, and
    [self.mock_mode = True]. *)
Definition in_mock_mode (self : connector) : bool := mock_mode self.

Definition set_mock_mode (self : connector) : connector :=
  {| class := class self; api_key := api_key self; mock_mode := true |}.

Module BaseConnector.

(** [self.mock_mode = mock_mode or not api_key]. *)
Definition __init__ (c : connector_class) (api_key : option string)
    (mock_mode : bool) : connector :=
  {| class := c; api_key := api_key;
     mock_mode := mock_mode || negb (str_truthy api_key) |}.

Section MockSignals.
(** [int(hashlib.md5(s.encode()).hexdigest(), 16)]. *)
Variable md5 : string -> Z.
Variable clock : nat -> datetime.

(** The body of the loop for [i], and the loop from [i] for [n] more
    rounds.  The date passed to the constructor is computed from a first
    reading of the clock, the timestamp is a second one. *)
Definition mock_signal (self : connector) (k : nat) (query : string)
    (i : nat) : DemandSignal.t * nat :=
  let query_hash := md5 (query +:+ ":" +:+ pretty i) in
  let value := (query_hash mod 1000 + 100)%Z in
  DemandSignal.__init__ clock (S k)
    (source_name (class self)) query "volume" (IZR value) "mentions"
    ("https://example.com/mock/" +:+ source_name (class self) +:+ "/"
     +:+ pretty query_hash)
    None (Some (strftime_ymd (clock k))).

Fixpoint mock_signals_from (self : connector) (k : nat) (query : string)
    (i n : nat) : list DemandSignal.t * nat :=
  match n with
  | O => ([], k)
  | S n' =>
      let '(s, k) := mock_signal self k query i in
      let '(rest, k) := mock_signals_from self k query (S i) n' in
      (s :: rest, k)
  end.

Definition _generate_mock_signals (self : connector) (k : nat)
    (query : string) (count : nat) : list DemandSignal.t * nat :=
  mock_signals_from self k query 0 count.

End MockSignals.
End BaseConnector.

(** The constructors of the four classes.  [installed] tells whether the
    client library of the service ([pytrends], [praw]) can be imported and
    set up. *)
Definition GoogleTrendsConnector__init__ (api_key : option string)
    (mock_mode installed : bool) : connector :=
  let self := BaseConnector.__init__ GoogleTrendsConnector api_key mock_mode in
  if negb (in_mock_mode self) then
    if installed then self else set_mock_mode self
  else self.

Definition RedditConnector__init__ (client_id client_secret : option string)
    (mock_mode installed : bool) : connector :=
  let self := BaseConnector.__init__ RedditConnector None mock_mode in
  if negb (in_mock_mode self) then
    if negb (str_truthy client_id) || negb (str_truthy client_secret) then
      set_mock_mode self
    else if installed then self else set_mock_mode self
  else self.

Definition HackerNewsConnector__init__ (api_key : option string)
    (mock_mode : bool) : connector :=
  BaseConnector.__init__ HackerNewsConnector None mock_mode.

Definition YouTubeConnector__init__ (api_key : option string)
    (mock_mode : bool) : connector :=
  let self := BaseConnector.__init__ YouTubeConnector api_key mock_mode in
  if negb (in_mock_mode self) && negb (str_truthy api_key) then
    set_mock_mode self
  else self.

Section Search.
Variable md5 : string -> Z.
Variable clock : nat -> datetime.

(** [search]: in mock mode the mock signals (one for Google Trends, three
    for the others); otherwise what the branch that asks the service
    returns, [live]. *)
Definition search (self : connector) (k : nat) (query : string)
    (live : list DemandSignal.t * nat) : list DemandSignal.t * nat :=
  if mock_mode self then
    BaseConnector._generate_mock_signals md5 clock self k query
      (match class self with GoogleTrendsConnector => 1 | _ => 3 end)
  else live.

End Search.
End Connectors.

(** A reading of the clock, a clock that stands still, and a stand-in for
    the hash, for the examples. *)
Definition example_time : Connectors.datetime :=
  {| Connectors.year := 2026; Connectors.month := 11; Connectors.day := 3;
     Connectors.hour := 9; Connectors.minute := 30; Connectors.second := 0;
     Connectors.microsecond := 0 |}.

Definition example_clock (k : nat) : Connectors.datetime := example_time.

Definition string_length_hash (s : string) : Z :=
  Z.of_nat (String.length s).

(** ** [storage/database.py]: the statement of [create_business_idea]

    The function builds an [INSERT] statement from its four required
    arguments and from the keyword arguments, and hands it to the
    database.  The model is the statement and the list of values given to
    [db.execute]; the database itself is outside. *)

Module Database.

Definition optional_fields : list string :=
  ["why_now"; "pricing_model"; "distribution_channel"; "moat";
   "ops_burden_estimate"; "compliance_risks"; "total_score";
   "score_breakdown"; "rank"]%string.

(** [sep.join(l)]. *)
Fixpoint join (sep : string) (l : list string) : string :=
  match l with
  | [] => EmptyString
  | [s] => s
  | s :: rest => s +:+ sep +:+ join sep rest
  end.

(** The loop over [optional_fields]: a field is appended when it is a
    key of [kwargs] and its value is not [None]. *)
Fixpoint add_optional (kwargs : gmap string value) (optional : list string)
    (fields : list string) (values : list value)
  : list string * list value :=
  match optional with
  | [] => (fields, values)
  | field :: rest =>
      match kwargs !! field with
      | Some VNone | None => add_optional kwargs rest fields values
      | Some v => add_optional kwargs rest (fields ++ [field]) (values ++ [v])
      end
  end.

(** The columns and the values before the statement is put together. *)
Definition columns (topic_id title target_user value_prop : value)
    (kwargs : gmap string value) : list string * list value :=
  add_optional kwargs optional_fields
    ["topic_id"; "title"; "target_user"; "value_prop"]%string
    [topic_id; title; target_user; value_prop].

Definition create_business_idea (topic_id title target_user value_prop : value)
    (kwargs : gmap string value) : string * list value :=
  let '(fields, values) :=
    columns topic_id title target_user value_prop kwargs in
  let placeholders := join ", " ((fun _ => "?"%string) <$> values) in
  let field_names := join ", " fields in
  ("INSERT INTO business_ideas (" +:+ field_names +:+ ") VALUES ("
   +:+ placeholders +:+ ")", values).

(** [field in kwargs and kwargs[field] is not None]. *)
Definition given (kwargs : gmap string value) (field : string) : bool :=
  match kwargs !! field with
  | Some VNone | None => false
  | Some _ => true
  end.

(** The number of occurrences of a character in a string. *)
Fixpoint count_char (c : ascii) (s : string) : nat :=
  match s with
  | EmptyString => O
  | String a rest => (if Ascii.eqb a c then 1 else 0) + count_char c rest
  end.

End Database.

(** ** [pipeline/reddit_scraper.py]: topics from pain posts

    A post is the dictionary [find_pain_posts] builds; its nine keys are
    the fields of a record.  The dictionary [topics] of [extract_topics]
    is kept in insertion order, which is the order Python iterates
    it in. *)

Module RedditScraper.

Record post : Type := {
  title : string;
  text : string;
  url : string;
  subreddit : string;
  score : Z;
  num_comments : Z;
  created_utc : R;
  author : string;
  pain_signals : list string
}.

Definition topic_keywords : list (string * list string) :=
  [("compliance", ["compliance"; "regulation"; "legal"; "documentation";
                   "audit"]);
   ("payments", ["payment"; "invoice"; "billing"; "charge"; "fee"]);
   ("marketing", ["marketing"; "leads"; "customers"; "acquisition";
                  "growth"]);
   ("operations", ["operations"; "workflow"; "process"; "automation";
                   "efficiency"]);
   ("software", ["software"; "tool"; "app"; "platform"; "SaaS"]);
   ("hiring", ["hire"; "employee"; "team"; "contractor"; "freelancer"]);
   ("communication", ["email"; "slack"; "communication"; "meeting";
                      "client"])]%string.

(** [any(kw in text for kw in keywords)]. *)
Definition any_in (keywords : list string) (text : string) : bool :=
  existsb (fun kw => contains kw text) keywords.

(** [f"{post['title']} {post['text']}".lower()]. *)
Definition post_text (p : post) : string :=
  lower (title p +:+ " " +:+ text p).

(** [topics[topic_name].append(post)]; [KeyError] for a missing key. *)
Fixpoint append_to (name : string) (p : post)
    (topics : list (string * list post))
  : result (list (string * list post)) :=
  match topics with
  | [] => Raise (KeyError name)
  | (n, ps) :: rest =>
      if String.eqb n name then Ok ((n, ps ++ [p]) :: rest)
      else
        rest' <~ append_to name p rest;;
        Ok ((n, ps) :: rest')
  end.

(** The inner loop, over the items of [topic_keywords], for one post. *)
Fixpoint add_post (items : list (string * list string)) (p : post)
    (topics : list (string * list post))
  : result (list (string * list post)) :=
  match items with
  | [] => Ok topics
  | (topic_name, keywords) :: rest =>
      if any_in keywords (post_text p) then
        topics' <~ append_to topic_name p topics;;
        add_post rest p topics'
      else add_post rest p topics
  end.

(** The outer loop, over the posts. *)
Fixpoint add_posts (posts : list post) (topics : list (string * list post))
  : result (list (string * list post)) :=
  match posts with
  | [] => Ok topics
  | p :: rest =>
      topics' <~ add_post topic_keywords p topics;;
      add_posts rest topics'
  end.

(** [str.title()] on ASCII: a letter after a letter is lowered, any other
    letter is raised. *)
Definition is_upper (c : ascii) : bool :=
  let n := nat_of_ascii c in ((65 <=? n) && (n <=? 90))%nat.

Definition is_lower (c : ascii) : bool :=
  let n := nat_of_ascii c in ((97 <=? n) && (n <=? 122))%nat.

Definition upper_ascii (c : ascii) : ascii :=
  if is_lower c then ascii_of_nat (nat_of_ascii c - 32) else c.

Fixpoint title_from (after_letter : bool) (s : string) : string :=
  match s with
  | EmptyString => EmptyString
  | String c rest =>
      if is_upper c || is_lower c then
        String (if after_letter then lower_ascii c else upper_ascii c)
               (title_from true rest)
      else String c (title_from false rest)
  end.

Definition title_case (s : string) : string := title_from false s.

Record topic_summary : Type := {
  name : string;
  description : string;
  post_count : nat;
  posts : list post;
  keywords : list string;
  total_engagement : Z
}.

(** [sum(p['score'] + p['num_comments'] for p in posts)]. *)
Definition engagement (ps : list post) : Z :=
  fold_left (fun acc p => (acc + (score p + num_comments p))%Z) ps 0%Z.

(** [topic_keywords[topic_name]]. *)
Fixpoint keywords_of (items : list (string * list string)) (topic_name : string)
  : result (list string) :=
  match items with
  | [] => Raise (KeyError topic_name)
  | (n, kws) :: rest =>
      if String.eqb n topic_name then Ok kws else keywords_of rest topic_name
  end.

(** The loop over [topics.items()] that builds the summaries. *)
Fixpoint summaries (topics : list (string * list post))
  : result (list topic_summary) :=
  match topics with
  | [] => Ok []
  | (topic_name, ps) :: rest =>
      match ps with
      | [] => summaries rest
      | _ :: _ =>
          kws <~ keywords_of topic_keywords topic_name;;
          rest' <~ summaries rest;;
          Ok ({| name := title_case topic_name;
                 description := "Posts about " +:+ topic_name
                                +:+ " challenges and solutions";
                 post_count := length ps;
                 posts := take 5 ps;
                 keywords := kws;
                 total_engagement := engagement ps |} :: rest')
      end
  end.

Definition extract_topics (posts : list post) : result (list topic_summary) :=
  topics <~ add_posts posts ((fun item => (item.1, [])) <$> topic_keywords);;
  topic_summaries <~ summaries topics;;
  Ok (snd <$> sort_desc
        ((fun s => (IZR (total_engagement s), s)) <$> topic_summaries)).

(** Some character of [s] is an ASCII capital. *)
Definition has_upper (s : string) : bool :=
  existsb is_upper (list_ascii_of_string s).

(** The posts of a list that fall under a topic, and the summary of the
    topic when there are any. *)
Definition in_topic (item : string * list string) (ps : list post)
  : list post :=
  List.filter (fun p => any_in item.2 (post_text p)) ps.

Definition topic_of (ps : list post) (item : string * list string)
  : option topic_summary :=
  match in_topic item ps with
  | [] => None
  | found =>
      Some {| name := title_case item.1;
              description := "Posts about " +:+ item.1
                             +:+ " challenges and solutions";
              post_count := length found;
              posts := take 5 found;
              keywords := item.2;
              total_engagement := engagement found |}
  end.

End RedditScraper.

(** ** [pipeline/reddit_scraper.py]: finding pain posts

    A submission is what the Reddit client yields; [fetch subreddit limit]
    stands for the submissions that [subreddit(...).new(limit=limit)]
    yields before the listing ends or raises (what was appended before an
    exception stays in the result, and the exception is swallowed).
    [stamp k] is the [k]-th reading of [datetime.utcnow().timestamp()]. *)

Module PainPosts.
Import RedditScraper.

Record submission : Type := {
  s_title : string;
  selftext : string;
  permalink : string;
  s_score : Z;
  s_num_comments : Z;
  s_created_utc : R;
  s_author : option string
}.

Definition DEFAULT_SUBREDDITS : list string :=
  ["startups"; "smallbusiness"; "entrepreneur"; "SaaS"; "SideProject";
   "business"; "freelance"; "marketing"]%string.

Definition PAIN_KEYWORDS : list string :=
  ["problem"; "pain"; "struggle"; "frustrated"; "annoying";
   "difficult"; "hard"; "challenging"; "issue"; "trouble";
   "wish"; "need"; "want"; "looking for"; "recommendation";
   "help with"; "advice on"; "how do you"; "best way to"]%string.

(** The three templates: title, text and pain signals. *)
Definition mock_templates (subreddit : string)
  : list (string * string * list string) :=
  [("How do you handle " +:+ subreddit +:+ " compliance paperwork?",
    "Spending hours every week on documentation...",
    ["handle"; "how do you"]);
   ("Struggling with " +:+ subreddit +:+ " automation - need help",
    "Current process is manual and error-prone...",
    ["struggling"; "need help"]);
   ("What is the best tool for " +:+ subreddit +:+ " management?",
    "Looking for recommendations on software...",
    ["best"; "looking for"])]%string.

Section Scraper.
Variable stamp : nat -> R.

(** The post of round [i], made at the [k]-th reading of the clock. *)
Definition mock_post (k : nat) (subreddit : string) (i : nat) : post :=
  let template :=
    nth (i mod 3) (mock_templates subreddit) (EmptyString, EmptyString, []) in
  {| title := template.1.1;
     text := template.1.2;
     url := "https://reddit.com/r/" +:+ subreddit +:+ "/mock_" +:+ pretty i;
     subreddit := subreddit;
     score := 50 + Z.of_nat i * 10;
     num_comments := 10 + Z.of_nat i * 5;
     created_utc := stamp k;
     author := "mock_user";
     pain_signals := template.2 |}.

Fixpoint mock_posts_from (k : nat) (subreddit : string) (i n : nat)
  : list post * nat :=
  match n with
  | O => ([], k)
  | S n' =>
      let '(rest, k') := mock_posts_from (S k) subreddit (S i) n' in
      (mock_post k subreddit i :: rest, k')
  end.

Definition _generate_mock_posts (k : nat) (subreddit : string) (count : nat)
  : list post * nat :=
  mock_posts_from k subreddit 0 count.

Variable fetch : string -> nat -> list submission.

(** The dictionary appended for a submission whose title has a pain
    keyword. *)
Definition pain_post (subreddit : string) (s : submission) : post :=
  let title_lower := lower (s_title s) in
  {| title := s_title s;
     text := String.substring 0 500 (selftext s);
     url := "https://www.reddit.com" +:+ permalink s;
     subreddit := subreddit;
     score := s_score s;
     num_comments := s_num_comments s;
     created_utc := s_created_utc s;
     author := match s_author s with Some a => a | None => "deleted" end;
     pain_signals :=
       List.filter (fun kw => contains kw title_lower) PAIN_KEYWORDS |}.

Definition live_posts (subreddit : string) (limit : nat) : list post :=
  pain_post subreddit
    <$> List.filter (fun s => any_in PAIN_KEYWORDS (lower (s_title s)))
          (fetch subreddit limit).

(** The loop over the subreddits. *)
Fixpoint collect (reddit : Connectors.connector) (k : nat)
    (subreddits : list string) (limit : nat) : list post * nat :=
  match subreddits with
  | [] => ([], k)
  | subreddit :: rest =>
      if Connectors.mock_mode reddit then
        let '(found, k1) := _generate_mock_posts k subreddit 3 in
        let '(more, k2) := collect reddit k1 rest limit in
        (found ++ more, k2)
      else
        let '(more, k2) := collect reddit k rest limit in
        (live_posts subreddit limit ++ more, k2)
  end.

(** [x['score'] + x['num_comments'] * 2], the sort key. *)
Definition sort_key_of (p : post) : Z := (score p + num_comments p * 2)%Z.

(** [subreddits or self.DEFAULT_SUBREDDITS]: [None] and the empty list
    give the default. *)
Definition or_default (subreddits : option (list string)) : list string :=
  match subreddits with
  | Some (s :: l) => s :: l
  | _ => DEFAULT_SUBREDDITS
  end.

Definition find_pain_posts (reddit : Connectors.connector) (k : nat)
    (subreddits : option (list string)) (limit : nat) : list post * nat :=
  let subreddits := or_default subreddits in
  let '(pain_posts, k') := collect reddit k subreddits limit in
  (take 100 (snd <$> sort_desc
               ((fun p => (IZR (sort_key_of p), p)) <$> pain_posts)), k').

End Scraper.

(** A stand-in for the clock and for the Reddit client, for the
    examples. *)
Definition example_stamp (k : nat) : R := 1762162200 + INR k.

Definition example_fetch (subreddit : string) (limit : nat)
  : list submission :=
  [{| s_title := "Need advice on invoices"; selftext := "Every month ...";
      permalink := "/r/smallbusiness/comments/1"; s_score := 12;
      s_num_comments := 4; s_created_utc := 1762162200;
      s_author := None |};
   {| s_title := "We launched today"; selftext := "";
      permalink := "/r/smallbusiness/comments/2"; s_score := 40;
      s_num_comments := 9; s_created_utc := 1762162300;
      s_author := Some "founder" |}]%string.

Definition live_connector : Connectors.connector :=
  {| Connectors.class := Connectors.RedditConnector;
     Connectors.api_key := None;
     Connectors.mock_mode := false |}.

End PainPosts.

(** * Properties *)

(** ** The embedding on small inputs *)

Example ordinal_of_epoch : ymd2ord 1970 1 1 = 719163%Z.
Proof. reflexivity. Qed.

Example ordinal_of_fixture_date : ymd2ord 2026 2 23 = 739670%Z.
Proof. reflexivity. Qed.

Example strptime_fixture_date :
  strptime_ymd "2026-02-23" = Some (739669 * us_per_day)%Z.
Proof. reflexivity. Qed.

Example strptime_short_fields :
  strptime_ymd "2026-2-3" = strptime_ymd "2026-02-03".
Proof. reflexivity. Qed.

Example strptime_rejects_feb_29 : strptime_ymd "2026-02-29" = None.
Proof. reflexivity. Qed.

Example strptime_accepts_leap_day :
  strptime_ymd "2024-02-29" = Some ((ymd2ord 2024 2 29 - 1) * us_per_day)%Z.
Proof. reflexivity. Qed.

Example strptime_rejects_trailing_text : strptime_ymd "2026-02-23T10:00" = None.
Proof. reflexivity. Qed.

Example lower_mixed_case : lower "Low" = "low"%string.
Proof. reflexivity. Qed.

Example show_hn_in_source :
  show_hn_in (VStr "hackernews_show_hn") = Ok true /\
  show_hn_in (VStr "hackernews") = Ok false /\
  show_hn_in VNone = Raise TypeError.
Proof. repeat split. Qed.

Example feasibility_of_burdens :
  feasibility_burden_score "low" = 85 /\
  feasibility_burden_score "medium" = 65 /\
  feasibility_burden_score "high" = 40 /\
  feasibility_burden_score "unknown" = 65.
Proof. repeat split. Qed.

(** ** The weight table *)

Lemma weights_sum_empty : weights_sum ∅ = 0.
Proof. apply map_fold_empty. Qed.

Lemma weights_sum_insert (k : string) (v : R) (w : gmap string R) :
  w !! k = None -> weights_sum (<[k := v]> w) = v + weights_sum w.
Proof.
  intros Hk. unfold weights_sum.
  apply (map_fold_insert_L (fun _ v acc => v + acc)); [intros; lra | exact Hk].
Qed.

Lemma weights_sum_delete (k : string) (v : R) (w : gmap string R) :
  w !! k = Some v -> weights_sum w = v + weights_sum (delete k w).
Proof.
  intros Hk. rewrite <- (insert_delete_id w k v Hk) at 1.
  apply weights_sum_insert, lookup_delete_eq.
Qed.

Lemma weights_sum_scale (t : R) (w : gmap string R) :
  weights_sum ((fun v => v / t) <$> w) = weights_sum w / t.
Proof.
  induction w as [|k v w Hk IH] using map_ind.
  - rewrite fmap_empty, weights_sum_empty. unfold Rdiv. ring.
  - rewrite fmap_insert, !weights_sum_insert, ?IH;
      [unfold Rdiv; ring | exact Hk | by rewrite lookup_fmap, Hk].
Qed.

Lemma weights_sum_nonneg (w : gmap string R) :
  (forall k v, w !! k = Some v -> 0 <= v) -> 0 <= weights_sum w.
Proof.
  induction w as [|k v w Hk IH] using map_ind; intros Hpos.
  - rewrite weights_sum_empty. lra.
  - rewrite weights_sum_insert by exact Hk.
    assert (0 <= v) by (apply (Hpos k); apply lookup_insert_eq).
    assert (0 <= weights_sum w).
    { apply IH. intros j x Hj. apply (Hpos j).
      rewrite lookup_insert_ne; [exact Hj | intros ->; congruence]. }
    lra.
Qed.

Ltac map_lookup :=
  repeat first
    [ rewrite lookup_insert_eq
    | rewrite lookup_insert_ne by discriminate
    | rewrite lookup_delete_ne by discriminate
    | rewrite lookup_empty ].

Ltac sum_table :=
  repeat (rewrite weights_sum_insert by (map_lookup; reflexivity));
  rewrite ?weights_sum_empty.

Lemma weights_sum_DEFAULT : weights_sum DEFAULT_WEIGHTS = 1.
Proof. unfold DEFAULT_WEIGHTS. sum_table. lra. Qed.

Lemma validate_in_tolerance (w : gmap string R) :
  Rabs (weights_sum w - 1) <= 1 / 1000 -> _validate_weights w = Ok w.
Proof.
  intros H. unfold _validate_weights.
  destruct (Rgt_dec _ _) as [Hgt|_]; [lra | reflexivity].
Qed.

Lemma validate_normalizes (w : gmap string R) :
  Rabs (weights_sum w - 1) > 1 / 1000 -> weights_sum w <> 0 ->
  _validate_weights w = Ok ((fun v => v / weights_sum w) <$> w).
Proof.
  intros H H0. unfold _validate_weights.
  destruct (Rgt_dec _ _) as [_|Hn]; [|lra].
  destruct (Req_dec_T _ _) as [Hz|_]; [contradiction | reflexivity].
Qed.

Lemma validate_zero_sum (w : gmap string R) :
  weights_sum w = 0 -> w <> ∅ -> _validate_weights w = Raise ZeroDivisionError.
Proof.
  intros H Hne. unfold _validate_weights. rewrite H.
  destruct (Rgt_dec _ _) as [_|Hn].
  - destruct (Req_dec_T 0 0) as [_|Hz]; [|contradiction].
    destruct (decide (w = ∅)); [contradiction | reflexivity].
  - exfalso. apply Hn. replace (0 - 1) with (-1) by ring.
    rewrite Rabs_left; lra.
Qed.

Lemma validate_empty : _validate_weights ∅ = Ok ∅.
Proof.
  unfold _validate_weights. rewrite weights_sum_empty.
  destruct (Rgt_dec _ _); [|reflexivity].
  destruct (Req_dec_T 0 0); [|contradiction].
  destruct (decide _); [reflexivity | contradiction].
Qed.

Lemma validate_DEFAULT : _validate_weights DEFAULT_WEIGHTS = Ok DEFAULT_WEIGHTS.
Proof.
  apply validate_in_tolerance. rewrite weights_sum_DEFAULT.
  replace (1 - 1) with 0 by ring. rewrite Rabs_R0. lra.
Qed.

Lemma validate_dom (w w' : gmap string R) :
  _validate_weights w = Ok w' -> dom w' = dom w.
Proof.
  unfold _validate_weights. intros H.
  destruct (Rgt_dec _ _); [|by inversion H].
  destruct (Req_dec_T _ _).
  - destruct (decide (w = ∅)) as [->|]; [by inversion H | discriminate].
  - inversion H. apply dom_fmap_L.
Qed.

(** ** Evaluating the factors *)

Lemma Rmax_Rmin_clamp (x : R) : 0 <= x <= 100 -> Rmax 0 (Rmin 100 x) = x.
Proof.
  intros [H0 H1]. rewrite (Rmin_right 100 x) by exact H1.
  apply Rmax_right. exact H0.
Qed.

Lemma clamp_bounds (x : R) : 0 <= Rmax 0 (Rmin 100 x) <= 100.
Proof.
  split; [apply Rmax_l|].
  apply Rmax_lub; [lra | apply Rmin_l].
Qed.

Lemma strength_empty : calculate_demand_strength [] = Ok 0.
Proof. reflexivity. Qed.

Lemma velocity_empty (now : Z) : calculate_demand_velocity now [] = Ok 50.
Proof. reflexivity. Qed.

Lemma competition_eval (signals : list dict) (idea : dict) (volume : R) (n : nat) :
  calculate_demand_strength signals = Ok volume ->
  count_show_hn signals = Ok n ->
  calculate_competition_proxy signals idea =
    Ok (if (5 <? n)%nat then 30 else competition_of_volume volume).
Proof.
  intros Hv Hn. unfold calculate_competition_proxy, competition_of_volume.
  rewrite Hv, Hn. simpl.
  destruct (5 <? n)%nat; [reflexivity|].
  destruct (Rgt_dec volume 80); [reflexivity|].
  destruct (Rlt_dec volume 30); reflexivity.
Qed.

Lemma competition_of_volume_low (v : R) : v < 30 -> competition_of_volume v = 80.
Proof.
  intros H. unfold competition_of_volume.
  destruct (Rgt_dec v 80); [lra|]. destruct (Rlt_dec v 30); [reflexivity | lra].
Qed.

Lemma competition_of_volume_mid (v : R) :
  30 <= v <= 80 -> competition_of_volume v = 65.
Proof.
  intros H. unfold competition_of_volume.
  destruct (Rgt_dec v 80); [lra|]. destruct (Rlt_dec v 30); [lra | reflexivity].
Qed.

Lemma competition_empty (idea : dict) : calculate_competition_proxy [] idea = Ok 80.
Proof.
  rewrite (competition_eval [] idea 0 0) by reflexivity.
  simpl. apply f_equal, competition_of_volume_low. lra.
Qed.

(** [score_idea] once the six factors and the six weights are known. *)
Lemma score_idea_eval (self : ScoringEngine) (now : Z) (idea : dict)
    (signals : list dict) (ds dv cp fe af mc w1 w2 w3 w4 w5 w6 : R) :
  calculate_demand_strength signals = Ok ds ->
  calculate_demand_velocity now signals = Ok dv ->
  calculate_competition_proxy signals idea = Ok cp ->
  calculate_feasibility idea = Ok fe ->
  calculate_automation_friendly idea = Ok af ->
  calculate_monetization_clarity idea = Ok mc ->
  weights self !! "demand_strength" = Some w1 ->
  weights self !! "demand_velocity" = Some w2 ->
  weights self !! "competition_proxy" = Some w3 ->
  weights self !! "feasibility" = Some w4 ->
  weights self !! "automation_friendly" = Some w5 ->
  weights self !! "monetization_clarity" = Some w6 ->
  score_idea self now idea signals =
    Ok {| demand_strength := ds; demand_velocity := dv;
          competition_proxy := cp; feasibility := fe;
          automation_friendly := af; monetization_clarity := mc;
          total := ds * w1 + dv * w2 + cp * w3 + fe * w4 + af * w5 + mc * w6 |}.
Proof.
  intros Hds Hdv Hcp Hfe Haf Hmc H1 H2 H3 H4 H5 H6.
  unfold score_idea, weight.
  rewrite Hds, Hdv, Hcp, Hfe, Haf, Hmc. simpl.
  rewrite H1, H2, H3, H4, H5, H6. reflexivity.
Qed.

(** The factors of an idea without any of the optional fields. *)
Lemma feasibility_bare : calculate_feasibility ∅ = Ok 65.
Proof.
  unfold calculate_feasibility, ops_burden_of, get. map_lookup. simpl.
  unfold feasibility_burden_score. simpl.
  by rewrite Rmax_Rmin_clamp by lra.
Qed.

Lemma automation_bare : calculate_automation_friendly ∅ = Ok 60.
Proof. reflexivity. Qed.

Lemma monetization_bare : calculate_monetization_clarity ∅ = Ok 50.
Proof.
  unfold calculate_monetization_clarity, get. map_lookup. simpl.
  by rewrite Rmin_right by lra.
Qed.

Lemma score_bare (self : ScoringEngine) (now : Z) (w1 w2 w3 w4 w5 w6 : R) :
  weights self !! "demand_strength" = Some w1 ->
  weights self !! "demand_velocity" = Some w2 ->
  weights self !! "competition_proxy" = Some w3 ->
  weights self !! "feasibility" = Some w4 ->
  weights self !! "automation_friendly" = Some w5 ->
  weights self !! "monetization_clarity" = Some w6 ->
  score_idea self now ∅ [] =
    Ok {| demand_strength := 0; demand_velocity := 50;
          competition_proxy := 80; feasibility := 65;
          automation_friendly := 60; monetization_clarity := 50;
          total := 0 * w1 + 50 * w2 + 80 * w3 + 65 * w4 + 60 * w5 + 50 * w6 |}.
Proof.
  apply score_idea_eval;
    auto using strength_empty, velocity_empty, competition_empty,
               feasibility_bare, automation_bare, monetization_bare.
Qed.

(** ** Empty signal lists *)

(** C6: for the empty signal list the demand strength is exactly 0 and the
    demand velocity is exactly 50, whatever the clock reads; the two
    results differ. *)
Theorem empty_signals_strength_0_velocity_50 (now : Z) :
  calculate_demand_strength [] = Ok 0 /\
  calculate_demand_velocity now [] = Ok 50 /\
  calculate_demand_strength [] <> calculate_demand_velocity now [].
Proof.
  repeat split.
  intros H. rewrite strength_empty, velocity_empty in H.
  inversion H. lra.
Qed.

(** ** Validation of the weight table *)

(** In exact arithmetic a second validation changes nothing: a table
    whose weights sum to 1 within 1e-3 is kept as it is, a table that was
    divided by its sum sums to exactly 1, and an error stays an error. *)
Lemma validate_idempotent_exact (w : gmap string R) :
  (Rabs (weights_sum w - 1) <= 1 / 1000 -> _validate_weights w = Ok w) /\
  (w' <~ _validate_weights w;; _validate_weights w') = _validate_weights w.
Proof.
  split; [apply validate_in_tolerance|].
  destruct (Rgt_dec (Rabs (weights_sum w - 1)) (1 / 1000)) as [Hfar|Hnear].
  - destruct (Req_dec_T (weights_sum w) 0) as [Hz|Hnz].
    + destruct (decide (w = ∅)) as [->|Hne].
      * rewrite validate_empty. simpl. apply validate_empty.
      * by rewrite validate_zero_sum.
    + rewrite validate_normalizes by assumption. simpl.
      apply validate_in_tolerance. rewrite weights_sum_scale.
      replace (weights_sum w / weights_sum w - 1) with 0 by (field; exact Hnz).
      rewrite Rabs_R0. lra.
  - rewrite validate_in_tolerance by lra. simpl.
    apply validate_in_tolerance. lra.
Qed.




Lemma weights_sum_negative_table : weights_sum negative_table = 1.
Proof. unfold negative_table. sum_table. lra. Qed.

Lemma validate_negative_table : _validate_weights negative_table = Ok negative_table.
Proof.
  apply validate_in_tolerance. rewrite weights_sum_negative_table.
  replace (1 - 1) with 0 by ring. rewrite Rabs_R0. lra.
Qed.

(** C1, as stated, fails: a table with a negative weight (and sum 1) is
    validated without any error, the engine is built from it and scores an
    idea. *)
Lemma negative_weight_table_is_accepted :
  (negative_table !! "demand_strength" = Some (- (25 / 100)) /\ - (25 / 100) < 0) /\
  _validate_weights negative_table = Ok negative_table /\
  __init__ (Config (Some negative_table)) = Ok {| weights := negative_table |} /\
  exists b, score_idea {| weights := negative_table |} 0 ∅ [] = Ok b.
Proof.
  split; [split; [reflexivity | lra]|].
  split; [apply validate_negative_table|].
  split.
  - unfold __init__. simpl. by rewrite validate_negative_table.
  - eexists. by apply score_bare.
Qed.

(** [score_idea] when the table lacks the weight of a factor: the lookup
    of the first missing factor raises [KeyError], once the six factor
    functions have returned. *)
Lemma score_idea_missing_weight (self : ScoringEngine) (now : Z) (idea : dict)
    (signals : list dict) (ds dv cp fe af mc : R)
    (pre : list string) (k : string) (post : list string) :
  calculate_demand_strength signals = Ok ds ->
  calculate_demand_velocity now signals = Ok dv ->
  calculate_competition_proxy signals idea = Ok cp ->
  calculate_feasibility idea = Ok fe ->
  calculate_automation_friendly idea = Ok af ->
  calculate_monetization_clarity idea = Ok mc ->
  factor_names = pre ++ k :: post ->
  Forall (fun j => is_Some (weights self !! j)) pre ->
  weights self !! k = None ->
  score_idea self now idea signals = Raise (KeyError k).
Proof.
  intros Hds Hdv Hcp Hfe Haf Hmc Heq Hpre Hk.
  unfold score_idea, weight.
  rewrite Hds, Hdv, Hcp, Hfe, Haf, Hmc. cbn [rbind].
  unfold factor_names in Heq.
  do 6 (destruct pre as [|j pre];
        [ injection Heq as <- _; rewrite Hk; reflexivity
        | injection Heq as <- Heq;
          apply Forall_cons in Hpre as [[? Hx] Hpre];
          rewrite Hx; clear Hx; cbn [rbind] ]).
  destruct pre; discriminate.
Qed.

(** C1, amended: a table whose weights have a nonzero sum is never
    rejected, whatever the signs of its weights.  It is kept when the sum
    is within 1e-3 of 1 and divided by the sum otherwise, the engine is
    built from the result, and [score_idea] weighs the factors with it:
    the total is the sum of the six factor scores times the kept weights
    when the table names the six factors, and the lookup of the first
    factor the table does not name raises [KeyError] otherwise. *)
Theorem nonzero_sum_table_is_accepted (w : gmap string R) :
  weights_sum w <> 0 ->
  let kept :=
    if Rgt_dec (Rabs (weights_sum w - 1)) (1 / 1000)
    then (fun v => v / weights_sum w) <$> w else w in
  _validate_weights w = Ok kept /\
  __init__ (Config (Some w)) = Ok {| weights := kept |} /\
  forall (now : Z) (idea : dict) (signals : list dict) (ds dv cp fe af mc : R),
    calculate_demand_strength signals = Ok ds ->
    calculate_demand_velocity now signals = Ok dv ->
    calculate_competition_proxy signals idea = Ok cp ->
    calculate_feasibility idea = Ok fe ->
    calculate_automation_friendly idea = Ok af ->
    calculate_monetization_clarity idea = Ok mc ->
    (forall w1 w2 w3 w4 w5 w6 : R,
       kept !! "demand_strength" = Some w1 ->
       kept !! "demand_velocity" = Some w2 ->
       kept !! "competition_proxy" = Some w3 ->
       kept !! "feasibility" = Some w4 ->
       kept !! "automation_friendly" = Some w5 ->
       kept !! "monetization_clarity" = Some w6 ->
       score_idea {| weights := kept |} now idea signals =
         Ok {| demand_strength := ds; demand_velocity := dv;
               competition_proxy := cp; feasibility := fe;
               automation_friendly := af; monetization_clarity := mc;
               total := ds * w1 + dv * w2 + cp * w3
                        + fe * w4 + af * w5 + mc * w6 |}) /\
    (forall (pre : list string) (k : string) (post : list string),
       factor_names = pre ++ k :: post ->
       Forall (fun j => is_Some (w !! j)) pre ->
       w !! k = None ->
       score_idea {| weights := kept |} now idea signals
       = Raise (KeyError k)).
Proof.
  intros Hnz kept.
  assert (Hv : _validate_weights w = Ok kept).
  { unfold kept. destruct (Rgt_dec _ _) as [Hfar|Hnear].
    - by apply validate_normalizes.
    - apply validate_in_tolerance. lra. }
  split; [exact Hv|].
  split; [unfold __init__; simpl; by rewrite Hv|].
  intros now idea signals ds dv cp fe af mc Hds Hdv Hcp Hfe Haf Hmc.
  split.
  - intros w1 w2 w3 w4 w5 w6 H1 H2 H3 H4 H5 H6.
    by apply score_idea_eval.
  - intros pre k post Heq Hpre Hk.
    assert (Hsome : forall j, is_Some (w !! j) -> is_Some (kept !! j)).
    { intros j Hj. unfold kept. destruct (Rgt_dec _ _); [|exact Hj].
      rewrite lookup_fmap. by apply fmap_is_Some. }
    assert (Hnone : kept !! k = None).
    { unfold kept. destruct (Rgt_dec _ _); [|exact Hk].
      by rewrite lookup_fmap, Hk. }
    apply (score_idea_missing_weight _ now idea signals ds dv cp fe af mc
             pre k post); try assumption.
    cbn [weights]. eapply Forall_impl; [exact Hpre | exact Hsome].
Qed.

Lemma weights_sum_legacy_table : weights_sum legacy_table = 2.
Proof. unfold legacy_table. sum_table. lra. Qed.

(** A table that names no factor is accepted as well; scoring with the
    engine built from it raises at the first weight. *)
Lemma legacy_table_cannot_score (now : Z) :
  __init__ (Config (Some legacy_table))
  = Ok {| weights := (fun v => v / 2) <$> legacy_table |} /\
  score_idea {| weights := (fun v => v / 2) <$> legacy_table |} now ∅ []
  = Raise (KeyError "demand_strength").
Proof.
  split.
  - unfold __init__. simpl. rewrite validate_normalizes.
    + by rewrite weights_sum_legacy_table.
    + rewrite weights_sum_legacy_table. replace (2 - 1) with 1 by ring.
      rewrite Rabs_R1. lra.
    + rewrite weights_sum_legacy_table. lra.
  - apply (score_idea_missing_weight _ now ∅ [] 0 50 80 65 60 50
             [] "demand_strength" (tail factor_names));
      auto using strength_empty, velocity_empty, competition_empty,
                 feasibility_bare, automation_bare, monetization_bare.
Qed.

Lemma nonzero_sum_table_is_accepted_witness :
  weights_sum negative_table <> 0 /\
  __init__ (Config (Some negative_table)) = Ok {| weights := negative_table |} /\
  score_idea {| weights := negative_table |} 0 ∅ [] =
    Ok {| demand_strength := 0; demand_velocity := 50;
          competition_proxy := 80; feasibility := 65;
          automation_friendly := 60; monetization_clarity := 50;
          total := 0 * - (25 / 100) + 50 * (50 / 100) + 80 * (15 / 100)
                   + 65 * (30 / 100) + 60 * (20 / 100) + 50 * (10 / 100) |}.
Proof.
  assert (H : weights_sum negative_table <> 0)
    by (rewrite weights_sum_negative_table; lra).
  split; [exact H|].
  pose proof (nonzero_sum_table_is_accepted negative_table H) as Hacc.
  cbv zeta in Hacc.
  destruct (Rgt_dec (Rabs (weights_sum negative_table - 1)) (1 / 1000))
    as [Hfar|_].
  { exfalso. rewrite weights_sum_negative_table in Hfar.
    replace (1 - 1) with 0 in Hfar by ring. rewrite Rabs_R0 in Hfar. lra. }
  destruct Hacc as (_ & Hinit & Hscore).
  split; [exact Hinit|].
  apply (proj1 (Hscore 0%Z ∅ [] 0 50 80 65 60 50
                  strength_empty (velocity_empty 0) (competition_empty ∅)
                  feasibility_bare automation_bare monetization_bare));
    reflexivity.
Defined.

(** What the code does with a non-empty table whose weights sum to zero:
    the division is attempted and [ZeroDivisionError] escapes from the
    constructor. *)
Lemma zero_sum_table_raises (w : gmap string R) :
  weights_sum w = 0 -> w <> ∅ ->
  __init__ (Config (Some w)) = Raise ZeroDivisionError.
Proof.
  intros H Hne. unfold __init__. simpl. by rewrite validate_zero_sum.
Qed.

(** ** Loading the weight configuration *)

Lemma weights_sum_unknown_key : weights_sum table_with_unknown_key = 2.
Proof.
  unfold table_with_unknown_key.
  rewrite weights_sum_insert by (unfold DEFAULT_WEIGHTS; map_lookup; reflexivity).
  rewrite weights_sum_DEFAULT. lra.
Qed.

Lemma weights_sum_without_feasibility : weights_sum table_without_feasibility = 1.
Proof. unfold table_without_feasibility. sum_table. lra. Qed.

(** C3, as stated, fails on both counts: an unknown key halves the
    effective weight of [demand_strength] (and stays in the table), and a
    table without [feasibility] is loaded without that key, so that scoring
    raises [KeyError]. *)
Lemma unknown_key_counts_missing_key_raises :
  (exists e, __init__ (Config (Some table_with_unknown_key)) = Ok e /\
             weights e !! "demand_strength" = Some (25 / 100 / 2) /\
             weights e !! "legacy_factor" = Some (1 / 2) /\
             DEFAULT_WEIGHTS !! "demand_strength" = Some (25 / 100) /\
             25 / 100 / 2 < 25 / 100) /\
  (exists e, __init__ (Config (Some table_without_feasibility)) = Ok e /\
             weights e !! "feasibility" = None /\
             score_idea e 0 ∅ [] = Raise (KeyError "feasibility")).
Proof.
  split.
  - eexists. split.
    + unfold __init__. simpl. rewrite validate_normalizes; [reflexivity | |].
      * rewrite weights_sum_unknown_key. replace (2 - 1) with 1 by ring.
        rewrite Rabs_R1. lra.
      * rewrite weights_sum_unknown_key. lra.
    + simpl. rewrite !lookup_fmap, weights_sum_unknown_key.
      unfold table_with_unknown_key, DEFAULT_WEIGHTS. map_lookup. simpl.
      repeat split; try reflexivity; try lra.
  - exists {| weights := table_without_feasibility |}. split.
    + unfold __init__. simpl. rewrite validate_in_tolerance; [reflexivity|].
      rewrite weights_sum_without_feasibility.
      replace (1 - 1) with 0 by ring. rewrite Rabs_R0. lra.
    + split; [reflexivity|].
      unfold score_idea.
      rewrite strength_empty, velocity_empty, competition_empty,
        feasibility_bare, automation_bare, monetization_bare.
      reflexivity.
Qed.

(** C3, amended: the mapping found under [weights] is used whole and as it
    is.  Validation neither adds nor removes a key: every key, recognised
    or not, is kept and counts in the sum by which the table is divided
    when that sum is farther than 1e-3 from 1, and a key missing from the
    mapping stays without a weight.  The default table is used only as a
    whole: without a file, with an unreadable file, or with a file that has
    no [weights] entry. *)
Theorem loaded_table_is_used_whole (m : gmap string R) :
  _load_weights (Config (Some m)) = m /\
  (_load_weights NoFile = DEFAULT_WEIGHTS /\
   _load_weights Unreadable = DEFAULT_WEIGHTS /\
   _load_weights (Config None) = DEFAULT_WEIGHTS) /\
  (forall e, __init__ (Config (Some m)) = Ok e ->
     dom (weights e) = dom m /\
     forall k, weights e !! k =
       if Rgt_dec (Rabs (weights_sum m - 1)) (1 / 1000)
       then (fun v => v / weights_sum m) <$> (m !! k)
       else m !! k) /\
  (forall k v, m !! k = None -> weights_sum (<[k := v]> m) = v + weights_sum m).
Proof.
  split; [reflexivity|]. split; [repeat split|].
  split; [|intros k v; apply weights_sum_insert].
  intros e He. unfold __init__ in He. simpl in He.
  destruct (_validate_weights m) as [w|err] eqn:Hv; [|discriminate].
  simpl in He. inversion He; subst e; clear He. simpl.
  split; [by apply validate_dom|].
  intros k. unfold _validate_weights in Hv.
  destruct (Rgt_dec _ _); [|by inversion Hv].
  destruct (Req_dec_T _ _).
  - destruct (decide (m = ∅)) as [->|]; [|discriminate].
    inversion Hv. by rewrite !lookup_empty.
  - inversion Hv. by rewrite lookup_fmap.
Qed.

(** ** Sparse ideas *)

(** C8 at the failing input: an idea whose [ops_burden_estimate] holds
    [None] makes [score_idea] raise [AttributeError], also for the empty
    signal list. *)
Theorem none_ops_burden_raises (now : Z) :
  score_idea default_engine now (<["ops_burden_estimate" := VNone]> ∅) []
  = Raise AttributeError.
Proof.
  unfold score_idea.
  rewrite strength_empty, velocity_empty, competition_empty. simpl.
  unfold calculate_feasibility, ops_burden_of, get. map_lookup. reflexivity.
Qed.

(** With the key [ops_burden_estimate] missing, or holding a string, the
    three idea factors are computed whatever the other fields hold. *)
Lemma idea_factors_ok (idea : dict) :
  idea_ok idea ->
  is_ok (calculate_feasibility idea) /\
  is_ok (calculate_automation_friendly idea) /\
  is_ok (calculate_monetization_clarity idea).
Proof.
  intros H.
  assert (Hb : exists s, ops_burden_of idea = Ok s).
  { unfold ops_burden_of, get. destruct H as [->|[s ->]]; eauto. }
  destruct Hb as [s Hs].
  unfold calculate_feasibility, calculate_automation_friendly,
    calculate_monetization_clarity. rewrite Hs. simpl.
  repeat split; eexists; reflexivity.
Qed.

Lemma default_six_weights :
  DEFAULT_WEIGHTS !! "demand_strength" = Some (25 / 100) /\
  DEFAULT_WEIGHTS !! "demand_velocity" = Some (20 / 100) /\
  DEFAULT_WEIGHTS !! "competition_proxy" = Some (15 / 100) /\
  DEFAULT_WEIGHTS !! "feasibility" = Some (20 / 100) /\
  DEFAULT_WEIGHTS !! "automation_friendly" = Some (10 / 100) /\
  DEFAULT_WEIGHTS !! "monetization_clarity" = Some (10 / 100).
Proof. repeat split. Qed.

(** A sparse idea whose [ops_burden_estimate] key is missing (or holds a
    string) is scored, on the empty signal list, without an error. *)
Lemma sparse_idea_is_scored (now : Z) (idea : dict) :
  idea_ok idea ->
  is_ok (score_idea default_engine now idea []).
Proof.
  intros H. destruct (idea_factors_ok idea H) as ([fe Hfe] & [af Haf] & [mc Hmc]).
  destruct default_six_weights as (H1 & H2 & H3 & H4 & H5 & H6).
  eexists.
  eapply score_idea_eval;
    eauto using strength_empty, velocity_empty, competition_empty.
Qed.

(** ** Evaluating the signal functions on concrete signals *)

Lemma getitem_signal_type (t : string) (v : R) :
  getitem (signal t v) "metric_type" = Ok (VStr t).
Proof. unfold getitem, signal. by map_lookup. Qed.

Lemma getitem_signal_value (t : string) (v : R) :
  getitem (signal t v) "metric_value" = Ok (VFloat v).
Proof. unfold getitem, signal. by map_lookup. Qed.

Lemma get_signal_date (t : string) (v : R) (dflt : value) :
  get (signal t v) "data_date" dflt = dflt.
Proof. unfold get, signal. by map_lookup. Qed.

Lemma get_signal_source (t : string) (v : R) (dflt : value) :
  get (signal t v) "source" dflt = dflt.
Proof. unfold get, signal. by map_lookup. Qed.

Lemma getitem_dated (d k : string) (s : dict) :
  k <> "data_date"%string -> getitem (dated d s) k = getitem s k.
Proof. intros H. unfold getitem, dated. by rewrite lookup_insert_ne. Qed.

Lemma get_dated_date (d : string) (s : dict) (dflt : value) :
  get (dated d s) "data_date" dflt = VStr d.
Proof. unfold get, dated. by rewrite lookup_insert_eq. Qed.

Lemma get_dated_source (d : string) (s : dict) (dflt : value) :
  get (dated d s) "source" dflt = get s "source" dflt.
Proof. unfold get, dated. by rewrite lookup_insert_ne. Qed.

Lemma select_metric_taken (types : list string) (s : dict) (rest : list dict)
    (mt v : value) :
  getitem s "metric_type" = Ok mt -> in_strs mt types = true ->
  getitem s "metric_value" = Ok v ->
  select_metric types (s :: rest) =
    (vs <~ select_metric types rest;; Ok (v :: vs)).
Proof. intros Hmt Hin Hv. simpl. rewrite Hmt. simpl. by rewrite Hin, Hv. Qed.

Lemma select_metric_skipped (types : list string) (s : dict) (rest : list dict)
    (mt : value) :
  getitem s "metric_type" = Ok mt -> in_strs mt types = false ->
  select_metric types (s :: rest) = select_metric types rest.
Proof. intros Hmt Hin. simpl. rewrite Hmt. simpl. by rewrite Hin. Qed.

(** ** The clock *)

Lemma velocity_recency (now1 now2 : Z) (signals : list dict) :
  has_recent now1 signals = has_recent now2 signals ->
  calculate_demand_velocity now1 signals = calculate_demand_velocity now2 signals.
Proof.
  intros H. unfold calculate_demand_velocity.
  destruct signals as [|s rest]; [reflexivity|].
  destruct (select_metric growth_types (s :: rest)) as [[|g gs]|e];
    unfold rbind; [by rewrite H | reflexivity | reflexivity].
Qed.

Lemma engagement_factors (now : Z) :
  calculate_demand_strength [engagement_signal] = Ok 50 /\
  calculate_demand_velocity now [engagement_signal] =
    Ok (if _is_recent now (VStr "2026-02-23") 7 then 70 else 50) /\
  calculate_competition_proxy [engagement_signal] ∅ = Ok 65.
Proof.
  assert (Hs : calculate_demand_strength [engagement_signal] = Ok 50).
  { unfold calculate_demand_strength, engagement_signal.
    rewrite (select_metric_skipped _ _ _ (VStr "engagement"));
      [reflexivity | | reflexivity].
    rewrite getitem_dated by discriminate. apply getitem_signal_type. }
  split; [exact Hs|]. split.
  - unfold calculate_demand_velocity, engagement_signal.
    rewrite (select_metric_skipped _ _ _ (VStr "engagement"));
      [| rewrite getitem_dated by discriminate; apply getitem_signal_type
       | reflexivity].
    unfold rbind, has_recent. cbn [existsb]. rewrite get_dated_date.
    change (truthy (VStr "2026-02-23")) with true.
    rewrite orb_false_r. cbn [andb].
    destruct (_is_recent now (VStr "2026-02-23") 7); reflexivity.
  - rewrite (competition_eval _ _ 50 0); [| exact Hs |].
    + simpl. apply f_equal, competition_of_volume_mid. lra.
    + unfold engagement_signal. simpl.
      rewrite get_dated_source, get_signal_source. reflexivity.
Qed.

Lemma recent_on_feb_24 :
  _is_recent (utc_midnight 2026 2 24) (VStr "2026-02-23") 7 = true.
Proof. vm_compute. reflexivity. Qed.

Lemma not_recent_on_nov_3 :
  _is_recent (utc_midnight 2026 11 3) (VStr "2026-02-23") 7 = false.
Proof. vm_compute. reflexivity. Qed.

(** C7, as stated, fails: the same engine, idea and signals give a demand
    velocity of 70 on 2026-02-24 and of 50 on 2026-11-03, and two
    different totals. *)
Lemma score_changes_with_the_clock :
  exists b1 b2,
    score_idea default_engine (utc_midnight 2026 2 24) ∅ [engagement_signal] = Ok b1 /\
    score_idea default_engine (utc_midnight 2026 11 3) ∅ [engagement_signal] = Ok b2 /\
    demand_velocity b1 = 70 /\ demand_velocity b2 = 50 /\
    total b2 < total b1.
Proof.
  destruct (engagement_factors (utc_midnight 2026 2 24)) as (Hs1 & Hv1 & Hc1).
  destruct (engagement_factors (utc_midnight 2026 11 3)) as (_ & Hv2 & _).
  rewrite recent_on_feb_24 in Hv1. rewrite not_recent_on_nov_3 in Hv2.
  destruct default_six_weights as (H1 & H2 & H3 & H4 & H5 & H6).
  eexists. eexists. split; [|split].
  - eapply score_idea_eval;
      eauto using feasibility_bare, automation_bare, monetization_bare.
  - eapply score_idea_eval;
      eauto using feasibility_bare, automation_bare, monetization_bare.
  - simpl. repeat split. lra.
Qed.

(** C7, amended: the clock is an input of [score_idea], read only to
    decide whether some signal's [data_date] is less than seven days old.
    Two calls with the same engine, idea and signals return the same
    breakdown whenever the two clock readings decide that question alike. *)
Theorem score_same_when_recency_agrees (self : ScoringEngine) (now1 now2 : Z)
    (idea : dict) (signals : list dict) :
  has_recent now1 signals = has_recent now2 signals ->
  score_idea self now1 idea signals = score_idea self now2 idea signals.
Proof.
  intros H. unfold score_idea. by rewrite (velocity_recency now1 now2).
Qed.

Lemma score_same_when_recency_agrees_witness :
  has_recent (utc_midnight 2026 2 24) [engagement_signal]
  = has_recent (utc_midnight 2026 2 25) [engagement_signal] /\
  score_idea default_engine (utc_midnight 2026 2 24) ∅ [engagement_signal]
  = score_idea default_engine (utc_midnight 2026 2 25) ∅ [engagement_signal].
Proof.
  assert (H : has_recent (utc_midnight 2026 2 24) [engagement_signal]
              = has_recent (utc_midnight 2026 2 25) [engagement_signal]).
  { unfold has_recent, engagement_signal. simpl. rewrite get_dated_date.
    vm_compute. reflexivity. }
  split; [exact H|].
  exact (score_same_when_recency_agrees default_engine _ _ ∅ _ H).
Defined.

(** ** The scenario of the specification *)

Lemma exp_INR_mult (n : nat) (x : R) : exp (INR n * x) = exp x ^ n.
Proof.
  induction n as [|n IH].
  - simpl. rewrite Rmult_0_l. apply exp_0.
  - rewrite S_INR, Rmult_plus_distr_r, Rmult_1_l, exp_plus, IH. simpl. ring.
Qed.

Lemma ln_below (x y : R) : 0 < x -> x < exp y -> ln x < y.
Proof.
  intros Hx H. rewrite <- (ln_exp y). by apply ln_increasing.
Qed.

Lemma ln_above (x y : R) : exp y < x -> y < ln x.
Proof.
  intros H. rewrite <- (ln_exp y). apply ln_increasing; [apply exp_pos | exact H].
Qed.

(** [33/10 < ln (253/3) < 49/10]: from [exp 1 <= 3] and [1 + x <= exp x]. *)
Lemma ln_scenario_bounds : 33 / 10 < ln (1 + 250 / 3) < 49 / 10.
Proof.
  split.
  - apply ln_above.
    apply Rlt_le_trans with (exp 4).
    + apply exp_increasing. lra.
    + replace 4 with (INR 4 * 1) by (simpl; ring).
      rewrite exp_INR_mult.
      apply Rle_trans with (3 ^ 4); [|simpl; lra].
      apply pow_incr. split; [left; apply exp_pos | apply exp_le_3].
  - apply ln_below; [lra|].
    replace (49 / 10) with (INR 49 * (1 / 10)) by (simpl; lra).
    rewrite exp_INR_mult.
    apply Rlt_le_trans with ((1 + 1 / 10) ^ 49); [lra|].
    apply pow_incr. split; [lra | apply exp_ineq1_le].
Qed.

Lemma getitem_observed (d : option string) (k : string) (s : dict) :
  k <> "data_date"%string -> getitem (observed d s) k = getitem s k.
Proof. intros H. destruct d; [by apply getitem_dated | reflexivity]. Qed.

Lemma get_observed_source (d : option string) (s : dict) (dflt : value) :
  get (observed d s) "source" dflt = get s "source" dflt.
Proof. destruct d; [apply get_dated_source | reflexivity]. Qed.

Lemma scenario_strength (d1 d2 d3 : option string) :
  calculate_demand_strength (scenario_signals_on d1 d2 d3)
  = Ok (ln (1 + 250 / 3) * 10).
Proof.
  unfold calculate_demand_strength, scenario_signals_on.
  rewrite (select_metric_taken _ _ _ (VStr "post_count") (VFloat 150));
    [| rewrite getitem_observed by discriminate; apply getitem_signal_type
     | reflexivity
     | rewrite getitem_observed by discriminate; apply getitem_signal_value].
  rewrite (select_metric_taken _ _ _ (VStr "interest_score") (VFloat 75));
    [| rewrite getitem_observed by discriminate; apply getitem_signal_type
     | reflexivity
     | rewrite getitem_observed by discriminate; apply getitem_signal_value].
  rewrite (select_metric_taken _ _ _ (VStr "story_count") (VFloat 25));
    [| rewrite getitem_observed by discriminate; apply getitem_signal_type
     | reflexivity
     | rewrite getitem_observed by discriminate; apply getitem_signal_value].
  cbn [select_metric rbind py_sum py_sum_from as_number length].
  replace ((0 + 150 + 75 + 25) / INR 3) with (250 / 3) by (simpl; lra).
  unfold log1p. destruct (Rle_dec _ _) as [Hle|_]; [lra|].
  cbn [rbind]. f_equal. apply Rmin_right.
  pose proof ln_scenario_bounds. lra.
Qed.

Lemma scenario_velocity (now : Z) (d1 d2 d3 : option string) :
  calculate_demand_velocity now (scenario_signals_on d1 d2 d3)
  = Ok (if has_recent now (scenario_signals_on d1 d2 d3) then 70 else 50).
Proof.
  unfold calculate_demand_velocity. unfold scenario_signals_on at 1 2.
  rewrite (select_metric_skipped _ _ _ (VStr "post_count"));
    [| rewrite getitem_observed by discriminate; apply getitem_signal_type
     | reflexivity].
  rewrite (select_metric_skipped _ _ _ (VStr "interest_score"));
    [| rewrite getitem_observed by discriminate; apply getitem_signal_type
     | reflexivity].
  rewrite (select_metric_skipped _ _ _ (VStr "story_count"));
    [| rewrite getitem_observed by discriminate; apply getitem_signal_type
     | reflexivity].
  cbn [select_metric rbind].
  destruct (has_recent _ _); reflexivity.
Qed.

Lemma scenario_competition (d1 d2 d3 : option string) :
  calculate_competition_proxy (scenario_signals_on d1 d2 d3) scenario_idea = Ok 65.
Proof.
  rewrite (competition_eval _ _ _ 0 (scenario_strength d1 d2 d3)).
  - cbn [Nat.ltb Nat.leb]. apply f_equal, competition_of_volume_mid.
    pose proof ln_scenario_bounds. lra.
  - unfold scenario_signals_on. cbn [count_show_hn].
    rewrite !get_observed_source, !get_signal_source. reflexivity.
Qed.

Lemma scenario_idea_factors :
  calculate_feasibility scenario_idea = Ok 95 /\
  calculate_automation_friendly scenario_idea = Ok 90 /\
  calculate_monetization_clarity scenario_idea = Ok 100.
Proof.
  split; [|split].
  - unfold calculate_feasibility, ops_burden_of, get, scenario_idea.
    map_lookup. cbn [rbind].
    change (lower "low") with "low"%string.
    change (feasibility_burden_score "low") with 85.
    cbn [truthy String.eqb Ascii.eqb negb].
    rewrite Rmax_Rmin_clamp by lra. f_equal. lra.
  - reflexivity.
  - unfold calculate_monetization_clarity, get, scenario_idea.
    map_lookup. cbn [truthy String.eqb Ascii.eqb negb].
    rewrite Rmin_left by lra. reflexivity.
Qed.

Lemma scenario_breakdown (now : Z) (d1 d2 d3 : option string) :
  score_idea default_engine now scenario_idea (scenario_signals_on d1 d2 d3) =
    Ok {| demand_strength := ln (1 + 250 / 3) * 10;
          demand_velocity :=
            if has_recent now (scenario_signals_on d1 d2 d3) then 70 else 50;
          competition_proxy := 65;
          feasibility := 95;
          automation_friendly := 90;
          monetization_clarity := 100;
          total :=
            ln (1 + 250 / 3) * 10 * (25 / 100)
            + (if has_recent now (scenario_signals_on d1 d2 d3) then 70 else 50)
              * (20 / 100)
            + 65 * (15 / 100) + 95 * (20 / 100) + 90 * (10 / 100)
            + 100 * (10 / 100) |}.
Proof.
  destruct scenario_idea_factors as (Hfe & Haf & Hmc).
  destruct default_six_weights as (H1 & H2 & H3 & H4 & H5 & H6).
  apply score_idea_eval;
    auto using scenario_strength, scenario_velocity, scenario_competition.
Qed.

Lemma scenario_undated_not_recent (now : Z) :
  has_recent now scenario_signals = false.
Proof.
  unfold has_recent, scenario_signals. cbn [existsb].
  rewrite !get_signal_date. reflexivity.
Qed.

(** C2, as stated, fails on its last part: for the scenario's signals as
    listed (no [data_date]) the three idea factors are 95, 100 and 90, and
    the total is below 70. *)
Lemma scenario_total_is_below_70 :
  exists b,
    score_idea default_engine (utc_midnight 2026 2 24) scenario_idea
      scenario_signals = Ok b /\
    feasibility b = 95 /\ monetization_clarity b = 100 /\
    automation_friendly b = 90 /\ total b < 70.
Proof.
  eexists. split.
  - apply (scenario_breakdown _ None None None).
  - cbn [feasibility monetization_clarity automation_friendly total].
    repeat split.
    change (scenario_signals_on None None None) with scenario_signals.
    rewrite scenario_undated_not_recent.
    pose proof ln_scenario_bounds. lra.
Qed.

(** C2, amended: for the scenario's signals (each with or without a
    [data_date]) and idea under the default weights, feasibility is 95,
    monetization clarity 100 and automation friendliness 90; the total is
    strictly greater than 70 when some signal's [data_date] is less than
    seven days old on the clock, and strictly less than 70 otherwise. *)
Theorem scenario_scores (now : Z) (d1 d2 d3 : option string) :
  exists b,
    score_idea default_engine now scenario_idea (scenario_signals_on d1 d2 d3)
      = Ok b /\
    feasibility b = 95 /\ monetization_clarity b = 100 /\
    automation_friendly b = 90 /\
    (has_recent now (scenario_signals_on d1 d2 d3) = true -> 70 < total b) /\
    (has_recent now (scenario_signals_on d1 d2 d3) = false -> total b < 70).
Proof.
  eexists. split; [apply scenario_breakdown|].
  cbn [feasibility monetization_clarity automation_friendly total].
  pose proof ln_scenario_bounds.
  repeat split; intros ->; lra.
Qed.

(** The signals of the test fixture, dated 2026-02-23, scored the day
    after: the total is above 70. *)
Lemma scenario_total_above_70_when_fresh :
  exists b,
    score_idea default_engine (utc_midnight 2026 2 24) scenario_idea
      (scenario_signals_on (Some "2026-02-23") (Some "2026-02-23")
         (Some "2026-02-23"))%string = Ok b /\
    70 < total b.
Proof.
  eexists. split; [apply scenario_breakdown|]. cbn [total].
  replace (has_recent _ _) with true.
  - pose proof ln_scenario_bounds. lra.
  - unfold has_recent, scenario_signals_on, observed. cbn [existsb].
    rewrite !get_dated_date. vm_compute. reflexivity.
Qed.

(** ** Ranges of the scores *)

Lemma select_metric_ok (types : list string) (P : value -> Prop)
    (signals : list dict) :
  Forall (fun s => exists mt, s !! "metric_type" = Some mt /\
            (in_strs mt types = true ->
             exists v, s !! "metric_value" = Some v /\ P v)) signals ->
  exists vs, select_metric types signals = Ok vs /\ Forall P vs.
Proof.
  induction 1 as [|s rest (mt & Hmt & Hv) _ (vs & IH & HP)].
  - exists []. split; [reflexivity | constructor].
  - simpl. unfold getitem at 1. rewrite Hmt. simpl.
    destruct (in_strs mt types) eqn:Hin.
    + destruct (Hv eq_refl) as (v & Hval & Pv).
      unfold getitem. rewrite Hval, IH. simpl.
      exists (v :: vs). split; [reflexivity | by constructor].
    + exists vs. by split.
Qed.

Lemma py_sum_from_ok (vs : list value) (acc : R) :
  Forall (fun v => is_Some (as_number v)) vs ->
  exists t, py_sum_from acc vs = Ok t.
Proof.
  intros H. revert acc. induction H as [|v vs [x Hx] _ IH]; intros acc.
  - by exists acc.
  - simpl. rewrite Hx. apply IH.
Qed.

Lemma py_sum_from_nonneg (vs : list value) (acc : R) :
  Forall (fun v => exists x, as_number v = Some x /\ 0 <= x) vs ->
  0 <= acc ->
  exists t, py_sum_from acc vs = Ok t /\ 0 <= t.
Proof.
  intros H. revert acc. induction H as [|v vs (x & Hx & Hpos) _ IH]; intros acc Hacc.
  - by exists acc.
  - simpl. rewrite Hx. apply IH. lra.
Qed.

Lemma ln_nonneg (y : R) : 1 <= y -> 0 <= ln y.
Proof.
  intros [Hlt|<-].
  - left. rewrite <- ln_1. apply ln_increasing; lra.
  - rewrite ln_1. lra.
Qed.

Lemma strength_in_range (signals : list dict) :
  Forall signal_ok signals ->
  exists x, calculate_demand_strength signals = Ok x /\ in_range x.
Proof.
  intros Hok. unfold calculate_demand_strength, in_range.
  destruct signals as [|s0 rest0] eqn:Hsig; [exists 0; split; [reflexivity | lra]|].
  rewrite <- Hsig in *. clear Hsig.
  destruct (select_metric_ok volume_types
              (fun v => exists x, as_number v = Some x /\ 0 <= x) signals)
    as (vs & -> & Hvs).
  { eapply Forall_impl; [exact Hok|].
    intros s (mt & Hmt & Hvol & _). exists mt. split; [exact Hmt|].
    intros Hin. destruct (Hvol Hin) as (v & x & ? & ? & ?). eauto. }
  cbn [rbind].
  destruct vs as [|v vs']; [exists 50; split; [reflexivity | lra]|].
  destruct (py_sum_from_nonneg (v :: vs') 0 Hvs) as (t & Ht & Hpos); [lra|].
  unfold py_sum. rewrite Ht. cbn [rbind].
  set (n := length (v :: vs')).
  assert (Hn : 0 < INR n) by (apply lt_0_INR; unfold n; simpl; lia).
  assert (Havg : 0 <= t / INR n).
  { apply Rmult_le_pos; [exact Hpos | left; by apply Rinv_0_lt_compat]. }
  unfold log1p. destruct (Rle_dec _ _) as [Hle|_]; [lra|]. cbn [rbind].
  eexists. split; [reflexivity|].
  assert (0 <= ln (1 + t / INR n)) by (apply ln_nonneg; lra).
  split.
  - apply Rmin_glb; lra.
  - apply Rmin_l.
Qed.

Lemma velocity_in_range (now : Z) (signals : list dict) :
  Forall signal_ok signals ->
  exists x, calculate_demand_velocity now signals = Ok x /\ in_range x.
Proof.
  intros Hok. unfold calculate_demand_velocity, in_range.
  destruct signals as [|s0 rest0] eqn:Hsig; [exists 50; split; [reflexivity | lra]|].
  rewrite <- Hsig in *. clear Hsig.
  destruct (select_metric_ok growth_types
              (fun v => is_Some (as_number v)) signals)
    as (vs & -> & Hvs).
  { eapply Forall_impl; [exact Hok|].
    intros s (mt & Hmt & _ & Hgr & _). exists mt. split; [exact Hmt|].
    intros Hin. destruct (Hgr Hin) as (v & x & ? & ?). eauto. }
  cbn [rbind].
  destruct vs as [|v vs'].
  - destruct (has_recent now signals); eexists; (split; [reflexivity | lra]).
  - destruct (py_sum_from_ok (v :: vs') 0 Hvs) as (t & Ht).
    unfold py_sum. rewrite Ht. cbn [rbind].
    eexists. split; [reflexivity | apply clamp_bounds].
Qed.

Lemma count_show_hn_ok (signals : list dict) :
  Forall signal_ok signals -> exists n, count_show_hn signals = Ok n.
Proof.
  induction 1 as [|s rest (mt & _ & _ & _ & [b Hb]) _ [n IH]].
  - by exists O.
  - simpl. rewrite Hb, IH. simpl. eauto.
Qed.

Lemma competition_in_range (signals : list dict) (idea : dict) :
  Forall signal_ok signals ->
  exists x, calculate_competition_proxy signals idea = Ok x /\ in_range x.
Proof.
  intros Hok.
  destruct (strength_in_range signals Hok) as (v & Hv & _).
  destruct (count_show_hn_ok signals Hok) as (n & Hn).
  rewrite (competition_eval signals idea v n Hv Hn).
  eexists. split; [reflexivity|].
  unfold in_range, competition_of_volume.
  destruct (5 <? n)%nat; [lra|].
  destruct (Rgt_dec v 80); [lra|]. destruct (Rlt_dec v 30); lra.
Qed.

Lemma idea_factors_in_range (idea : dict) :
  idea_ok idea ->
  (exists x, calculate_feasibility idea = Ok x /\ in_range x) /\
  (exists x, calculate_automation_friendly idea = Ok x /\ in_range x) /\
  (exists x, calculate_monetization_clarity idea = Ok x /\ in_range x).
Proof.
  intros H.
  assert (Hb : exists s, ops_burden_of idea = Ok s).
  { unfold ops_burden_of, get. destruct H as [->|[s ->]]; eauto. }
  destruct Hb as [s Hs].
  unfold calculate_feasibility, calculate_automation_friendly,
    calculate_monetization_clarity, in_range. rewrite Hs. cbn [rbind].
  split; [|split]; (eexists; split; [reflexivity|]).
  - apply clamp_bounds.
  - unfold automation_burden_score.
    repeat (match goal with |- context [String.eqb ?a ?b] =>
              destruct (String.eqb a b) end); lra.
  - split.
    + apply Rmin_glb; [lra|].
      repeat (match goal with |- context [truthy ?v] =>
                destruct (truthy v) end); lra.
    + apply Rmin_l.
Qed.

(** The weights of distinct keys add up to at most the sum of the table
    when no weight is negative. *)
Lemma partial_sum_le (ks : list string) :
  NoDup ks -> forall w : gmap string R,
  (forall k v, w !! k = Some v -> 0 <= v) ->
  Forall (fun k => is_Some (w !! k)) ks ->
  foldr (fun k acc => default 0 (w !! k) + acc) 0 ks <= weights_sum w.
Proof.
  induction 1 as [|k ks Hk Hnd IH]; intros w Hpos Hall.
  - simpl. by apply weights_sum_nonneg.
  - inversion Hall as [|? ? [v Hv] Hrest]; subst.
    simpl. rewrite Hv. simpl. rewrite (weights_sum_delete k v w Hv).
    apply Rplus_le_compat_l.
    assert (Hsame : forall j, j ∈ ks -> delete k w !! j = w !! j).
    { intros j Hj. apply lookup_delete_ne. intros ->. contradiction. }
    replace (foldr (fun k0 acc => default 0 (w !! k0) + acc) 0 ks)
      with (foldr (fun k0 acc => default 0 (delete k w !! k0) + acc) 0 ks).
    + apply IH.
      * intros j x Hj. apply lookup_delete_Some in Hj as [_ Hj]. by apply (Hpos j).
      * rewrite Forall_forall in *. intros j Hj. rewrite Hsame by exact Hj. auto.
    + clear -Hsame. induction ks as [|j ks IHks]; [reflexivity|].
      simpl. rewrite Hsame by left. f_equal. apply IHks.
      intros i Hi. apply Hsame. by right.
Qed.

Lemma six_weights (w : gmap string R) :
  normalized_table w ->
  exists w1 w2 w3 w4 w5 w6,
    w !! "demand_strength" = Some w1 /\
    w !! "demand_velocity" = Some w2 /\
    w !! "competition_proxy" = Some w3 /\
    w !! "feasibility" = Some w4 /\
    w !! "automation_friendly" = Some w5 /\
    w !! "monetization_clarity" = Some w6 /\
    (0 <= w1 /\ 0 <= w2 /\ 0 <= w3 /\ 0 <= w4 /\ 0 <= w5 /\ 0 <= w6) /\
    w1 + w2 + w3 + w4 + w5 + w6 <= weights_sum w.
Proof.
  intros (Hall & Hpos & _).
  assert (Hnd : NoDup factor_names).
  { apply (bool_decide_unpack _). vm_compute. exact I. }
  pose proof (partial_sum_le factor_names Hnd w Hpos Hall) as Hle.
  unfold factor_names in Hall.
  repeat match goal with
         | H : Forall _ (_ :: _) |- _ =>
             let v := fresh "v" in let Hv := fresh "Hv" in
             inversion H as [|? ? [v Hv] ?]; subst; clear H
         end.
  simpl in Hle. rewrite Hv, Hv0, Hv1, Hv2, Hv3, Hv4 in Hle. simpl in Hle.
  exists v, v0, v1, v2, v3, v4.
  repeat (split; [assumption|]).
  split; [|lra].
  repeat split; eapply Hpos; eassumption.
Qed.



Lemma signal_is_ok (t : string) (v : R) : 0 <= v -> signal_ok (signal t v).
Proof.
  intros Hv. exists (VStr t). unfold signal.
  split; [by map_lookup|].
  split; [intros _; exists (VFloat v), v; by map_lookup|].
  split; [intros _; exists (VFloat v), v; by map_lookup|].
  unfold get. map_lookup. eexists. reflexivity.
Qed.

Lemma default_table_normalized : normalized_table DEFAULT_WEIGHTS.
Proof.
  split; [|split].
  - unfold factor_names. repeat (constructor; [by eexists|]). constructor.
  - intros k v H. unfold DEFAULT_WEIGHTS in H.
    repeat (apply lookup_insert_Some in H as [[_ <-]|[_ H]]; [lra|]).
    by rewrite lookup_empty in H.
  - rewrite weights_sum_DEFAULT. replace (1 - 1) with 0 by ring.
    rewrite Rabs_R0. lra.
Qed.


(** ** The stable descending sort *)

Section SortFacts.
Context {A : Type}.
Implicit Types (x : R * A) (l : list (R * A)).

Lemma insert_desc_perm x l : insert_desc x l ≡ₚ x :: l.
Proof.
  induction l as [|y l IH]; [reflexivity|]. simpl.
  destruct (Rlt_dec x.1 y.1); [|reflexivity].
  rewrite IH. apply Permutation_swap.
Qed.

Lemma sort_desc_perm l : sort_desc l ≡ₚ l.
Proof.
  induction l as [|x l IH]; [reflexivity|]. simpl.
  by rewrite insert_desc_perm, IH.
Qed.

Lemma sort_desc_length l : length (sort_desc l) = length l.
Proof. apply Permutation_length, sort_desc_perm. Qed.

(** The sort looks at the keys only. *)
Lemma insert_desc_fmap {B} (f : A -> B) x l :
  insert_desc (x.1, f x.2) ((fun p => (p.1, f p.2)) <$> l)
  = (fun p => (p.1, f p.2)) <$> insert_desc x l.
Proof.
  induction l as [|y l IH]; [reflexivity|].
  rewrite fmap_cons. cbn [insert_desc fst snd].
  destruct (Rlt_dec x.1 y.1); [|reflexivity].
  rewrite fmap_cons. f_equal. apply IH.
Qed.

Lemma sort_desc_fmap {B} (f : A -> B) l :
  sort_desc ((fun p => (p.1, f p.2)) <$> l)
  = (fun p => (p.1, f p.2)) <$> sort_desc l.
Proof.
  induction l as [|x l IH]; [reflexivity|].
  rewrite fmap_cons. cbn [sort_desc]. rewrite IH. apply insert_desc_fmap.
Qed.
End SortFacts.

(** An element that came before every element of a stably sorted list
    is inserted where stability wants it. *)
Lemma insert_desc_stable (x : R * nat) (l : list (R * nat)) :
  StronglySorted stable_desc l ->
  Forall (fun y => (x.2 < y.2)%nat) l ->
  StronglySorted stable_desc (insert_desc x l).
Proof.
  induction 1 as [|y l Hl IH Hy]; intros Hx.
  - simpl. repeat constructor.
  - inversion Hx as [|? ? Hxy Hxl]; subst. simpl.
    destruct (Rlt_dec x.1 y.1) as [Hlt|Hge].
    + constructor; [by apply IH|].
      rewrite insert_desc_perm. constructor; [|exact Hy].
      left. exact Hlt.
    + constructor; [by constructor|].
      assert (Hxy' : stable_desc x y).
      { unfold stable_desc. destruct (Rtotal_order x.1 y.1) as [?|[?|?]];
          [contradiction | right; by split | left; lra]. }
      constructor; [exact Hxy'|].
      rewrite Forall_forall in *. intros z Hz.
      specialize (Hy z Hz). specialize (Hxl z Hz).
      unfold stable_desc in *. destruct Hxy' as [?|[? ?]], Hy as [?|[? ?]];
        first [left; lra | right; split; [lra | lia]].
Qed.

Lemma sort_desc_stable (keys : list R) (start : nat) :
  StronglySorted stable_desc
    (sort_desc (zip keys (seq start (length keys)))).
Proof.
  revert start. induction keys as [|k keys IH]; intros start.
  - constructor.
  - simpl. apply insert_desc_stable; [apply IH|].
    rewrite sort_desc_perm. apply Forall_forall. intros [k' i] Hin.
    apply elem_of_zip_r, elem_of_seq in Hin. simpl. lia.
Qed.

Lemma StronglySorted_lookup {B} (Rel : relation B) (l : list B) (i j : nat)
    (a b : B) :
  StronglySorted Rel l -> (i < j)%nat ->
  l !! i = Some a -> l !! j = Some b -> Rel a b.
Proof.
  intros Hl. revert i j. induction Hl as [|x l Hl IH Hx]; intros i j Hij Hi Hj.
  - by rewrite lookup_nil in Hi.
  - destruct j as [|j]; [lia|]. simpl in Hj. destruct i as [|i].
    + simpl in Hi. inversion Hi; subst.
      rewrite Forall_forall in Hx. apply Hx.
      apply list_elem_of_lookup. eauto.
    + simpl in Hi. apply (IH i j); [lia | done | done].
Qed.

(** ** The store: what [rank_ideas] leaves alone *)

Section Frame.
Context (h0 : heap).

Lemma frames_ret {A} (P : A -> Prop) (a : A) : P a -> frames h0 P (mret a).
Proof. intros Ha h Hh. split; [exact Hh|]. intros a' [= <-]. exact Ha. Qed.

Lemma frames_bind {A B} (P : A -> Prop) (Q : B -> Prop) (m : M A)
    (f : A -> M B) :
  frames h0 P m -> (forall a, P a -> frames h0 Q (f a)) ->
  frames h0 Q (mbind' m f).
Proof.
  intros Hm Hf h Hh. unfold mbind'.
  destruct (Hm h Hh) as [Hsub HP].
  destruct (m h) as [[a|e] h1]; simpl in *.
  - apply (Hf a (HP a eq_refl) h1 Hsub).
  - split; [exact Hsub | discriminate].
Qed.

Lemma frames_weaken {A} (P Q : A -> Prop) (m : M A) :
  (forall a, P a -> Q a) -> frames h0 P m -> frames h0 Q m.
Proof. intros HPQ Hm h Hh. destruct (Hm h Hh). split; auto. Qed.

Lemma frames_lift {A} (r : result A) : frames h0 (fun _ => True) (lift r).
Proof. intros h Hh. by split. Qed.

Lemma frames_load_dict (l : loc) : frames h0 (fun _ => True) (load_dict l).
Proof.
  intros h Hh. unfold load_dict. destruct (h !! l) as [[d|ls]|]; by split.
Qed.

Lemma frames_load_list (l : loc) : frames h0 (fun _ => True) (load_list l).
Proof.
  intros h Hh. unfold load_list. destruct (h !! l) as [[d|ls]|]; by split.
Qed.

Lemma frames_for_each {A B} (f : A -> M B) (l : list A) :
  (forall x, frames h0 (fun _ => True) (f x)) ->
  frames h0 (fun _ => True) (for_each f l).
Proof.
  intros Hf. induction l as [|x l IH]; simpl.
  - by apply frames_ret.
  - eapply frames_bind; [apply Hf|]. intros y _.
    eapply frames_bind; [apply IH|]. intros ys _. by apply frames_ret.
Qed.

(** A new object lives outside the caller's store. *)
Lemma frames_alloc (o : obj) : frames h0 (fun l => h0 !! l = None) (alloc o).
Proof.
  intros h Hh. unfold alloc. simpl.
  assert (Hfresh : h !! fresh (dom h) = None)
    by apply not_elem_of_dom, is_fresh.
  assert (H0 : h0 !! fresh (dom h) = None)
    by (eapply lookup_weaken_None; eassumption).
  split.
  - etrans; [exact Hh|]. by apply insert_subseteq.
  - by intros a [= <-].
Qed.

(** A write to an object outside the caller's store. *)
Lemma frames_setitem (l : loc) (k : string) (v : value) :
  h0 !! l = None -> frames h0 (fun _ => True) (setitem l k v).
Proof.
  intros Hl h Hh. unfold setitem.
  destruct (h !! l) as [[d|ls]|]; simpl; try by split.
  split; [|done]. by apply insert_subseteq_r.
Qed.

Lemma frames_score_one (self : ScoringEngine) (now : Z) (item : loc * loc) :
  frames h0 (fun l => h0 !! l = None) (score_one self now item).
Proof.
  destruct item as [idea_l signals_l]. unfold score_one.
  eapply frames_bind; [apply frames_load_dict|]. intros idea _.
  eapply frames_bind; [apply frames_load_list|]. intros ls _.
  eapply frames_bind; [apply frames_for_each, frames_load_dict|]. intros sigs _.
  eapply frames_bind; [apply frames_lift|]. intros b _.
  eapply frames_bind; [apply frames_alloc|]. intros c Hc.
  eapply frames_bind; [by apply frames_setitem|]. intros _ _.
  eapply frames_bind; [by apply frames_setitem|]. intros _ _.
  by apply frames_ret.
Qed.

Lemma frames_score_all (self : ScoringEngine) (now : Z)
    (items : list (loc * loc)) :
  frames h0 (Forall (fun l => h0 !! l = None)) (score_all self now items).
Proof.
  induction items as [|item rest IH]; simpl.
  - by apply frames_ret.
  - eapply frames_bind; [apply frames_score_one|]. intros c Hc.
    eapply frames_bind; [apply IH|]. intros cs Hcs.
    apply frames_ret. by constructor.
Qed.

Lemma frames_sort_key (l : loc) : frames h0 (fun _ => True) (sort_key l).
Proof.
  unfold sort_key.
  eapply frames_bind; [apply frames_load_dict|]. intros d _.
  eapply frames_bind; [apply frames_lift|]. intros v _.
  destruct (as_number v); [by apply frames_ret | apply frames_lift].
Qed.

Lemma frames_assign_ranks (i : Z) (scored : list loc) :
  Forall (fun l => h0 !! l = None) scored ->
  frames h0 (fun _ => True) (assign_ranks i scored).
Proof.
  intros H. revert i. induction H as [|l rest Hl _ IH]; intros i; simpl.
  - by apply frames_ret.
  - eapply frames_bind; [by apply frames_setitem|]. intros _ _. apply IH.
Qed.

Lemma sorted_locs_subset {A} (keys : list R) (ls : list A) (P : A -> Prop) :
  Forall P ls -> Forall P (sort_desc (zip keys ls)).*2.
Proof.
  intros H. rewrite sort_desc_perm.
  rewrite Forall_forall in *. intros x Hx.
  apply list_elem_of_fmap in Hx as ([k y] & -> & Hin).
  apply elem_of_zip_r in Hin. by apply H.
Qed.

Lemma frames_rank_ideas (self : ScoringEngine) (now : Z)
    (items : list (loc * loc)) :
  frames h0 (Forall (fun l => h0 !! l = None)) (rank_ideas self now items).
Proof.
  unfold rank_ideas.
  eapply frames_bind; [apply frames_score_all|]. intros cs Hcs.
  eapply frames_bind; [apply frames_for_each, frames_sort_key|]. intros keys _.
  eapply frames_bind;
    [by apply frames_assign_ranks, sorted_locs_subset|]. intros _ _.
  by apply frames_ret, sorted_locs_subset.
Qed.
End Frame.

(** C10: whatever [rank_ideas] does (return or raise), every object of the
    caller's store (the idea dictionaries, the lists of signals and the
    signal dictionaries among them) is in the final store as it was; the
    dictionaries returned are new objects, not in the caller's store. *)
Theorem rank_ideas_leaves_inputs_unchanged (self : ScoringEngine) (now : Z)
    (items : list (loc * loc)) (h : heap) :
  (forall l o, h !! l = Some o ->
     (rank_ideas self now items h).2 !! l = Some o) /\
  (forall out, (rank_ideas self now items h).1 = Ok out ->
     Forall (fun l => h !! l = None) out).
Proof.
  destruct (frames_rank_ideas h self now items h) as [Hsub Hout]; [done|].
  split; [|exact Hout].
  intros l o Hl. eapply lookup_weaken; eassumption.
Qed.

(** ** Running [rank_ideas] on a batch that can be scored *)

Lemma mbind_ok {A B} (m : M A) (f : A -> M B) (h h1 : heap) (a : A) :
  m h = (Ok a, h1) -> mbind' m f h = f a h1.
Proof. intros H. unfold mbind'. by rewrite H. Qed.

Lemma heap_dict_Some (h : heap) (l : loc) (d : dict) :
  heap_dict h l = Some d <-> h !! l = Some (ODict d).
Proof.
  unfold heap_dict. destruct (h !! l) as [[d'|ls]|]; split; intros H;
    by inversion H.
Qed.

Lemma heap_dict_mono (h h' : heap) (l : loc) (d : dict) :
  h ⊆ h' -> heap_dict h l = Some d -> heap_dict h' l = Some d.
Proof.
  rewrite !heap_dict_Some. intros Hsub Hl. eapply lookup_weaken; eassumption.
Qed.

Lemma heap_dicts_mono (h h' : heap) (ls : list loc) (ds : list dict) :
  h ⊆ h' -> heap_dicts h ls = Some ds -> heap_dicts h' ls = Some ds.
Proof.
  intros Hsub. revert ds. induction ls as [|l ls IH]; intros ds; [done|].
  simpl. destruct (heap_dict h l) as [d|] eqn:Hd; [|done].
  destruct (heap_dicts h ls) as [ds'|]; [|done].
  intros [= <-]. by rewrite (heap_dict_mono h h' l d Hsub Hd), (IH ds').
Qed.

Lemma item_score_mono (self : ScoringEngine) (now : Z) (h h' : heap)
    (item : loc * loc) (e : dict * ScoreBreakdown) :
  h ⊆ h' -> item_score self now h item = Some e ->
  item_score self now h' item = Some e.
Proof.
  intros Hsub. unfold item_score, heap_signals.
  destruct (heap_dict h item.1) as [idea|] eqn:Hd; [|done].
  rewrite (heap_dict_mono h h' _ idea Hsub Hd).
  destruct (h !! item.2) as [[d|ls]|] eqn:Hl; try done.
  rewrite (lookup_weaken h h' _ _ Hl Hsub).
  destruct (heap_dicts h ls) as [ds|] eqn:Hds; [|done].
  by rewrite (heap_dicts_mono h h' ls ds Hsub Hds).
Qed.

Lemma load_dict_ok (h : heap) (l : loc) (d : dict) :
  heap_dict h l = Some d -> load_dict l h = (Ok d, h).
Proof. rewrite heap_dict_Some. intros H. unfold load_dict. by rewrite H. Qed.

Lemma load_dicts_ok (h : heap) (ls : list loc) (ds : list dict) :
  heap_dicts h ls = Some ds -> for_each load_dict ls h = (Ok ds, h).
Proof.
  revert ds. induction ls as [|l ls IH]; intros ds; simpl.
  - by intros [= <-].
  - destruct (heap_dict h l) as [d|] eqn:Hd; [|done].
    destruct (heap_dicts h ls) as [ds'|]; [|done].
    intros [= <-].
    rewrite (mbind_ok _ _ h h d (load_dict_ok h l d Hd)).
    by rewrite (mbind_ok _ _ h h ds' (IH ds' eq_refl)).
Qed.

(** One turn of the first loop: the copy is a new object holding the idea's
    fields, the total and the rounded breakdown. *)
Lemma score_one_ok (self : ScoringEngine) (now : Z) (h : heap)
    (item : loc * loc) (e : dict * ScoreBreakdown) :
  item_score self now h item = Some e ->
  score_one self now item h
  = (Ok (fresh (dom h)), <[fresh (dom h) := ODict (scored_entry e)]> h).
Proof.
  destruct item as [idea_l signals_l]. unfold item_score, heap_signals. simpl.
  destruct (heap_dict h idea_l) as [idea|] eqn:Hidea; [|done].
  destruct (h !! signals_l) as [[?|ls]|] eqn:Hls; try done.
  destruct (heap_dicts h ls) as [signals|] eqn:Hsigs; [|done].
  destruct (score_idea self now idea signals) as [b|] eqn:Hb; [|done].
  intros [= <-]. unfold score_one.
  rewrite (mbind_ok _ _ h h idea (load_dict_ok h idea_l idea Hidea)).
  rewrite (mbind_ok _ _ h h ls) by (unfold load_list; by rewrite Hls).
  rewrite (mbind_ok _ _ h h signals (load_dicts_ok h ls signals Hsigs)).
  rewrite (mbind_ok _ _ h h b) by (unfold lift; by rewrite Hb).
  unfold mbind', alloc, setitem, mret, scored_entry. simpl.
  rewrite !lookup_insert_eq. by rewrite !insert_insert_eq.
Qed.

Lemma score_all_ok (self : ScoringEngine) (now : Z) (items : list (loc * loc))
    (scored : list (dict * ScoreBreakdown)) (h : heap) :
  Forall2 (fun item e => item_score self now h item = Some e) items scored ->
  exists cs h',
    score_all self now items h = (Ok cs, h') /\ h ⊆ h' /\ NoDup cs /\
    Forall2 (fun c e => h !! c = None /\
                        h' !! c = Some (ODict (scored_entry e))) cs scored.
Proof.
  intros H. revert h H.
  induction items as [|item rest IH] in scored |- *; intros h H.
  - inversion H; subst. exists [], h.
    split; [reflexivity|]. split; [done|]. split; constructor.
  - inversion H as [|? e ? scored' He Hrest]; subst.
    set (c := fresh (dom h)).
    set (h1 := <[c := ODict (scored_entry e)]> h).
    assert (Hc : h !! c = None) by apply not_elem_of_dom, is_fresh.
    assert (Hsub : h ⊆ h1) by by apply insert_subseteq.
    destruct (IH scored' h1) as (cs & h' & Hrun & Hsub' & Hnd & Hcs).
    { eapply Forall2_impl; [exact Hrest|].
      intros it e' Hit. by apply (item_score_mono self now h h1). }
    exists (c :: cs), h'. split; [|split; [|split]].
    + simpl. rewrite (mbind_ok _ _ h h1 c (score_one_ok self now h item e He)).
      by rewrite (mbind_ok _ _ h1 h' cs Hrun).
    + by etrans.
    + constructor; [|exact Hnd]. intros Hin.
      apply list_elem_of_lookup in Hin as [i Hi].
      destruct (Forall2_lookup_l _ _ _ _ _ Hcs Hi) as (e' & _ & Hnone & _).
      unfold h1 in Hnone. by rewrite lookup_insert_eq in Hnone.
    + constructor.
      * split; [exact Hc|]. eapply lookup_weaken; [|exact Hsub'].
        apply lookup_insert_eq.
      * eapply Forall2_impl; [exact Hcs|]. intros c' e' [Hnone Hsome].
        split; [|exact Hsome]. eapply lookup_weaken_None; eassumption.
Qed.

Lemma sort_key_ok (h : heap) (c : loc) (e : dict * ScoreBreakdown) :
  h !! c = Some (ODict (scored_entry e)) -> sort_key c h = (Ok (total e.2), h).
Proof.
  intros Hc. unfold sort_key.
  rewrite (mbind_ok _ _ h h (scored_entry e))
    by (apply load_dict_ok; by rewrite heap_dict_Some).
  rewrite (mbind_ok _ _ h h (VFloat (total e.2))).
  - reflexivity.
  - unfold lift, getitem, scored_entry.
    rewrite lookup_insert_ne by discriminate. by rewrite lookup_insert_eq.
Qed.

Lemma sort_keys_ok (h : heap) (cs : list loc)
    (scored : list (dict * ScoreBreakdown)) :
  Forall2 (fun c e => h !! c = Some (ODict (scored_entry e))) cs scored ->
  for_each sort_key cs h = (Ok ((fun e => total e.2) <$> scored), h).
Proof.
  induction 1 as [|c e cs scored Hc _ IH]; [reflexivity|].
  simpl. rewrite (mbind_ok _ _ h h _ (sort_key_ok h c e Hc)).
  by rewrite (mbind_ok _ _ h h _ IH).
Qed.

(** The second loop: the object at position [k] gets the rank [i + k]; no
    other object changes. *)
Lemma assign_ranks_ok (cs : list loc) (i : Z) (h : heap) :
  NoDup cs -> Forall (fun c => is_Some (heap_dict h c)) cs ->
  exists h',
    assign_ranks i cs h = (Ok tt, h') /\
    (forall l, l ∉ cs -> h' !! l = h !! l) /\
    (forall k c d, cs !! k = Some c -> heap_dict h c = Some d ->
       h' !! c = Some (ODict (<["rank" := VInt (i + Z.of_nat k)]> d))).
Proof.
  intros Hnd. revert i h. induction Hnd as [|c cs Hc Hnd IH]; intros i h Hall.
  - exists h. split; [reflexivity|]. split; [done|]. intros k c d Hk.
    by rewrite lookup_nil in Hk.
  - inversion Hall as [|? ? [d Hd] Hrest]; subst.
    apply heap_dict_Some in Hd.
    set (h1 := <[c := ODict (<["rank" := VInt i]> d)]> h).
    destruct (IH (i + 1)%Z h1) as (h' & Hrun & Hother & Hranks).
    { rewrite Forall_forall in *. intros c' Hc'.
      destruct (Hrest c' Hc') as [d' Hd']. exists d'. apply heap_dict_Some. apply heap_dict_Some in Hd'.
      unfold h1. rewrite lookup_insert_ne; [done | by intros ->]. }
    exists h'. split; [|split].
    + simpl. rewrite (mbind_ok _ _ h h1 tt); [exact Hrun|].
      unfold setitem. by rewrite Hd.
    + intros l Hl. rewrite Hother by set_solver.
      unfold h1. apply lookup_insert_ne. set_solver.
    + intros k c' d' Hk Hd'. destruct k as [|k]; simpl in Hk.
      * inversion Hk; subst c'. apply heap_dict_Some in Hd'.
        rewrite Hd in Hd'. inversion Hd'; subst d'.
        rewrite Hother by exact Hc. unfold h1.
        rewrite lookup_insert_eq. repeat f_equal. lia.
      * replace (i + Z.of_nat (S k))%Z with (i + 1 + Z.of_nat k)%Z by lia.
        apply (Hranks k c' d' Hk).
        apply heap_dict_Some. apply heap_dict_Some in Hd'.
        unfold h1. rewrite lookup_insert_ne; [done|].
        intros ->. apply Hc. apply list_elem_of_lookup. eauto.
Qed.

Lemma zip_by_position {A} (dflt : A) (keys : list R) (cs : list A) :
  length keys = length cs ->
  zip keys cs
  = (fun p => (p.1, at_position dflt cs p.2)) <$> zip keys (seq 0 (length cs)).
Proof.
  intros Hlen. apply list_eq. intros i.
  rewrite list_lookup_fmap, !lookup_zip_with.
  destruct (keys !! i) as [k|] eqn:Hk; [|reflexivity]. simpl.
  assert (Hi : (i < length cs)%nat).
  { rewrite <- Hlen. by eapply lookup_lt_Some. }
  rewrite lookup_seq_lt by exact Hi.
  destruct (lookup_lt_is_Some_2 cs i Hi) as [c Hc]. rewrite Hc. simpl.
  unfold at_position. by rewrite Hc.
Qed.

Lemma elem_of_zip_seq (keys : list R) (n : nat) (k : R) (p : nat) :
  (k, p) ∈ zip keys (seq 0 n) -> keys !! p = Some k /\ (p < n)%nat.
Proof.
  intros Hin. apply list_elem_of_lookup in Hin as [i Hi].
  apply lookup_zip_with_Some in Hi as (k' & p' & Heq & Hk & Hp).
  inversion Heq; subst. apply lookup_seq in Hp as [-> Hlt]. by split.
Qed.

(** C5: on a batch every item of which can be read and scored,
    [rank_ideas] returns one new dictionary per item; the entry at output
    position [i] is the copy of the input item at position [ps !! i] with
    its total, its breakdown and the rank [i + 1], where [ps] is a
    permutation of the input positions along which the totals never
    increase and, for equal totals, the input positions increase. *)
Theorem rank_ideas_sorts_stably (self : ScoringEngine) (now : Z)
    (items : list (loc * loc)) (scored : list (dict * ScoreBreakdown))
    (h : heap) :
  Forall2 (fun item e => item_score self now h item = Some e) items scored ->
  exists out h' ps,
    rank_ideas self now items h = (Ok out, h') /\
    ps ≡ₚ seq 0 (length items) /\
    length out = length items /\
    (forall i p, ps !! i = Some p ->
       exists c e, out !! i = Some c /\ scored !! p = Some e /\
         h' !! c = Some (ODict (ranked_entry e (Z.of_nat i + 1)))) /\
    (forall i j p q ep eq,
       (i < j)%nat -> ps !! i = Some p -> ps !! j = Some q ->
       scored !! p = Some ep -> scored !! q = Some eq ->
       total eq.2 <= total ep.2 /\
       (total ep.2 = total eq.2 -> (p < q)%nat)).
Proof.
  intros Hitems.
  destruct (score_all_ok self now items scored h Hitems)
    as (cs & h1 & Hrun & _ & Hnd & Hcs).
  assert (Hentries :
    Forall2 (fun c e => h1 !! c = Some (ODict (scored_entry e))) cs scored).
  { eapply Forall2_impl; [exact Hcs|]. by intros c e [_ ?]. }
  set (keys := (fun e : dict * ScoreBreakdown => total e.2) <$> scored).
  pose proof (Forall2_length _ _ _ Hitems) as Hlen_items.
  pose proof (Forall2_length _ _ _ Hcs) as Hlen_cs.
  assert (Hlen_keys : length keys = length cs).
  { unfold keys. by rewrite length_fmap. }
  set (sl := sort_desc (zip keys (seq 0 (length cs)))).
  set (f := at_position (1%positive : loc) cs).
  set (out := (sort_desc (zip keys cs)).*2).
  assert (Hout : out = f <$> sl.*2).
  { unfold out, sl. rewrite (zip_by_position (A:=loc) 1%positive keys cs Hlen_keys).
    rewrite sort_desc_fmap, <- !list_fmap_compose. reflexivity. }
  assert (Hperm_out : out ≡ₚ cs).
  { unfold out. rewrite sort_desc_perm. rewrite snd_zip; [done | lia]. }
  assert (Hperm_ps : sl.*2 ≡ₚ seq 0 (length cs)).
  { unfold sl. rewrite sort_desc_perm.
    rewrite snd_zip; [done | rewrite length_seq; lia]. }
  destruct (assign_ranks_ok out 1 h1) as (h' & Hranks & _ & Hrank).
  { by rewrite Hperm_out. }
  { rewrite Hperm_out. rewrite Forall_forall. intros c Hc.
    apply list_elem_of_lookup in Hc as [k Hk].
    destruct (Forall2_lookup_l _ _ _ _ _ Hentries Hk) as (e & _ & He).
    exists (scored_entry e). by apply heap_dict_Some. }
  exists out, h', sl.*2. split; [|split; [|split; [|split]]].
  - unfold rank_ideas.
    rewrite (mbind_ok _ _ h h1 cs Hrun).
    rewrite (mbind_ok _ _ h1 h1 keys (sort_keys_ok h1 cs scored Hentries)).
    fold out. by rewrite (mbind_ok _ _ h1 h' tt Hranks).
  - rewrite Hperm_ps. by rewrite Hlen_items, <- Hlen_cs.
  - rewrite (Permutation_length Hperm_out). lia.
  - intros i p Hp.
    assert (Hlt : (p < length cs)%nat).
    { assert (p ∈ seq 0 (length cs)) as Hin.
      { rewrite <- Hperm_ps. apply list_elem_of_lookup. eauto. }
      apply elem_of_seq in Hin. lia. }
    destruct (lookup_lt_is_Some_2 cs p Hlt) as [c Hc].
    destruct (Forall2_lookup_l _ _ _ _ _ Hentries Hc) as (e & He & Hentry).
    exists c, e.
    assert (Hi : out !! i = Some c).
    { rewrite Hout, list_lookup_fmap, Hp. simpl.
      unfold f, at_position. by rewrite Hc. }
    split; [exact Hi|]. split; [exact He|].
    rewrite (Hrank i c (scored_entry e) Hi) by by apply heap_dict_Some.
    unfold ranked_entry. by rewrite Z.add_comm.
  - intros i j p q ep eq Hij Hp Hq Hep Heq.
    rewrite list_lookup_fmap in Hp, Hq.
    destruct (sl !! i) as [[ki p']|] eqn:Hi; [|done].
    destruct (sl !! j) as [[kj q']|] eqn:Hj; [|done].
    simpl in Hp, Hq. inversion Hp; inversion Hq; subst p' q'.
    assert (Hkey : forall k r e, (k, r) ∈ sl -> scored !! r = Some e ->
                                 k = total e.2).
    { intros k r e Hin He. unfold sl in Hin. rewrite sort_desc_perm in Hin.
      apply elem_of_zip_seq in Hin as [Hk _]. unfold keys in Hk.
      rewrite list_lookup_fmap, He in Hk. by inversion Hk. }
    assert (Hki : ki = total ep.2).
    { apply (Hkey ki p); [apply list_elem_of_lookup; eauto | exact Hep]. }
    assert (Hkj : kj = total eq.2).
    { apply (Hkey kj q); [apply list_elem_of_lookup; eauto | exact Heq]. }
    assert (Hsorted : StronglySorted stable_desc sl).
    { unfold sl. rewrite <- Hlen_keys. apply sort_desc_stable. }
    pose proof (StronglySorted_lookup stable_desc sl i j _ _
                  Hsorted Hij Hi Hj) as Hst.
    unfold stable_desc in Hst. simpl in Hst. subst ki kj.
    destruct Hst as [Hgt|[Heqk Hlt]]; split; try lra; try (intros; lra); done.
Qed.

Lemma example_item_score :
  item_score default_engine 0 example_heap (1%positive, 2%positive)
  = Some (∅, bare_breakdown).
Proof.
  unfold item_score, heap_dict, heap_signals, example_heap. simpl.
  map_lookup. simpl.
  destruct default_six_weights as (H1 & H2 & H3 & H4 & H5 & H6).
  by rewrite (score_bare default_engine 0 _ _ _ _ _ _ H1 H2 H3 H4 H5 H6).
Qed.

Lemma rank_ideas_sorts_stably_witness :
  Forall2 (fun item e => item_score default_engine 0 example_heap item = Some e)
    example_batch [(∅, bare_breakdown); (∅, bare_breakdown)] /\
  exists out h' ps,
    rank_ideas default_engine 0 example_batch example_heap = (Ok out, h') /\
    ps ≡ₚ seq 0 2 /\ length out = 2%nat.
Proof.
  assert (H : Forall2
    (fun item e => item_score default_engine 0 example_heap item = Some e)
    example_batch [(∅, bare_breakdown); (∅, bare_breakdown)]).
  { unfold example_batch.
    repeat (constructor; [exact example_item_score|]). constructor. }
  split; [exact H|].
  destruct (rank_ideas_sorts_stably default_engine 0 example_batch _
              example_heap H) as (out & h' & ps & Hrun & Hps & Hlen & _).
  exists out, h', ps. split; [exact Hrun|]. split; [exact Hps | exact Hlen].
Defined.

(** ** The tolerance of the validation and the range of the total

    A table that [_validate_weights] keeps because its sum is within 1e-3
    of one need not keep the total below 100. *)






(** ** Signals without a metric type

    [signal_ok] asks for the key [metric_type].  Without it the lookup
    [s['metric_type']] raises, in the demand strength and hence in the
    competition proxy, whatever the other signals are. *)
Lemma launch_post_raises (signals : list dict) (idea : dict) :
  calculate_demand_strength (launch_post :: signals)
  = Raise (KeyError "metric_type") /\
  calculate_competition_proxy (launch_post :: signals) idea
  = Raise (KeyError "metric_type").
Proof.
  assert (H : calculate_demand_strength (launch_post :: signals)
              = Raise (KeyError "metric_type")).
  { unfold calculate_demand_strength. cbn [select_metric].
    unfold getitem at 1, launch_post. by map_lookup. }
  split; [exact H|]. unfold calculate_competition_proxy. by rewrite H.
Qed.

(** * Further properties of the engine *)

(** ** The idea factors *)

Lemma lower_ascii_idem (c : ascii) : lower_ascii (lower_ascii c) = lower_ascii c.
Proof. destruct c as [[] [] [] [] [] [] [] []]; reflexivity. Qed.

Lemma lower_idem (s : string) : lower (lower s) = lower s.
Proof.
  induction s as [|c s IH]; [reflexivity|].
  simpl. by rewrite lower_ascii_idem, IH.
Qed.

Lemma ops_burden_with (s : string) (idea : dict) :
  ops_burden_of (with_burden s idea) = Ok (lower s).
Proof. unfold ops_burden_of, with_burden, get. by rewrite lookup_insert_eq. Qed.

Lemma get_with_burden (s k : string) (idea : dict) (dflt : value) :
  k <> "ops_burden_estimate"%string ->
  get (with_burden s idea) k dflt = get idea k dflt.
Proof. intros H. unfold get, with_burden. by rewrite lookup_insert_ne. Qed.

(** The feasibility of an idea whose burden reads [b]: the base score, the
    bonus and the penalty, never clamped since the sum stays in [25,95]. *)
Lemma feasibility_with (s : string) (idea : dict) :
  calculate_feasibility (with_burden s idea)
  = Ok (feasibility_burden_score (lower s)
        + (if has_field idea "distribution_channel" then 10 else 0)
        - (if has_field idea "compliance_risks" then 15 else 0)).
Proof.
  unfold calculate_feasibility, has_field. rewrite ops_burden_with. cbn [rbind].
  rewrite !get_with_burden by discriminate.
  set (x := feasibility_burden_score (lower s)).
  assert (Hx : 40 <= x <= 85).
  { unfold x, feasibility_burden_score.
    repeat (match goal with |- context [String.eqb ?a ?b] =>
              destruct (String.eqb a b) end); lra. }
  f_equal.
  destruct (truthy (get idea "distribution_channel" VNone)),
           (truthy (get idea "compliance_risks" VNone));
    rewrite Rmax_Rmin_clamp; lra.
Qed.

Lemma automation_with (s : string) (idea : dict) :
  calculate_automation_friendly (with_burden s idea)
  = Ok (automation_burden_score (lower s)).
Proof. unfold calculate_automation_friendly. by rewrite ops_burden_with. Qed.

(** X1: with the other fields of the idea fixed, raising the operational
    burden from low to medium to high strictly lowers the feasibility and
    the automation friendliness. *)
Theorem burden_strictly_lowers_scores (idea : dict) :
  exists fl fm fh al am ah,
    calculate_feasibility (with_burden "low" idea) = Ok fl /\
    calculate_feasibility (with_burden "medium" idea) = Ok fm /\
    calculate_feasibility (with_burden "high" idea) = Ok fh /\
    calculate_automation_friendly (with_burden "low" idea) = Ok al /\
    calculate_automation_friendly (with_burden "medium" idea) = Ok am /\
    calculate_automation_friendly (with_burden "high" idea) = Ok ah /\
    fh < fm < fl /\ ah < am < al.
Proof.
  do 6 eexists.
  repeat (split; [first [apply feasibility_with | apply automation_with]|]).
  change (lower "low") with "low"%string.
  change (lower "medium") with "medium"%string.
  change (lower "high") with "high"%string.
  change (feasibility_burden_score "low") with 85.
  change (feasibility_burden_score "medium") with 65.
  change (feasibility_burden_score "high") with 40.
  change (automation_burden_score "low") with 90.
  change (automation_burden_score "medium") with 60.
  change (automation_burden_score "high") with 30.
  destruct (has_field idea "distribution_channel"),
           (has_field idea "compliance_risks"); lra.
Qed.

Lemma burden_scores_of_unknown (b : string) :
  b <> "low"%string -> b <> "medium"%string -> b <> "high"%string ->
  feasibility_burden_score b = 65 /\ automation_burden_score b = 60.
Proof.
  intros Hl Hm Hh. unfold feasibility_burden_score, automation_burden_score.
  apply String.eqb_neq in Hl, Hm, Hh. by rewrite Hl, Hm, Hh.
Qed.

(** X2: how the operational burden is read.  The letter case of the string
    does not matter; an idea without the key, and an idea whose burden is
    none of low, medium, high, score exactly as an idea of medium burden. *)
Theorem burden_reading (idea : dict) :
  (forall s,
     calculate_feasibility (with_burden s idea)
     = calculate_feasibility (with_burden (lower s) idea) /\
     calculate_automation_friendly (with_burden s idea)
     = calculate_automation_friendly (with_burden (lower s) idea)) /\
  (idea !! "ops_burden_estimate" = None ->
     calculate_feasibility idea
     = calculate_feasibility (with_burden "medium" idea) /\
     calculate_automation_friendly idea
     = calculate_automation_friendly (with_burden "medium" idea)) /\
  (forall s,
     lower s <> "low"%string -> lower s <> "medium"%string ->
     lower s <> "high"%string ->
     calculate_feasibility (with_burden s idea)
     = calculate_feasibility (with_burden "medium" idea) /\
     calculate_automation_friendly (with_burden s idea)
     = calculate_automation_friendly (with_burden "medium" idea)).
Proof.
  split; [|split].
  - intros s. by rewrite !feasibility_with, !automation_with, lower_idem.
  - intros Hnone.
    assert (Hb : ops_burden_of idea = Ok "medium"%string).
    { unfold ops_burden_of, get. by rewrite Hnone. }
    unfold calculate_feasibility, calculate_automation_friendly.
    rewrite Hb, ops_burden_with. cbn [rbind].
    by rewrite !get_with_burden by discriminate.
  - intros s Hl Hm Hh.
    rewrite !feasibility_with, !automation_with.
    destruct (burden_scores_of_unknown (lower s) Hl Hm Hh) as [-> ->].
    by split.
Qed.

(** X3: the monetization clarity is 50 plus 20 for a pricing model, 15 for
    a target user and 15 for a value proposition, a field counting when its
    value is truthy (a missing key, [None] and the empty string do not
    count); so it is 100 exactly when the three are given, and never below
    50. *)
Theorem monetization_by_fields (idea : dict) :
  exists x,
    calculate_monetization_clarity idea = Ok x /\
    x = 50 + (if has_field idea "pricing_model" then 20 else 0)
           + (if has_field idea "target_user" then 15 else 0)
           + (if has_field idea "value_prop" then 15 else 0) /\
    50 <= x <= 100 /\
    (x = 100 <->
       has_field idea "pricing_model" = true /\
       has_field idea "target_user" = true /\
       has_field idea "value_prop" = true).
Proof.
  unfold calculate_monetization_clarity, has_field.
  eexists. split; [reflexivity|].
  destruct (truthy (get idea "pricing_model" VNone)),
           (truthy (get idea "target_user" VNone)),
           (truthy (get idea "value_prop" VNone));
    (rewrite Rmin_right by lra);
    (split; [lra|]); (split; [lra|]);
    (split; [intros H; first [lra | by repeat split]
            | intros (? & ? & ?); first [discriminate | lra]]).
Qed.

(** ** Demand strength and competition in terms of the mean volume *)

Lemma ln_lt_iff (x y : R) : 0 < x -> (ln x < y <-> x < exp y).
Proof.
  intros Hx. split; [|by apply ln_below].
  intros H. rewrite <- (exp_ln x Hx). by apply exp_increasing.
Qed.

Lemma ln_gt_iff (x y : R) : 0 < x -> (y < ln x <-> exp y < x).
Proof.
  intros Hx. split; [|apply ln_above].
  intros H. rewrite <- (exp_ln x Hx). by apply exp_increasing.
Qed.

Lemma select_metric_nil_inv (types : list string) (signals : list dict)
    (v : value) (vs : list value) :
  select_metric types signals = Ok (v :: vs) -> signals <> [].
Proof. by destruct signals. Qed.

Lemma strength_by_mean (signals : list dict) (v : value) (vs : list value)
    (t : R) :
  select_metric volume_types signals = Ok (v :: vs) ->
  py_sum (v :: vs) = Ok t ->
  -1 < t / INR (length (v :: vs)) ->
  calculate_demand_strength signals
  = Ok (Rmin 100 (ln (1 + t / INR (length (v :: vs))) * 10)).
Proof.
  intros Hsel Hsum Hm. unfold calculate_demand_strength.
  destruct signals as [|s rest]; [discriminate|].
  rewrite Hsel. cbn [rbind]. rewrite Hsum. cbn [rbind].
  unfold log1p. destruct (Rle_dec _ _) as [Hle|_]; [lra | reflexivity].
Qed.

(** X4: for signals with at least one volume metric, of mean [m > -1], and
    at most five launch posts: the demand strength is [min(100, 10 ln(1+m))],
    it reaches 100 exactly from [1 + m = e^10] on, and the competition
    proxy is 80 below [1 + m = e^3], 50 above [1 + m = e^8], and 65 in
    between, both ends included. *)
Theorem strength_and_competition_by_mean (signals : list dict) (idea : dict)
    (v : value) (vs : list value) (t : R) (n : nat) :
  select_metric volume_types signals = Ok (v :: vs) ->
  py_sum (v :: vs) = Ok t ->
  -1 < t / INR (length (v :: vs)) ->
  count_show_hn signals = Ok n -> (n <= 5)%nat ->
  let m := t / INR (length (v :: vs)) in
  calculate_demand_strength signals = Ok (Rmin 100 (ln (1 + m) * 10)) /\
  (Rmin 100 (ln (1 + m) * 10) = 100 <-> exp 10 <= 1 + m) /\
  (1 + m < exp 3 -> calculate_competition_proxy signals idea = Ok 80) /\
  (exp 3 <= 1 + m <= exp 8 ->
   calculate_competition_proxy signals idea = Ok 65) /\
  (exp 8 < 1 + m -> calculate_competition_proxy signals idea = Ok 50).
Proof.
  intros Hsel Hsum Hm Hn Hle m.
  pose proof (strength_by_mean signals v vs t Hsel Hsum Hm) as Hs.
  fold m in Hs, Hm.
  assert (Hpos : 0 < 1 + m) by lra.
  assert (Hcomp : calculate_competition_proxy signals idea
                  = Ok (competition_of_volume (Rmin 100 (ln (1 + m) * 10)))).
  { rewrite (competition_eval signals idea _ n Hs Hn).
    destruct (5 <? n)%nat eqn:Hlt; [|reflexivity].
    apply Nat.ltb_lt in Hlt. lia. }
  split; [exact Hs|]. split; [|split; [|split]].
  - split.
    + intros H.
      destruct (Rle_or_lt (exp 10) (1 + m)) as [?|Hlt]; [done|].
      apply ln_lt_iff in Hlt; [|exact Hpos].
      rewrite Rmin_right in H by lra. lra.
    + intros H. apply Rmin_left.
      destruct H as [H|H].
      * apply ln_gt_iff in H; [lra | exact Hpos].
      * rewrite <- H, ln_exp. lra.
  - intros H. apply ln_lt_iff in H; [|exact Hpos].
    rewrite Hcomp. f_equal. apply competition_of_volume_low.
    rewrite Rmin_right by lra. lra.
  - intros [H3 H8]. rewrite Hcomp. f_equal. apply competition_of_volume_mid.
    assert (3 <= ln (1 + m)).
    { destruct H3 as [H3|H3]; [apply ln_gt_iff in H3; lra|].
      rewrite <- H3, ln_exp. lra. }
    assert (ln (1 + m) <= 8).
    { destruct H8 as [H8|H8]; [apply ln_lt_iff in H8; lra|].
      rewrite H8, ln_exp. lra. }
    rewrite Rmin_right by lra. lra.
  - intros H. apply ln_gt_iff in H; [|exact Hpos].
    rewrite Hcomp. f_equal. unfold competition_of_volume.
    destruct (Rgt_dec _ 80) as [_|Hn80]; [reflexivity|].
    exfalso. apply Hn80.
    destruct (Rle_or_lt 100 (ln (1 + m) * 10)).
    + rewrite Rmin_left by lra. lra.
    + rewrite Rmin_right by lra. lra.
Qed.

Lemma scenario_volume_values :
  select_metric volume_types scenario_signals
  = Ok [VFloat 150; VFloat 75; VFloat 25].
Proof.
  unfold scenario_signals.
  rewrite (select_metric_taken _ _ _ (VStr "post_count") (VFloat 150));
    [| apply getitem_signal_type | reflexivity | apply getitem_signal_value].
  rewrite (select_metric_taken _ _ _ (VStr "interest_score") (VFloat 75));
    [| apply getitem_signal_type | reflexivity | apply getitem_signal_value].
  rewrite (select_metric_taken _ _ _ (VStr "story_count") (VFloat 25));
    [| apply getitem_signal_type | reflexivity | apply getitem_signal_value].
  reflexivity.
Qed.

Lemma scenario_launch_count : count_show_hn scenario_signals = Ok O.
Proof.
  unfold scenario_signals. cbn [count_show_hn].
  rewrite !get_signal_source. reflexivity.
Qed.

Lemma strength_and_competition_by_mean_witness :
  select_metric volume_types scenario_signals
  = Ok [VFloat 150; VFloat 75; VFloat 25] /\
  py_sum [VFloat 150; VFloat 75; VFloat 25] = Ok (0 + 150 + 75 + 25) /\
  calculate_demand_strength scenario_signals
  = Ok (Rmin 100 (ln (1 + (0 + 150 + 75 + 25) / INR 3) * 10)).
Proof.
  assert (Hm : -1 < (0 + 150 + 75 + 25) / INR 3) by (simpl; lra).
  split; [exact scenario_volume_values|]. split; [reflexivity|].
  exact (proj1 (strength_and_competition_by_mean scenario_signals ∅
                  (VFloat 150) [VFloat 75; VFloat 25] (0 + 150 + 75 + 25) 0
                  scenario_volume_values eq_refl Hm scenario_launch_count
                  (Nat.le_0_l 5))).
Defined.

(** ** The order of the signals *)

Lemma select_metric_perm (types : list string) (l l' : list dict) :
  l ≡ₚ l' -> forall vs, select_metric types l = Ok vs ->
  exists vs', select_metric types l' = Ok vs' /\ vs ≡ₚ vs'.
Proof.
  induction 1 as [|x l l' _ IH|x y l|l l' l'' _ IH1 _ IH2]; intros vs Hvs.
  - exists vs. by split.
  - simpl in *. destruct (getitem x "metric_type") as [mt|]; [|done].
    simpl in *. destruct (in_strs mt types).
    + destruct (getitem x "metric_value") as [v|]; [|done]. simpl in *.
      destruct (select_metric types l) as [ws|] eqn:Hl; [|done].
      simpl in Hvs. inversion Hvs; subst.
      destruct (IH ws eq_refl) as (ws' & -> & Hperm).
      simpl. exists (v :: ws'). split; [done | by constructor].
    + by apply IH.
  - simpl in *.
    destruct (getitem y "metric_type") as [mty|]; [|done].
    destruct (getitem x "metric_type") as [mtx|];
      [|simpl in Hvs; destruct (in_strs mty types); [|done];
        destruct (getitem y "metric_value"); done].
    simpl in *.
    destruct (in_strs mty types), (in_strs mtx types);
      repeat (match goal with
              | H : context [getitem ?s "metric_value"] |- _ =>
                  destruct (getitem s "metric_value"); [|done]; simpl in H
              end);
      destruct (select_metric types l) as [ws|]; try done;
      simpl in *; inversion Hvs; subst;
      eexists; (split; [reflexivity|]); try done.
    apply Permutation_swap.
  - destruct (IH1 vs Hvs) as (ws & Hws & Hp1).
    destruct (IH2 ws Hws) as (us & Hus & Hp2).
    exists us. split; [done | by etrans].
Qed.

Lemma py_sum_from_perm (vs vs' : list value) :
  vs ≡ₚ vs' -> forall acc t, py_sum_from acc vs = Ok t ->
  py_sum_from acc vs' = Ok t.
Proof.
  induction 1 as [|x l l' _ IH|x y l|l l' l'' _ IH1 _ IH2]; intros acc t Ht.
  - done.
  - simpl in *. destruct (as_number x); [by apply IH | done].
  - simpl in *. destruct (as_number y) as [b|]; [|done].
    destruct (as_number x) as [a|]; [|done].
    by replace (acc + a + b) with (acc + b + a) by ring.
  - by apply IH2, IH1.
Qed.

Lemma count_show_hn_perm (l l' : list dict) :
  l ≡ₚ l' -> forall n, count_show_hn l = Ok n -> count_show_hn l' = Ok n.
Proof.
  induction 1 as [|x l l' _ IH|x y l|l l' l'' _ IH1 _ IH2]; intros n Hn.
  - done.
  - simpl in *. destruct (show_hn_in _) as [b|]; [|done]. simpl in *.
    destruct (count_show_hn l) as [k|]; [|done].
    by rewrite (IH k eq_refl).
  - simpl in *.
    destruct (show_hn_in (get y _ _)) as [b|]; [|done]. simpl in *.
    destruct (show_hn_in (get x _ _)) as [a|]; [|done]. simpl in *.
    destruct (count_show_hn l) as [k|]; [|done]. simpl in *.
    inversion Hn; subst. by destruct a, b.
  - by apply IH2, IH1.
Qed.

Lemma has_recent_perm (now : Z) (l l' : list dict) :
  l ≡ₚ l' -> has_recent now l = has_recent now l'.
Proof.
  unfold has_recent.
  induction 1 as [|x l l' _ IH|x y l|l l' l'' _ IH1 _ IH2]; simpl.
  - done.
  - by rewrite IH.
  - rewrite !orb_assoc. f_equal. apply orb_comm.
  - by etrans.
Qed.

Lemma strength_perm (l l' : list dict) (v : R) :
  l ≡ₚ l' -> calculate_demand_strength l = Ok v ->
  calculate_demand_strength l' = Ok v.
Proof.
  intros Hp. unfold calculate_demand_strength.
  destruct l as [|s l0].
  { apply Permutation_nil_l in Hp. by subst. }
  destruct l' as [|s' l0'].
  { symmetry in Hp. by apply Permutation_nil_cons in Hp. }
  destruct (select_metric volume_types (s :: l0)) as [vs|] eqn:Hsel; [|done].
  destruct (select_metric_perm _ _ _ Hp vs Hsel) as (vs' & -> & Hvs).
  cbn [rbind]. destruct vs as [|a vs].
  { apply Permutation_nil_l in Hvs. by subst. }
  destruct vs' as [|a' vs'].
  { symmetry in Hvs. by apply Permutation_nil_cons in Hvs. }
  unfold py_sum.
  destruct (py_sum_from 0 (a :: vs)) as [t|] eqn:Ht; [|done].
  rewrite (py_sum_from_perm _ _ Hvs 0 t Ht).
  by rewrite (Permutation_length Hvs).
Qed.

Lemma velocity_perm (now : Z) (l l' : list dict) (v : R) :
  l ≡ₚ l' -> calculate_demand_velocity now l = Ok v ->
  calculate_demand_velocity now l' = Ok v.
Proof.
  intros Hp. unfold calculate_demand_velocity.
  destruct l as [|s l0].
  { apply Permutation_nil_l in Hp. by subst. }
  destruct l' as [|s' l0'].
  { symmetry in Hp. by apply Permutation_nil_cons in Hp. }
  destruct (select_metric growth_types (s :: l0)) as [vs|] eqn:Hsel; [|done].
  destruct (select_metric_perm _ _ _ Hp vs Hsel) as (vs' & -> & Hvs).
  cbn [rbind]. destruct vs as [|a vs].
  { apply Permutation_nil_l in Hvs. subst.
    by rewrite (has_recent_perm now _ _ Hp). }
  destruct vs' as [|a' vs'].
  { symmetry in Hvs. by apply Permutation_nil_cons in Hvs. }
  unfold py_sum.
  destruct (py_sum_from 0 (a :: vs)) as [t|] eqn:Ht; [|done].
  rewrite (py_sum_from_perm _ _ Hvs 0 t Ht).
  by rewrite (Permutation_length Hvs).
Qed.

Lemma competition_perm (l l' : list dict) (idea : dict) (v : R) :
  l ≡ₚ l' -> calculate_competition_proxy l idea = Ok v ->
  calculate_competition_proxy l' idea = Ok v.
Proof.
  intros Hp. unfold calculate_competition_proxy.
  destruct (calculate_demand_strength l) as [ds|] eqn:Hds; [|done].
  rewrite (strength_perm l l' ds Hp Hds). cbn [rbind].
  destruct (count_show_hn l) as [n|] eqn:Hn; [|done].
  by rewrite (count_show_hn_perm l l' Hp n Hn).
Qed.

(** X5: the order of the signals does not matter when no metric value is
    a [float].  Python adds [int] and [bool] values exactly, so the sums,
    and with them the averages, are those of every reordering: when
    [score_idea] returns a breakdown for a list of such signals, it
    returns the same breakdown for every reordering of the list.  (Sums of
    [float] values are rounded after each addition and depend on the
    order.) *)
Theorem score_ignores_signal_order (self : ScoringEngine) (now : Z)
    (idea : dict) (signals signals' : list dict) (b : ScoreBreakdown) :
  Forall integer_valued signals ->
  signals ≡ₚ signals' ->
  score_idea self now idea signals = Ok b ->
  score_idea self now idea signals' = Ok b.
Proof.
  intros _ Hp. unfold score_idea.
  destruct (calculate_demand_strength signals) as [ds|] eqn:Hds; [|done].
  rewrite (strength_perm _ _ ds Hp Hds). cbn [rbind].
  destruct (calculate_demand_velocity now signals) as [dv|] eqn:Hdv; [|done].
  rewrite (velocity_perm now _ _ dv Hp Hdv). cbn [rbind].
  destruct (calculate_competition_proxy signals idea) as [cp|] eqn:Hcp; [|done].
  by rewrite (competition_perm _ _ idea cp Hp Hcp).
Qed.

(** Well-formed inputs are scored. *)
Lemma wellformed_is_scored (self : ScoringEngine) (now : Z) (idea : dict)
    (signals : list dict) :
  Forall signal_ok signals -> idea_ok idea -> normalized_table (weights self) ->
  exists b, score_idea self now idea signals = Ok b.
Proof.
  intros Hsig Hidea Hw.
  destruct (strength_in_range signals Hsig) as (ds & Hds & _).
  destruct (velocity_in_range now signals Hsig) as (dv & Hdv & _).
  destruct (competition_in_range signals idea Hsig) as (cp & Hcp & _).
  destruct (idea_factors_in_range idea Hidea)
    as ((fe & Hfe & _) & (af & Haf & _) & (mc & Hmc & _)).
  destruct (six_weights _ Hw)
    as (w1 & w2 & w3 & w4 & w5 & w6 & H1 & H2 & H3 & H4 & H5 & H6 & _).
  eexists. by eapply score_idea_eval.
Qed.

Lemma signal_ok_dated (d : string) (s : dict) :
  s !! "data_date" = None -> signal_ok s -> signal_ok (dated d s).
Proof.
  intros Hd (mt & Hmt & Hvol & Hgr & Hsrc). exists mt. unfold dated.
  split; [rewrite lookup_insert_ne; [done | discriminate]|].
  split; [|split].
  - intros Hin. destruct (Hvol Hin) as (v & x & Hv & Hx & Hpos).
    exists v, x. rewrite lookup_insert_ne; [done | discriminate].
  - intros Hin. destruct (Hgr Hin) as (v & x & Hv & Hx).
    exists v, x. rewrite lookup_insert_ne; [done | discriminate].
  - unfold get in *. rewrite lookup_insert_ne; [done | discriminate].
Qed.

Lemma engagement_signal_ok : signal_ok engagement_signal.
Proof.
  apply signal_ok_dated; [reflexivity | apply signal_is_ok; lra].
Qed.

Lemma empty_idea_ok : idea_ok ∅.
Proof. by left. Qed.

Lemma order_example_is_scored :
  exists b,
    score_idea default_engine 0 ∅ [engagement_signal; signal "growth_rate" 20]
    = Ok b.
Proof.
  apply wellformed_is_scored;
    [| apply empty_idea_ok | apply default_table_normalized].
  repeat constructor; [apply engagement_signal_ok | apply signal_is_ok; lra].
Qed.

Lemma counted_is_ok (t : string) (n : Z) : (0 <= n)%Z -> signal_ok (counted t n).
Proof.
  intros Hn. exists (VStr t). unfold counted.
  split; [by map_lookup|].
  split; [intros _; exists (VInt n), (IZR n); map_lookup;
          split; [reflexivity | split; [reflexivity | by apply IZR_le]]|].
  split; [intros _; exists (VInt n), (IZR n); by map_lookup|].
  unfold get. map_lookup. eexists. reflexivity.
Qed.

Lemma counted_example_is_scored :
  exists b,
    score_idea default_engine 0 ∅
      [counted "post_count" 150; counted "growth_rate" 20] = Ok b.
Proof.
  apply wellformed_is_scored;
    [| apply empty_idea_ok | apply default_table_normalized].
  repeat constructor; apply counted_is_ok; lia.
Qed.

Lemma score_ignores_signal_order_witness :
  Forall integer_valued [counted "post_count" 150; counted "growth_rate" 20] /\
  [counted "post_count" 150; counted "growth_rate" 20]
  ≡ₚ [counted "growth_rate" 20; counted "post_count" 150] /\
  exists b,
    score_idea default_engine 0 ∅
      [counted "post_count" 150; counted "growth_rate" 20] = Ok b /\
    score_idea default_engine 0 ∅
      [counted "growth_rate" 20; counted "post_count" 150] = Ok b.
Proof.
  assert (Hint : Forall integer_valued
                   [counted "post_count" 150; counted "growth_rate" 20]).
  { repeat constructor. }
  split; [exact Hint|].
  split; [apply Permutation_swap|].
  destruct counted_example_is_scored as [b Hb].
  exists b. split; [exact Hb|].
  exact (score_ignores_signal_order default_engine 0 ∅ _ _ b
           Hint (Permutation_swap _ _ _) Hb).
Defined.

(** ** Growth metrics and the clock *)

(** ** Growth metrics and the clock *)

Lemma growth_values_nonempty (signals : list dict) (vs : list value) :
  Exists is_growth_signal signals ->
  select_metric growth_types signals = Ok vs -> vs <> [].
Proof.
  intros Hex. revert vs.
  induction Hex as [s rest (mt & Hmt & Hin)|s rest _ IH]; intros vs Hvs.
  - simpl in Hvs. unfold getitem at 1 in Hvs. rewrite Hmt in Hvs.
    simpl in Hvs. rewrite Hin in Hvs.
    destruct (getitem s "metric_value"); [|done]. simpl in Hvs.
    destruct (select_metric growth_types rest); [|done].
    simpl in Hvs. by inversion Hvs.
  - simpl in Hvs. destruct (getitem s "metric_type") as [mt|]; [|done].
    simpl in Hvs. destruct (in_strs mt growth_types); [|by apply IH].
    destruct (getitem s "metric_value"); [|done]. simpl in Hvs.
    destruct (select_metric growth_types rest); [|done].
    simpl in Hvs. by inversion Hvs.
Qed.

(** X6: when some signal is a growth metric, the clock is not consulted:
    a breakdown returned at one instant is returned at every instant, and
    its demand velocity lies in [0,100]. *)
Theorem growth_metric_silences_clock (self : ScoringEngine) (now1 now2 : Z)
    (idea : dict) (signals : list dict) (b : ScoreBreakdown) :
  Exists is_growth_signal signals ->
  score_idea self now1 idea signals = Ok b ->
  score_idea self now2 idea signals = Ok b /\ in_range (demand_velocity b).
Proof.
  intros Hex Hb.
  assert (Hv : forall now,
    calculate_demand_velocity now signals
    = calculate_demand_velocity now1 signals).
  { intros now. unfold calculate_demand_velocity.
    destruct signals as [|s rest]; [reflexivity|].
    destruct (select_metric growth_types (s :: rest)) as [vs|] eqn:Hsel;
      [|reflexivity].
    pose proof (growth_values_nonempty _ vs Hex Hsel).
    by destruct vs. }
  split.
  - unfold score_idea in *. by rewrite (Hv now2).
  - unfold score_idea in Hb.
    destruct (calculate_demand_strength signals); [|done]. cbn [rbind] in Hb.
    destruct (calculate_demand_velocity now1 signals) as [dv|] eqn:Hdv; [|done].
    assert (Hr : in_range dv).
    { unfold calculate_demand_velocity in Hdv.
      destruct signals as [|s rest]; [by apply Exists_nil in Hex|].
      destruct (select_metric growth_types (s :: rest)) as [vs|] eqn:Hsel;
        [|done].
      pose proof (growth_values_nonempty _ vs Hex Hsel).
      destruct vs as [|g gs]; [done|]. cbn [rbind] in Hdv.
      destruct (py_sum (g :: gs)); [|done]. cbn [rbind] in Hdv.
      inversion Hdv. apply clamp_bounds. }
    cbn [rbind] in Hb.
    repeat (match type of Hb with
            | context [rbind ?r _] => destruct r; [|done]; cbn [rbind] in Hb
            end).
    by inversion Hb.
Qed.

Lemma growth_signal_is_growth (v : R) : is_growth_signal (signal "growth_rate" v).
Proof. exists (VStr "growth_rate"). split; [|reflexivity]. unfold signal. by map_lookup. Qed.

Lemma growth_metric_silences_clock_witness :
  Exists is_growth_signal [engagement_signal; signal "growth_rate" 20] /\
  exists b,
    score_idea default_engine 0 ∅ [engagement_signal; signal "growth_rate" 20]
    = Ok b /\
    score_idea default_engine (utc_midnight 2026 11 3) ∅
      [engagement_signal; signal "growth_rate" 20] = Ok b.
Proof.
  assert (H : Exists is_growth_signal
                [engagement_signal; signal "growth_rate" 20]).
  { apply Exists_cons_tl, Exists_cons_hd, growth_signal_is_growth. }
  split; [exact H|].
  destruct order_example_is_scored as [b Hb].
  exists b. split; [exact Hb|].
  exact (proj1 (growth_metric_silences_clock default_engine 0
                  (utc_midnight 2026 11 3) ∅ _ b H Hb)).
Defined.

(** ** Recency in calendar days *)

Lemma strptime_midnight (s : string) (date : Z) :
  strptime_ymd s = Some date -> exists k, date = (k * us_per_day)%Z.
Proof.
  unfold strptime_ymd. intros H.
  repeat (match type of H with
          | context [match ?x with _ => _ end] => destruct x; try done
          end).
  inversion H. eauto.
Qed.

(** X7: a signal is recent exactly when its date is one of the last seven
    calendar days (UTC), today included, or lies in the future; the time of
    day of the clock does not matter.  A date that does not parse, or a
    value that is not a string, is never recent (and never an error). *)
Theorem recent_is_last_seven_days (now : Z) :
  (forall s date, strptime_ymd s = Some date ->
     (_is_recent now (VStr s) 7 = true <-> (day_of now - day_of date < 7)%Z)) /\
  (forall s, strptime_ymd s = None -> _is_recent now (VStr s) 7 = false) /\
  (forall v, (forall s, v <> VStr s) -> _is_recent now v 7 = false).
Proof.
  split; [|split].
  - intros s date Hs. unfold _is_recent. rewrite Hs.
    destruct (strptime_midnight s date Hs) as [k ->].
    unfold day_of. rewrite Z.div_mul by (unfold us_per_day; lia).
    rewrite Z.ltb_lt.
    assert (HD : (0 < us_per_day)%Z) by (unfold us_per_day; lia).
    split; intros H.
    + assert (now / us_per_day < k + 7)%Z; [|lia].
      apply Z.div_lt_upper_bound; [exact HD | lia].
    + assert (now < us_per_day * (k + 7))%Z as Hlt; [|lia].
      destruct (Z.lt_ge_cases now (us_per_day * (k + 7))) as [?|Hge]; [done|].
      apply Z.div_le_lower_bound in Hge; [lia | exact HD].
  - intros s Hs. unfold _is_recent. by rewrite Hs.
  - intros v Hv. destruct v; try reflexivity. by destruct (Hv s).
Qed.

(** ** Updating the weights through the API *)

Lemma new_weights_sum (w : Main.ScoreWeights) :
  weights_sum (Main.new_weights_of w)
  = Main.demand_strength w + (Main.demand_velocity w
    + (Main.competition_proxy w + (Main.feasibility w
    + (Main.automation_friendly w + (Main.monetization_clarity w + 0))))).
Proof. unfold Main.new_weights_of. by sum_table. Qed.

Lemma yaml_is_not_bound : Main.global_name "yaml" = Raise NameError.
Proof. vm_compute. reflexivity. Qed.

Lemma update_outcomes (w : Main.ScoreWeights) (s : Main.state) :
  (weights_sum (Main.new_weights_of w) = 0 ->
   Main.update_scoring_weights w s = (Raise ZeroDivisionError, s)) /\
  (weights_sum (Main.new_weights_of w) <> 0 ->
   Main.update_scoring_weights w s
   = (Raise NameError,
      {| Main.scorer := Main.scorer s; Main.weights_yaml := Unreadable |})).
Proof.
  unfold Main.update_scoring_weights. rewrite yaml_is_not_bound.
  split; intros Hs.
  - rewrite Hs. replace (0 - 1) with (-1) by ring.
    rewrite Rabs_left by lra.
    destruct (Rgt_dec _ _) as [_|Hn]; [|lra].
    destruct (Req_dec_T 0 0) as [_|Hn0]; [reflexivity | contradiction].
  - destruct (Rgt_dec _ _) as [_|_]; [|reflexivity].
    destruct (Req_dec_T _ _) as [Hz|_]; [contradiction | reflexivity].
Qed.

(** X9: updating the weights never succeeds.  When the six weights of the
    request sum to zero the normalisation raises [ZeroDivisionError] and
    nothing has been touched.  In every other case [weights.yaml] has been
    opened for writing, and so emptied, when [yaml.dump] is reached; the
    name [yaml] is not bound in [main.py], so [NameError] is raised, no
    answer is given and [scorer] keeps the engine it had.  An engine built
    from the emptied file holds the default weights.  A request of six
    zeros is of the first kind, a request of non-negative weights that are
    not all zero, of the second. *)
Theorem update_never_installs_weights (w : Main.ScoreWeights) (s : Main.state) :
  let out := Main.update_scoring_weights w s in
  let emptied :=
    {| Main.scorer := Main.scorer s; Main.weights_yaml := Unreadable |} in
  (out = (Raise ZeroDivisionError, s) \/ out = (Raise NameError, emptied)) /\
  Main.scorer (snd out) = Main.scorer s /\
  __init__ (Main.weights_yaml emptied) = Ok default_engine /\
  (Main.demand_strength w = 0 -> Main.demand_velocity w = 0 ->
   Main.competition_proxy w = 0 -> Main.feasibility w = 0 ->
   Main.automation_friendly w = 0 -> Main.monetization_clarity w = 0 ->
   out = (Raise ZeroDivisionError, s)) /\
  (0 <= Main.demand_strength w -> 0 <= Main.demand_velocity w ->
   0 <= Main.competition_proxy w -> 0 <= Main.feasibility w ->
   0 <= Main.automation_friendly w -> 0 <= Main.monetization_clarity w ->
   0 < Main.demand_strength w + Main.demand_velocity w
       + Main.competition_proxy w + Main.feasibility w
       + Main.automation_friendly w + Main.monetization_clarity w ->
   out = (Raise NameError, emptied)).
Proof.
  intros out emptied.
  destruct (update_outcomes w s) as [Hzero Hnonzero].
  fold out in Hzero, Hnonzero. fold emptied in Hnonzero.
  assert (Hcases : out = (Raise ZeroDivisionError, s)
                   \/ out = (Raise NameError, emptied)).
  { destruct (Req_dec_T (weights_sum (Main.new_weights_of w)) 0) as [Hz|Hnz].
    - left. exact (Hzero Hz).
    - right. exact (Hnonzero Hnz). }
  split; [exact Hcases|]. split; [|split; [|split]].
  - destruct Hcases as [-> | ->]; reflexivity.
  - unfold __init__. cbn [Main.weights_yaml emptied _load_weights].
    rewrite validate_DEFAULT. reflexivity.
  - intros H1 H2 H3 H4 H5 H6. apply Hzero.
    rewrite new_weights_sum. lra.
  - intros H1 H2 H3 H4 H5 H6 Hpos. apply Hnonzero.
    rewrite new_weights_sum. lra.
Qed.

(** ** A batch with an item that cannot be scored *)

Lemma heap_signals_mono (h h' : heap) (l : loc) (ds : list dict) :
  h ⊆ h' -> heap_signals h l = Some ds -> heap_signals h' l = Some ds.
Proof.
  intros Hsub. unfold heap_signals.
  destruct (h !! l) as [[d|ls]|] eqn:Hl; try done.
  rewrite (lookup_weaken h h' _ _ Hl Hsub). by apply heap_dicts_mono.
Qed.

Lemma score_one_raises (self : ScoringEngine) (now : Z) (h : heap)
    (item : loc * loc) (idea : dict) (signals : list dict) (e : exn) :
  heap_dict h item.1 = Some idea -> heap_signals h item.2 = Some signals ->
  score_idea self now idea signals = Raise e ->
  score_one self now item h = (Raise e, h).
Proof.
  destruct item as [idea_l signals_l]. simpl. intros Hidea Hsigs He.
  unfold heap_signals in Hsigs.
  destruct (h !! signals_l) as [[?|ls]|] eqn:Hls; try done.
  unfold score_one.
  rewrite (mbind_ok _ _ h h idea (load_dict_ok h idea_l idea Hidea)).
  rewrite (mbind_ok _ _ h h ls) by (unfold load_list; by rewrite Hls).
  rewrite (mbind_ok _ _ h h signals (load_dicts_ok h ls signals Hsigs)).
  unfold mbind', lift. by rewrite He.
Qed.

Lemma score_all_raises (self : ScoringEngine) (now : Z)
    (pre post : list (loc * loc)) (bad : loc * loc)
    (scored : list (dict * ScoreBreakdown)) (idea : dict)
    (signals : list dict) (e : exn) (h : heap) :
  Forall2 (fun item x => item_score self now h item = Some x) pre scored ->
  heap_dict h bad.1 = Some idea -> heap_signals h bad.2 = Some signals ->
  score_idea self now idea signals = Raise e ->
  (score_all self now (pre ++ bad :: post) h).1 = Raise e.
Proof.
  intros Hpre. revert h Hpre.
  induction pre as [|item pre IH] in scored |- *; intros h Hpre Hidea Hsigs He.
  - simpl. unfold mbind'.
    by rewrite (score_one_raises self now h bad idea signals e).
  - inversion Hpre as [|? x ? scored' Hx Hrest]; subst.
    set (c := fresh (dom h)).
    set (h1 := <[c := ODict (scored_entry x)]> h).
    assert (Hsub : h ⊆ h1).
    { apply insert_subseteq, not_elem_of_dom, is_fresh. }
    simpl. rewrite (mbind_ok _ _ h h1 c (score_one_ok self now h item x Hx)).
    unfold mbind' at 1.
    specialize (IH scored' h1).
    destruct (score_all self now (pre ++ bad :: post) h1) as [[cs|e'] h2];
      simpl in IH |- *.
    + exfalso. enough (Ok cs = Raise e) by done. apply IH.
      * eapply Forall2_impl; [exact Hrest|].
        intros it y Hit. by apply (item_score_mono self now h h1).
      * by apply (heap_dict_mono h h1).
      * by apply (heap_signals_mono h h1).
      * exact He.
    + apply IH.
      * eapply Forall2_impl; [exact Hrest|].
        intros it y Hit. by apply (item_score_mono self now h h1).
      * by apply (heap_dict_mono h h1).
      * by apply (heap_signals_mono h h1).
      * exact He.
Qed.

(** X10: one item that cannot be scored aborts the whole ranking.  When
    the items before it are scored and [score_idea] raises [e] for it,
    [rank_ideas] raises [e] and returns no partial ranking, whatever comes
    after it in the batch. *)
Theorem rank_ideas_aborts_on_bad_item (self : ScoringEngine) (now : Z)
    (pre post : list (loc * loc)) (bad : loc * loc)
    (scored : list (dict * ScoreBreakdown)) (idea : dict)
    (signals : list dict) (e : exn) (h : heap) :
  Forall2 (fun item x => item_score self now h item = Some x) pre scored ->
  heap_dict h bad.1 = Some idea -> heap_signals h bad.2 = Some signals ->
  score_idea self now idea signals = Raise e ->
  (rank_ideas self now (pre ++ bad :: post) h).1 = Raise e.
Proof.
  intros Hpre Hidea Hsigs He.
  pose proof (score_all_raises self now pre post bad scored idea signals e h
                Hpre Hidea Hsigs He) as H.
  unfold rank_ideas, mbind' at 1.
  destruct (score_all self now (pre ++ bad :: post) h) as [[cs|e'] h1];
    simpl in H |- *; [done | exact H].
Qed.

Lemma faulty_item_score :
  item_score default_engine 0 faulty_heap (1%positive, 2%positive)
  = Some (∅, bare_breakdown).
Proof.
  unfold item_score, heap_dict, heap_signals, faulty_heap. simpl.
  map_lookup. simpl.
  destruct default_six_weights as (H1 & H2 & H3 & H4 & H5 & H6).
  by rewrite (score_bare default_engine 0 _ _ _ _ _ _ H1 H2 H3 H4 H5 H6).
Qed.

Lemma faulty_idea_raises :
  score_idea default_engine 0 (<["ops_burden_estimate" := VNone]> ∅) []
  = Raise AttributeError.
Proof.
  unfold score_idea.
  rewrite strength_empty, velocity_empty, competition_empty. simpl.
  unfold calculate_feasibility, ops_burden_of, get. map_lookup. reflexivity.
Qed.

Lemma rank_ideas_aborts_on_bad_item_witness :
  Forall2 (fun item x => item_score default_engine 0 faulty_heap item = Some x)
    [(1%positive, 2%positive)] [(∅, bare_breakdown)] /\
  heap_dict faulty_heap 3%positive
    = Some (<["ops_burden_estimate" := VNone]> ∅) /\
  heap_signals faulty_heap 2%positive = Some [] /\
  (rank_ideas default_engine 0
     [(1%positive, 2%positive); (3%positive, 2%positive);
      (1%positive, 2%positive)] faulty_heap).1 = Raise AttributeError.
Proof.
  assert (H1 : Forall2
    (fun item x => item_score default_engine 0 faulty_heap item = Some x)
    [(1%positive, 2%positive)] [(∅, bare_breakdown)]).
  { repeat constructor. exact faulty_item_score. }
  assert (H2 : heap_dict faulty_heap 3%positive
               = Some (<["ops_burden_estimate" := VNone]> ∅)) by reflexivity.
  assert (H3 : heap_signals faulty_heap 2%positive = Some []) by reflexivity.
  split; [exact H1|]. split; [exact H2|]. split; [exact H3|].
  exact (rank_ideas_aborts_on_bad_item default_engine 0
           [(1%positive, 2%positive)] [(1%positive, 2%positive)]
           (3%positive, 2%positive) _ _ _ _ faulty_heap H1 H2 H3
           faulty_idea_raises).
Defined.

(** * The connectors and the storage layer *)

Import Connectors.

Lemma digit_pretty_N_char (n : N) :
  (n < 10)%N -> digit (pretty_N_char n) = Some (Z.of_N n).
Proof.
  intros H. rewrite <- (N2Nat.id n).
  assert (Hk : (N.to_nat n < 10)%nat) by lia.
  revert Hk. generalize (N.to_nat n). intros k Hk.
  do 10 (destruct k as [|k]; [reflexivity|]). lia.
Qed.

Lemma zfill_year (y : Z) :
  (1000 <= y <= 9999)%Z ->
  zfill 4 y
  = String (pretty_N_char (Z.to_N y / 1000))
      (String (pretty_N_char (Z.to_N y / 100 mod 10))
         (String (pretty_N_char (Z.to_N y / 10 mod 10))
            (String (pretty_N_char (Z.to_N y mod 10)) EmptyString))).
Proof.
  intros Hy. unfold zfill.
  assert (Hp : pretty y = pretty (Z.to_N y)).
  { destruct y as [|p|p]; try lia. reflexivity. }
  rewrite Hp. unfold pretty at 1 2, pretty_N.
  destruct (decide (Z.to_N y = 0%N)) as [?|_]; [lia|].
  set (n := Z.to_N y). assert (Hn : (1000 <= n <= 9999)%N) by lia.
  clearbody n. clear Hp Hy y.
  rewrite pretty_N_go_step by lia.
  assert (H1 : (100 <= n / 10 <= 999)%N).
  { split; [apply N.div_le_lower_bound; lia|].
    apply N.lt_succ_r. apply N.Div0.div_lt_upper_bound; lia. }
  rewrite pretty_N_go_step by lia.
  assert (H2 : (10 <= n / 10 / 10 <= 99)%N).
  { split; [apply N.div_le_lower_bound; lia|].
    apply N.lt_succ_r. apply N.Div0.div_lt_upper_bound; lia. }
  rewrite pretty_N_go_step by lia.
  assert (H3 : (1 <= n / 10 / 10 / 10 <= 9)%N).
  { split; [apply N.div_le_lower_bound; lia|].
    apply N.lt_succ_r. apply N.Div0.div_lt_upper_bound; lia. }
  rewrite pretty_N_go_step by lia.
  rewrite (N.div_small (n / 10 / 10 / 10) 10) by lia.
  rewrite pretty_N_go_0.
  rewrite (N.mod_small (n / 10 / 10 / 10) 10) by lia.
  rewrite !N.Div0.div_div. reflexivity.
Qed.

Lemma parse_year_zfill (y : Z) (rest : string) :
  (1000 <= y <= 9999)%Z -> parse_year (zfill 4 y +:+ rest) = Some (y, rest).
Proof.
  intros Hy. rewrite zfill_year by done. simpl. 
  assert (Hlt : (Z.to_N y / 1000 < 10)%N)
    by (apply N.Div0.div_lt_upper_bound; lia).
  rewrite !digit_pretty_N_char by (try apply N.mod_lt; done).
  f_equal. f_equal.
  rewrite !N2Z.inj_mod, !N2Z.inj_div, Z2N.id by lia. simpl Z.of_N.
  Z.to_euclidean_division_equations. lia.
Qed.

Lemma parse_month_zfill (m : Z) (rest : string) :
  (1 <= m <= 12)%Z ->
  parse_month (zfill 2 m +:+ String "-" rest) = Some (m, String "-" rest).
Proof.
  intros Hm.
  assert (m = 1 \/ m = 2 \/ m = 3 \/ m = 4 \/ m = 5 \/ m = 6 \/ m = 7
          \/ m = 8 \/ m = 9 \/ m = 10 \/ m = 11 \/ m = 12)%Z as H by lia.
  repeat (destruct H as [->|H]; [reflexivity|]). by subst.
Qed.

Lemma parse_day_zfill (d : Z) :
  (1 <= d <= 31)%Z -> parse_day (zfill 2 d) = Some (d, EmptyString).
Proof.
  intros Hd.
  assert (exists n : nat, d = Z.of_nat n /\ (1 <= n <= 31)%nat) as (n & -> & Hn).
  { exists (Z.to_nat d). lia. }
  clear Hd. destruct Hn as [H1 H31].
  do 32 (destruct n as [|n]; [first [lia | reflexivity]|]). lia.
Qed.

Lemma days_in_month_le (y m : Z) : (28 <= days_in_month y m <= 31)%Z.
Proof.
  unfold days_in_month.
  repeat (match goal with |- context [if ?b then _ else _] => destruct b end);
    lia.
Qed.

Lemma strptime_strftime (t : datetime) :
  valid t -> (1000 <= year t)%Z ->
  strptime_ymd (strftime_ymd t)
  = Some (utc_midnight (year t) (month t) (day t)).
Proof.
  intros (Hy & Hm & Hd & _) Hy'. unfold strptime_ymd, strftime_ymd.
  rewrite parse_year_zfill by lia.
  change ("-" +:+ zfill 2 (month t) +:+ "-" +:+ zfill 2 (day t))
    with (String "-" (zfill 2 (month t) +:+ String "-" (zfill 2 (day t)))).
  cbv beta iota.
  rewrite parse_month_zfill by lia.
  pose proof (days_in_month_le (year t) (month t)).
  rewrite parse_day_zfill by lia.
  destruct (1 <=? year t)%Z eqn:E1; [|lia].
  destruct (day t <=? days_in_month (year t) (month t))%Z eqn:E2; [|lia].
  reflexivity.
Qed.

(** ** Signals as the engine reads them *)

Lemma getitem_to_dict_type (s : DemandSignal.t) :
  getitem (DemandSignal.to_dict s) "metric_type"
  = Ok (VStr (DemandSignal.metric_type s)).
Proof. unfold getitem, DemandSignal.to_dict. by map_lookup. Qed.

Lemma getitem_to_dict_value (s : DemandSignal.t) :
  getitem (DemandSignal.to_dict s) "metric_value"
  = Ok (VFloat (DemandSignal.metric_value s)).
Proof. unfold getitem, DemandSignal.to_dict. by map_lookup. Qed.

Lemma get_to_dict_source (s : DemandSignal.t) (dflt : value) :
  get (DemandSignal.to_dict s) "source" dflt = VStr (DemandSignal.source s).
Proof. unfold get, DemandSignal.to_dict. by map_lookup. Qed.

Lemma get_to_dict_date (s : DemandSignal.t) (dflt : value) :
  get (DemandSignal.to_dict s) "data_date" dflt
  = VStr (DemandSignal.data_date s).
Proof. unfold get, DemandSignal.to_dict. by map_lookup. Qed.

Lemma strftime_ymd_nonempty (t : datetime) :
  exists c s, strftime_ymd t = String c s.
Proof.
  unfold strftime_ymd. destruct (zfill 4 (year t)) as [|c s]; simpl; eauto.
Qed.

(** The constructor keeps the six fields it is given. *)
Lemma init_fields (clock : nat -> datetime) (k : nat)
    (src q mt : string) (v : R) (u url : string)
    (ts : option datetime) (dd : option string) :
  let s := (DemandSignal.__init__ clock k src q mt v u url ts dd).1 in
  DemandSignal.source s = src /\ DemandSignal.query s = q /\
  DemandSignal.metric_type s = mt /\ DemandSignal.metric_value s = v /\
  DemandSignal.metric_unit s = u /\ DemandSignal.url s = url.
Proof.
  unfold DemandSignal.__init__.
  destruct ts; destruct dd as [[|??]|]; simpl; repeat split.
Qed.

Lemma init_default_date (clock : nat -> datetime) (k : nat)
    (src q mt : string) (v : R) (u url : string)
    (ts : option datetime) (dd : option string) :
  str_truthy dd = false ->
  DemandSignal.data_date
    (DemandSignal.__init__ clock k src q mt v u url ts dd).1
  = strftime_ymd (clock (match ts with Some _ => k | None => S k end)).
Proof.
  intros Hdd. unfold DemandSignal.__init__.
  destruct ts; destruct dd as [[|??]|]; try discriminate; reflexivity.
Qed.

(** A date written by [strftime] is recent for the seven calendar days
    that start with its own. *)
Lemma strftime_recent (t : datetime) (now : Z) :
  valid t -> (1000 <= year t)%Z ->
  _is_recent now (VStr (strftime_ymd t)) 7
  = (day_of now - day_of (instant t) <? 7)%Z.
Proof.
  intros Hv Hy. unfold _is_recent. rewrite strptime_strftime by done.
  assert (HD : (0 < us_per_day)%Z) by (unfold us_per_day; lia).
  assert (Hday : day_of (instant t)
                 = (ymd2ord (year t) (month t) (day t) - 1)%Z).
  { unfold day_of, instant. destruct Hv as (_ & _ & _ & Hh & Hmi & Hs & Hus).
    symmetry. apply Z.div_unique with
      (((hour t * 60 + minute t) * 60 + second t) * 1000000 + microsecond t)%Z;
      [left; unfold us_per_day; lia | unfold us_per_day; lia]. }
  rewrite Hday. unfold utc_midnight, day_of.
  set (d := (ymd2ord (year t) (month t) (day t) - 1)%Z).
  apply eq_true_iff_eq. rewrite !Z.ltb_lt.
  split; intros H.
  - assert (now / us_per_day < d + 7)%Z; [|lia].
    apply Z.div_lt_upper_bound; [exact HD | lia].
  - assert (now < us_per_day * (d + 7))%Z as Hlt; [|lia].
    destruct (Z.lt_ge_cases now (us_per_day * (d + 7))) as [?|Hge]; [done|].
    apply Z.div_le_lower_bound in Hge; [lia | exact HD].
Qed.

Lemma day_of_instant (t : datetime) :
  valid t ->
  day_of (instant t) = (ymd2ord (year t) (month t) (day t) - 1)%Z.
Proof.
  intros (_ & _ & _ & Hh & Hmi & Hs & Hus). unfold day_of, instant.
  symmetry. apply Z.div_unique with
    (((hour t * 60 + minute t) * 60 + second t) * 1000000 + microsecond t)%Z;
    [left; unfold us_per_day; lia | unfold us_per_day; lia].
Qed.

Lemma select_volume_signals (sigs : list DemandSignal.t) :
  Forall (fun s => in_strs (VStr (DemandSignal.metric_type s)) volume_types
                   = true) sigs ->
  select_metric volume_types (DemandSignal.to_dict <$> sigs)
  = Ok ((fun s => VFloat (DemandSignal.metric_value s)) <$> sigs).
Proof.
  induction 1 as [|s rest Hs _ IH]; [reflexivity|].
  rewrite !fmap_cons.
  rewrite (select_metric_taken _ _ _ _ _ (getitem_to_dict_type s) Hs
             (getitem_to_dict_value s)).
  by rewrite IH.
Qed.

Lemma select_growth_none (sigs : list DemandSignal.t) :
  Forall (fun s => in_strs (VStr (DemandSignal.metric_type s)) growth_types
                   = false) sigs ->
  select_metric growth_types (DemandSignal.to_dict <$> sigs) = Ok [].
Proof.
  induction 1 as [|s rest Hs _ IH]; [reflexivity|].
  rewrite !fmap_cons.
  by rewrite (select_metric_skipped _ _ _ _ (getitem_to_dict_type s) Hs).
Qed.

Lemma py_sum_from_bounds (sigs : list DemandSignal.t) (acc lo hi : R) :
  Forall (fun s => lo <= DemandSignal.metric_value s <= hi) sigs ->
  exists t,
    py_sum_from acc ((fun s => VFloat (DemandSignal.metric_value s)) <$> sigs)
    = Ok t /\
    acc + lo * INR (length sigs) <= t <= acc + hi * INR (length sigs).
Proof.
  intros H. revert acc.
  induction H as [|s rest Hs _ IH]; intros acc.
  - exists acc. simpl. split; [reflexivity | lra].
  - rewrite fmap_cons. cbn [py_sum_from as_number].
    destruct (IH (acc + DemandSignal.metric_value s)) as (t & -> & Ht).
    exists t. split; [reflexivity|].
    change (length (s :: rest)) with (S (length rest)). rewrite S_INR. lra.
Qed.

Lemma count_show_hn_none (sigs : list DemandSignal.t) :
  Forall (fun s => contains "show_hn" (DemandSignal.source s) = false) sigs ->
  count_show_hn (DemandSignal.to_dict <$> sigs) = Ok O.
Proof.
  induction 1 as [|s rest Hs _ IH]; [reflexivity|].
  rewrite fmap_cons. cbn [count_show_hn].
  rewrite get_to_dict_source, IH. unfold show_hn_in. by rewrite Hs.
Qed.

(** ** Mock signals *)

Section MockFacts.
Variable md5 : string -> Z.
Variable clock : nat -> datetime.
Variable self : connector.
Variable query : string.

Local Abbreviation mock_signal := (BaseConnector.mock_signal md5 clock self).
Local Abbreviation mock_signals_from :=
  (BaseConnector.mock_signals_from md5 clock self).

Lemma mock_signal_counter (k i : nat) :
  (mock_signal k query i).2 = S (S k).
Proof.
  unfold BaseConnector.mock_signal, DemandSignal.__init__.
  destruct (strftime_ymd_nonempty (clock k)) as (c & s & ->). reflexivity.
Qed.

Lemma mock_signal_date (k i : nat) :
  DemandSignal.data_date (mock_signal k query i).1 = strftime_ymd (clock k).
Proof.
  unfold BaseConnector.mock_signal, DemandSignal.__init__.
  destruct (strftime_ymd_nonempty (clock k)) as (c & s & ->). reflexivity.
Qed.

Lemma mock_signal_fields (k i : nat) :
  let s := (mock_signal k query i).1 in
  DemandSignal.source s = source_name (class self) /\
  DemandSignal.metric_type s = "volume" /\
  DemandSignal.metric_value s
  = IZR (md5 (query +:+ ":" +:+ pretty i) mod 1000 + 100).
Proof.
  unfold BaseConnector.mock_signal.
  match goal with
  | |- context [DemandSignal.__init__ ?c ?k ?a ?b ?d ?e ?f ?g ?h ?j] =>
      destruct (init_fields c k a b d e f g h j) as (? & ? & ? & ? & ? & ?)
  end.
  by repeat split.
Qed.

Lemma mock_signals_from_S (k i n : nat) :
  mock_signals_from k query i (S n)
  = ((mock_signal k query i).1
       :: (mock_signals_from (S (S k)) query (S i) n).1,
     (mock_signals_from (S (S k)) query (S i) n).2).
Proof.
  cbn [BaseConnector.mock_signals_from].
  pose proof (mock_signal_counter k i) as Hk.
  destruct (BaseConnector.mock_signal md5 clock self k query i) as [s k'].
  simpl in Hk. subst k'.
  by destruct (BaseConnector.mock_signals_from md5 clock self (S (S k))
                 query (S i) n).
Qed.

Lemma mock_signals_forall (P : DemandSignal.t -> Prop) :
  (forall k i, P (mock_signal k query i).1) ->
  forall n k i, Forall P (mock_signals_from k query i n).1.
Proof.
  intros HP. induction n as [|n IH]; intros k i; [constructor|].
  rewrite mock_signals_from_S. constructor; [apply HP | apply IH].
Qed.

Lemma mock_signals_length (n k i : nat) :
  length (mock_signals_from k query i n).1 = n.
Proof.
  revert k i. induction n as [|n IH]; intros k i; [reflexivity|].
  rewrite mock_signals_from_S. simpl. by rewrite IH.
Qed.

Lemma mock_signals_counter (n k i : nat) :
  (mock_signals_from k query i n).2 = (k + 2 * n)%nat.
Proof.
  revert k i. induction n as [|n IH]; intros k i; [simpl; lia|].
  rewrite mock_signals_from_S. simpl. rewrite IH. lia.
Qed.

Lemma mock_signals_recent (now : Z) (n k i : nat) :
  (forall j, (j < n)%nat ->
     valid (clock (k + 2 * j)%nat) /\ (1000 <= year (clock (k + 2 * j)%nat))%Z) ->
  has_recent now (DemandSignal.to_dict <$> (mock_signals_from k query i n).1)
  = existsb (fun j => (day_of now - day_of (instant (clock (k + 2 * j)%nat)) <? 7)%Z)
      (seq 0 n).
Proof.
  revert k i. induction n as [|n IH]; intros k i Hv; [reflexivity|].
  rewrite mock_signals_from_S. cbn [fst]. rewrite fmap_cons.
  unfold has_recent in *. cbn [existsb seq].
  rewrite get_to_dict_date, mock_signal_date.
  destruct (strftime_ymd_nonempty (clock k)) as (c & s & Hs).
  replace (truthy (VStr (strftime_ymd (clock k)))) with true
    by (rewrite Hs; reflexivity).
  destruct (Hv O ltac:(lia)) as [Hv0 Hy0].
  rewrite Nat.add_0_r in Hv0, Hy0.
  rewrite strftime_recent by done. rewrite Nat.add_0_r. cbn [andb].
  f_equal. rewrite IH.
  - rewrite <- fmap_S_seq.
    generalize (seq 0 n). intros l.
    induction l as [|j l IHl]; [reflexivity|].
    rewrite fmap_cons. cbn [existsb]. rewrite IHl.
    by replace (S (S k) + 2 * j)%nat with (k + 2 * S j)%nat by lia.
  - intros j Hj.
    replace (S (S k) + 2 * j)%nat with (k + 2 * S j)%nat by lia.
    apply Hv. lia.
Qed.

End MockFacts.

Lemma source_name_no_launch (c : connector_class) :
  contains "show_hn" (source_name c) = false.
Proof. by destruct c. Qed.

Lemma exp_4_lt_101 : exp 4 < 101.
Proof.
  replace 4 with (INR 4 * 1) by (simpl; ring).
  rewrite exp_INR_mult.
  apply Rle_lt_trans with (3 ^ 4); [|simpl; lra].
  apply pow_incr. split; [left; apply exp_pos | apply exp_le_3].
Qed.

Lemma exp_15_2_gt_1100 : 1100 < exp (15 / 2).
Proof.
  replace (15 / 2) with (INR 60 * (1 / 8)) by (simpl; lra).
  rewrite exp_INR_mult.
  apply Rlt_le_trans with ((1 + 1 / 8) ^ 60); [lra|].
  apply pow_incr. split; [lra | apply exp_ineq1_le].
Qed.

(** Volume signals with values between 100 and 1099 and no launch post. *)
Lemma volume_signals_scores (sigs : list DemandSignal.t) (idea : dict) :
  sigs <> [] ->
  Forall (fun s => DemandSignal.metric_type s = "volume" /\
                   100 <= DemandSignal.metric_value s <= 1099 /\
                   contains "show_hn" (DemandSignal.source s) = false) sigs ->
  exists x,
    calculate_demand_strength (DemandSignal.to_dict <$> sigs) = Ok x /\
    40 < x < 75 /\
    calculate_competition_proxy (DemandSignal.to_dict <$> sigs) idea = Ok 65.
Proof.
  intros Hne Hall.
  assert (Hsel : select_metric volume_types (DemandSignal.to_dict <$> sigs)
                 = Ok ((fun s => VFloat (DemandSignal.metric_value s)) <$> sigs)).
  { apply select_volume_signals. eapply Forall_impl; [exact Hall|].
    by intros s (-> & _). }
  destruct (py_sum_from_bounds sigs 0 100 1099) as (t & Hsum & Ht).
  { eapply Forall_impl; [exact Hall|]. by intros s (_ & ? & _). }
  assert (Hcnt : count_show_hn (DemandSignal.to_dict <$> sigs) = Ok O).
  { apply count_show_hn_none. eapply Forall_impl; [exact Hall|].
    by intros s (_ & _ & ?). }
  destruct sigs as [|s0 rest]; [done|].
  set (sigs := s0 :: rest) in *.
  assert (Hn : 1 <= INR (length sigs)).
  { change 1 with (INR 1). apply le_INR. simpl. lia. }
  set (n := INR (length sigs)) in *.
  assert (Hm : 100 <= t / n <= 1099).
  { split.
    - apply Rmult_le_reg_r with n; [lra|]. unfold Rdiv.
      rewrite Rmult_assoc, Rinv_l by lra. lra.
    - apply Rmult_le_reg_r with n; [lra|]. unfold Rdiv.
      rewrite Rmult_assoc, Rinv_l by lra. lra. }
  assert (Hlo : 4 < ln (1 + t / n)).
  { apply ln_above. pose proof exp_4_lt_101. lra. }
  assert (Hhi : ln (1 + t / n) < 15 / 2).
  { apply ln_below; [lra|]. pose proof exp_15_2_gt_1100. lra. }
  assert (Hs : calculate_demand_strength (DemandSignal.to_dict <$> sigs)
               = Ok (ln (1 + t / n) * 10)).
  { unfold calculate_demand_strength.
    rewrite Hsel. unfold sigs at 1. rewrite fmap_cons.
    cbn [rbind]. unfold sigs at 1. rewrite fmap_cons.
    unfold py_sum. fold sigs.
    change (VFloat (DemandSignal.metric_value s0)
            :: ((fun s => VFloat (DemandSignal.metric_value s)) <$> rest))
      with ((fun s => VFloat (DemandSignal.metric_value s)) <$> sigs).
    rewrite Hsum. cbn [rbind]. rewrite length_fmap. fold n.
    unfold log1p. destruct (Rle_dec _ _) as [?|_]; [lra|]. cbn [rbind].
    rewrite Rmin_right by lra. reflexivity. }
  exists (ln (1 + t / n) * 10). split; [exact Hs|]. split; [lra|].
  rewrite (competition_eval _ idea _ O Hs Hcnt). cbn [Nat.ltb Nat.leb].
  f_equal. apply competition_of_volume_mid. lra.
Qed.

(** X11: a date written with [strftime('%Y-%m-%d')] is read back by
    [strptime] as the midnight that starts the day of the datetime, for
    every valid datetime from the year 1000 on. *)
Theorem strftime_strptime_round_trip (t : datetime) :
  valid t -> (1000 <= year t)%Z ->
  strptime_ymd (strftime_ymd t) = Some (day_of (instant t) * us_per_day)%Z.
Proof.
  intros Hv Hy. rewrite strptime_strftime by done.
  by rewrite day_of_instant.
Qed.

Lemma strftime_strptime_round_trip_witness :
  valid example_time /\ (1000 <= year example_time)%Z /\
  strptime_ymd (strftime_ymd example_time)
  = Some (day_of (instant example_time) * us_per_day)%Z.
Proof.
  assert (Hv : valid example_time) by (vm_compute; intuition discriminate).
  assert (Hy : (1000 <= year example_time)%Z) by (vm_compute; discriminate).
  split; [exact Hv|]. split; [exact Hy|].
  exact (strftime_strptime_round_trip example_time Hv Hy).
Defined.

(** X12: a signal built without a date (or with an empty one) is dated by
    the clock, and a signal of a metric that is no growth metric, scored
    alone, has demand velocity 70 on the day of that reading and the six
    calendar days after it, and 50 from then on. *)
Theorem default_date_counts_for_seven_days (clock : nat -> datetime)
    (k : nat) (src q mt : string) (v : R) (u url : string)
    (ts : option datetime) (dd : option string) (now : Z) :
  str_truthy dd = false ->
  valid (clock (match ts with Some _ => k | None => S k end)) ->
  (1000 <= year (clock (match ts with Some _ => k | None => S k end)))%Z ->
  in_strs (VStr mt) growth_types = false ->
  calculate_demand_velocity now
    [DemandSignal.to_dict
       (DemandSignal.__init__ clock k src q mt v u url ts dd).1]
  = Ok (if (day_of now
            - day_of (instant
                (clock (match ts with Some _ => k | None => S k end))) <? 7)%Z
        then 70 else 50).
Proof.
  intros Hdd Hv Hy Hmt.
  pose proof (init_default_date clock k src q mt v u url ts dd Hdd) as Hdate.
  destruct (init_fields clock k src q mt v u url ts dd)
    as (_ & _ & Htype & _).
  set (s := (DemandSignal.__init__ clock k src q mt v u url ts dd).1) in *.
  assert (Hg : select_metric growth_types [DemandSignal.to_dict s] = Ok []).
  { apply (select_growth_none [s]).
    constructor; [by rewrite Htype | constructor]. }
  unfold calculate_demand_velocity. rewrite Hg.
  cbn [rbind]. unfold has_recent. cbn [existsb].
  rewrite get_to_dict_date, Hdate.
  destruct (strftime_ymd_nonempty
              (clock (match ts with Some _ => k | None => S k end)))
    as (c & r & Hs).
  replace (truthy (VStr (strftime_ymd
             (clock (match ts with Some _ => k | None => S k end)))))
    with true by (rewrite Hs; reflexivity).
  rewrite strftime_recent by done. rewrite orb_false_r. cbn [andb].
  by destruct (_ <? 7)%Z.
Qed.

Lemma default_date_counts_for_seven_days_witness :
  calculate_demand_velocity (instant example_time)
    [DemandSignal.to_dict
       (DemandSignal.__init__ example_clock 0 "reddit" "crm" "post_count" 12
          "posts" "https://www.reddit.com/search/?q=crm" None None).1]
  = Ok 70.
Proof.
  assert (Hv : valid example_time) by (vm_compute; intuition discriminate).
  assert (Hy : (1000 <= year example_time)%Z) by (vm_compute; discriminate).
  exact (default_date_counts_for_seven_days example_clock 0 "reddit" "crm"
           "post_count" 12 "posts" "https://www.reddit.com/search/?q=crm"
           None None (instant example_time) eq_refl Hv Hy eq_refl).
Defined.

(** X13: the mock signals of a connector (any class, any query, at least
    one signal) give a demand strength between 40 and 75 and the
    competition proxy 65, whatever the hash values are. *)
Theorem mock_signals_strength_and_competition (md5 : string -> Z)
    (clock : nat -> datetime) (self : connector) (k : nat) (query : string)
    (count : nat) (idea : dict) :
  (0 < count)%nat ->
  exists x,
    calculate_demand_strength
      (DemandSignal.to_dict
         <$> (BaseConnector._generate_mock_signals md5 clock self k query
                count).1) = Ok x /\
    40 < x < 75 /\
    calculate_competition_proxy
      (DemandSignal.to_dict
         <$> (BaseConnector._generate_mock_signals md5 clock self k query
                count).1) idea = Ok 65.
Proof.
  intros Hc. unfold BaseConnector._generate_mock_signals.
  apply volume_signals_scores.
  - intros Hnil. apply (f_equal length) in Hnil.
    rewrite mock_signals_length in Hnil. simpl in Hnil. lia.
  - apply mock_signals_forall. intros k' i.
    destruct (mock_signal_fields md5 clock self query k' i) as (Hs & Ht & Hval).
    split; [exact Ht|]. split.
    + rewrite Hval.
      pose proof (Z.mod_pos_bound (md5 (query +:+ ":" +:+ pretty i)) 1000
                    ltac:(lia)) as Hb.
      split; apply IZR_le; lia.
    + rewrite Hs. apply source_name_no_launch.
Qed.

Lemma mock_signals_strength_and_competition_witness :
  exists x,
    calculate_demand_strength
      (DemandSignal.to_dict
         <$> (BaseConnector._generate_mock_signals string_length_hash
                example_clock (HackerNewsConnector__init__ None false) 0
                "crm" 3).1) = Ok x /\
    40 < x < 75 /\
    calculate_competition_proxy
      (DemandSignal.to_dict
         <$> (BaseConnector._generate_mock_signals string_length_hash
                example_clock (HackerNewsConnector__init__ None false) 0
                "crm" 3).1) ∅ = Ok 65.
Proof.
  apply (mock_signals_strength_and_competition string_length_hash
           example_clock (HackerNewsConnector__init__ None false) 0 "crm" 3 ∅).
  lia.
Defined.

(** X14: the mock signals carry the dates of the clock readings made for
    them (every second reading); their demand velocity is 70 when one of
    these days is among the last seven of the scoring day, else 50. *)
Theorem mock_signals_velocity (md5 : string -> Z) (clock : nat -> datetime)
    (self : connector) (k : nat) (query : string) (count : nat) (now : Z) :
  (0 < count)%nat ->
  (forall j, (j < count)%nat ->
     valid (clock (k + 2 * j)%nat) /\ (1000 <= year (clock (k + 2 * j)%nat))%Z) ->
  calculate_demand_velocity now
    (DemandSignal.to_dict
       <$> (BaseConnector._generate_mock_signals md5 clock self k query
              count).1)
  = Ok (if existsb
             (fun j => (day_of now
                        - day_of (instant (clock (k + 2 * j)%nat)) <? 7)%Z)
             (seq 0 count)
        then 70 else 50).
Proof.
  intros Hc Hv. unfold BaseConnector._generate_mock_signals.
  pose proof (mock_signals_recent md5 clock self query now count k 0 Hv) as Hr.
  pose proof (mock_signals_length md5 clock self query count k 0) as Hlen.
  assert (Hg : select_metric growth_types
                 (DemandSignal.to_dict
                    <$> (BaseConnector.mock_signals_from md5 clock self k
                           query 0 count).1) = Ok []).
  { apply select_growth_none, mock_signals_forall. intros k' i.
    destruct (mock_signal_fields md5 clock self query k' i) as (_ & -> & _).
    reflexivity. }
  unfold calculate_demand_velocity.
  destruct (BaseConnector.mock_signals_from md5 clock self k query 0 count).1
    as [|s rest] eqn:E; [simpl in Hlen; lia|].
  rewrite fmap_cons in *. rewrite Hg. cbn [rbind]. rewrite Hr.
  by destruct (existsb _ _).
Qed.

Lemma mock_signals_velocity_witness :
  calculate_demand_velocity (instant example_time)
    (DemandSignal.to_dict
       <$> (BaseConnector._generate_mock_signals string_length_hash
              example_clock (HackerNewsConnector__init__ None false) 0
              "crm" 3).1)
  = Ok 70.
Proof.
  assert (Hv : forall j, (j < 3)%nat ->
            valid (example_clock (0 + 2 * j)%nat)
            /\ (1000 <= year (example_clock (0 + 2 * j)%nat))%Z).
  { intros j _. split; [vm_compute; intuition discriminate
                       | vm_compute; discriminate]. }
  exact (mock_signals_velocity string_length_hash example_clock
           (HackerNewsConnector__init__ None false) 0 "crm" 3
           (instant example_time) ltac:(lia) Hv).
Defined.

(** X15: a Reddit or Hacker News connector is in mock mode however it is
    built, so its [search] returns the three mock signals and never what
    the service answers; a Google Trends or YouTube connector leaves mock
    mode only when it is given a non-empty key and [mock_mode=False] (and,
    for Google Trends, when the client library is there). *)
Theorem reddit_and_hackernews_always_mock (md5 : string -> Z)
    (clock : nat -> datetime) :
  (forall id secret mock installed k query live,
     search md5 clock (RedditConnector__init__ id secret mock installed)
       k query live
     = BaseConnector._generate_mock_signals md5 clock
         (RedditConnector__init__ id secret mock installed) k query 3) /\
  (forall key mock k query live,
     search md5 clock (HackerNewsConnector__init__ key mock) k query live
     = BaseConnector._generate_mock_signals md5 clock
         (HackerNewsConnector__init__ key mock) k query 3) /\
  (forall key mock installed,
     mock_mode (GoogleTrendsConnector__init__ key mock installed) = false
     <-> mock = false /\ str_truthy key = true /\ installed = true) /\
  (forall key mock,
     mock_mode (YouTubeConnector__init__ key mock) = false
     <-> mock = false /\ str_truthy key = true).
Proof.
  split; [|split; [|split]].
  - intros id secret mock installed k query live.
    by destruct mock.
  - intros key mock k query live. by destruct mock.
  - intros key mock installed.
    unfold GoogleTrendsConnector__init__, BaseConnector.__init__, in_mock_mode.
    destruct mock, (str_truthy key), installed; simpl; intuition discriminate.
  - intros key mock.
    unfold YouTubeConnector__init__, BaseConnector.__init__, in_mock_mode.
    destruct mock, (str_truthy key); simpl; intuition discriminate.
Qed.

(** ** The statement of [create_business_idea] *)

Import Database.

Lemma add_optional_spec (kwargs : gmap string value) (optional : list string)
    (fields : list string) (values : list value) :
  add_optional kwargs optional fields values
  = (fields ++ filter (fun f => given kwargs f) optional,
     values ++ omap (fun f => if given kwargs f then kwargs !! f else None)
                 optional).
Proof.
  revert fields values.
  induction optional as [|f rest IH]; intros fields values.
  - simpl. by rewrite !app_nil_r.
  - cbn [add_optional omap list_omap].
    destruct (given kwargs f) eqn:G.
    + rewrite filter_cons_True by (by rewrite G).
      unfold given in G.
      destruct (kwargs !! f) as [[]|] eqn:E; try discriminate;
        rewrite IH, <- !app_assoc; reflexivity.
    + rewrite filter_cons_False by (rewrite G; intros []).
      unfold given in G.
      destruct (kwargs !! f) as [[]|] eqn:E; try discriminate;
        rewrite IH; reflexivity.
Qed.

Lemma count_char_app (c : ascii) (a b : string) :
  count_char c (a +:+ b) = (count_char c a + count_char c b)%nat.
Proof. induction a as [|x a IH]; simpl; [reflexivity|]. rewrite IH. lia. Qed.

Lemma count_char_join_none (c : ascii) (sep : string) (l : list string) :
  count_char c sep = O -> Forall (fun s => count_char c s = O) l ->
  count_char c (join sep l) = O.
Proof.
  intros Hsep. induction 1 as [|s rest Hs Hrest IH]; [reflexivity|].
  destruct rest as [|s' rest]; [exact Hs|].
  change (join sep (s :: s' :: rest)) with (s +:+ sep +:+ join sep (s' :: rest)).
  rewrite !count_char_app, Hs, Hsep, IH. reflexivity.
Qed.

Lemma count_placeholders {A} (l : list A) :
  count_char "?" (join ", " ((fun _ => "?"%string) <$> l)) = length l.
Proof.
  induction l as [|x rest IH]; [reflexivity|].
  destruct rest as [|y rest]; [reflexivity|].
  rewrite !fmap_cons in *.
  change (join ", " ("?"%string :: "?"%string :: ((fun _ => "?"%string) <$> rest)))
    with ("?" +:+ ", " +:+ join ", " ("?"%string :: ((fun _ => "?"%string) <$> rest))).
  rewrite !count_char_app, IH. reflexivity.
Qed.

Lemma given_insert_ne (kwargs : gmap string value) (k f : string) (v : value) :
  k <> f -> given (<[k := v]> kwargs) f = given kwargs f.
Proof. intros H. unfold given. by rewrite lookup_insert_ne. Qed.

Lemma columns_ext (a b c d : value) (kw kw' : gmap string value) :
  (forall f, f ∈ optional_fields ->
     (if given kw f then kw !! f else None)
     = (if given kw' f then kw' !! f else None)) ->
  columns a b c d kw = columns a b c d kw'.
Proof.
  intros H. unfold columns. rewrite !add_optional_spec.
  assert (Hg : forall f, f ∈ optional_fields -> given kw f = given kw' f).
  { intros f Hf. specialize (H f Hf). unfold given in *.
    destruct (kw !! f) as [[]|], (kw' !! f) as [[]|]; try done. }
  f_equal; f_equal.
  - induction optional_fields as [|f rest IH]; [reflexivity|].
    rewrite !filter_cons.
    rewrite (Hg f) by constructor.
    rewrite IH; [reflexivity | | ].
    + intros g Hgin. apply H. by constructor.
    + intros g Hgin. apply Hg. by constructor.
  - induction optional_fields as [|f rest IH]; [reflexivity|].
    cbn [omap list_omap]. rewrite (H f) by constructor.
    rewrite IH; [reflexivity | | ].
    + intros g Hgin. apply H. by constructor.
    + intros g Hgin. apply Hg. by constructor.
Qed.

Lemma length_given (kwargs : gmap string value) (l : list string) :
  length (filter (fun f => given kwargs f) l)
  = length (omap (fun f => if given kwargs f then kwargs !! f else None) l).
Proof.
  induction l as [|f rest IH]; [reflexivity|].
  cbn [omap list_omap]. destruct (given kwargs f) eqn:G.
  - rewrite filter_cons_True by (by rewrite G).
    unfold given in G. destruct (kwargs !! f) as [[]|]; try discriminate;
      cbn [length]; f_equal; exact IH.
  - rewrite filter_cons_False by (rewrite G; intros []). exact IH.
Qed.

Lemma create_business_idea_values (a b c d : value) (kw : gmap string value) :
  (create_business_idea a b c d kw).2 = (columns a b c d kw).2.
Proof. unfold create_business_idea. by destruct (columns a b c d kw). Qed.

Lemma create_business_idea_sql (a b c d : value) (kw : gmap string value) :
  (create_business_idea a b c d kw).1
  = "INSERT INTO business_ideas (" +:+ join ", " (columns a b c d kw).1
     +:+ ") VALUES ("
     +:+ join ", " ((fun _ => "?"%string) <$> (columns a b c d kw).2) +:+ ")".
Proof. unfold create_business_idea. by destruct (columns a b c d kw). Qed.

Lemma create_business_idea_ext (a b c d : value) (kw kw' : gmap string value) :
  columns a b c d kw = columns a b c d kw' ->
  create_business_idea a b c d kw = create_business_idea a b c d kw'.
Proof. intros H. unfold create_business_idea. by rewrite H. Qed.

Lemma columns_lengths (a b c d : value) (kw : gmap string value) :
  length (columns a b c d kw).1 = length (columns a b c d kw).2.
Proof.
  unfold columns. rewrite add_optional_spec.
  unfold fst, snd. rewrite !length_app. f_equal. apply length_given.
Qed.

Lemma optional_fields_no_placeholder :
  Forall (fun s => count_char "?" s = O) optional_fields.
Proof. repeat constructor. Qed.

Lemma statement_placeholders (fields : list string) (values : list value) :
  Forall (fun s => count_char "?" s = O) fields ->
  count_char "?"
    ("INSERT INTO business_ideas (" +:+ join ", " fields
     +:+ ") VALUES ("
     +:+ join ", " ((fun _ => "?"%string) <$> values) +:+ ")")
  = length values.
Proof.
  intros H. rewrite !count_char_app, count_placeholders.
  rewrite count_char_join_none; [| reflexivity | exact H].
  cbn. lia.
Qed.

Lemma columns_no_placeholder (a b c d : value) (kwargs : gmap string value) :
  Forall (fun s => count_char "?" s = O) (columns a b c d kwargs).1.
Proof.
  unfold columns. rewrite add_optional_spec. cbn [fst].
  apply Forall_app. split; [repeat constructor|].
  apply Forall_forall. intros f Hf. apply list_elem_of_filter in Hf as [_ Hf].
  revert f Hf. apply Forall_forall. exact optional_fields_no_placeholder.
Qed.

(** X16: the [INSERT] statement of [create_business_idea] names the four
    required columns and then the optional fields that are given with a
    value other than [None], in the order of [optional_fields]; it has as
    many [?] placeholders as columns and as values handed over; a keyword
    that is no optional field is dropped without a trace, and a keyword
    given as [None] counts as not given. *)
Theorem create_business_idea_statement
    (topic_id title target_user value_prop : value)
    (kwargs : gmap string value) :
  (columns topic_id title target_user value_prop kwargs).1
  = ["topic_id"; "title"; "target_user"; "value_prop"]%string
    ++ filter (fun f => given kwargs f) optional_fields /\
  count_char "?"
    (create_business_idea topic_id title target_user value_prop kwargs).1
  = length
      (create_business_idea topic_id title target_user value_prop kwargs).2 /\
  length (columns topic_id title target_user value_prop kwargs).1
  = length
      (create_business_idea topic_id title target_user value_prop kwargs).2 /\
  (forall k v, k ∉ optional_fields ->
     create_business_idea topic_id title target_user value_prop
       (<[k := v]> kwargs)
     = create_business_idea topic_id title target_user value_prop kwargs) /\
  (forall k,
     create_business_idea topic_id title target_user value_prop
       (<[k := VNone]> kwargs)
     = create_business_idea topic_id title target_user value_prop
         (delete k kwargs)).
Proof.
  split; [|split; [|split; [|split]]].
  - unfold columns. rewrite add_optional_spec. reflexivity.
  - rewrite create_business_idea_sql, create_business_idea_values.
    apply statement_placeholders, columns_no_placeholder.
  - rewrite create_business_idea_values. apply columns_lengths.
  - intros k v Hk. apply create_business_idea_ext, columns_ext.
    intros f Hf. assert (k <> f) by (intros ->; contradiction).
    rewrite given_insert_ne, lookup_insert_ne by exact H. reflexivity.
  - intros k. apply create_business_idea_ext, columns_ext.
    intros f _. unfold given. destruct (decide (k = f)) as [->|Hne].
    + rewrite lookup_insert_eq, lookup_delete_eq. reflexivity.
    + rewrite lookup_insert_ne, lookup_delete_ne by exact Hne. reflexivity.
Qed.

(** ** Topics from pain posts *)

Import RedditScraper.

Lemma lower_ascii_not_upper (c : ascii) : is_upper (lower_ascii c) = false.
Proof. destruct c as [[] [] [] [] [] [] [] []]; reflexivity. Qed.

Lemma has_upper_lower (s : string) : has_upper (lower s) = false.
Proof.
  unfold has_upper. induction s as [|c s IH]; [reflexivity|].
  cbn [lower list_ascii_of_string existsb].
  by rewrite lower_ascii_not_upper, IH.
Qed.

Lemma prefix_has_upper (n h : string) :
  String.prefix n h = true -> has_upper n = true -> has_upper h = true.
Proof.
  unfold has_upper. revert h. induction n as [|a n IH]; intros h Hp Hu.
  - discriminate.
  - destruct h as [|b h]; [discriminate|].
    cbn [String.prefix] in Hp. destruct (ascii_dec a b) as [->|]; [|discriminate].
    cbn [list_ascii_of_string existsb] in *.
    destruct (is_upper b); [reflexivity|]. cbn [orb] in *. by apply IH.
Qed.

Lemma contains_has_upper (n h : string) :
  contains n h = true -> has_upper n = true -> has_upper h = true.
Proof.
  intros Hc Hu. induction h as [|b h IH].
  - cbn [contains] in Hc. rewrite orb_false_r in Hc.
    by apply (prefix_has_upper n "").
  - cbn [contains] in Hc. apply orb_true_iff in Hc as [Hp|Hc].
    + by apply (prefix_has_upper n).
    + unfold has_upper in *. cbn [list_ascii_of_string existsb].
      rewrite (IH Hc). apply orb_true_r.
Qed.

Lemma upper_never_in_lower (kw t : string) :
  has_upper kw = true -> contains kw (lower t) = false.
Proof.
  intros Hu. destruct (contains kw (lower t)) eqn:E; [|reflexivity].
  pose proof (contains_has_upper _ _ E Hu) as H.
  rewrite has_upper_lower in H. discriminate.
Qed.

(** X17: a keyword with a capital letter never matches, because the text
    it is looked up in is lowered first.  The one such keyword is 'SaaS':
    a post falls under the topic software exactly when its text contains
    one of the other four keywords of that topic. *)
Theorem capital_keyword_never_matches :
  (forall kw t, has_upper kw = true -> contains kw (lower t) = false) /\
  (forall p,
     any_in ["software"; "tool"; "app"; "platform"; "SaaS"]%string
       (post_text p)
     = any_in ["software"; "tool"; "app"; "platform"]%string (post_text p)) /\
  (forall item kw, item ∈ topic_keywords -> kw ∈ item.2 ->
     has_upper kw = true -> item.1 = "software"%string /\ kw = "SaaS"%string).
Proof.
  split; [exact upper_never_in_lower|]. split.
  - intros p. unfold any_in, post_text. cbn [existsb].
    rewrite (upper_never_in_lower "SaaS") by reflexivity.
    by rewrite !orb_false_r.
  - intros item kw Hitem Hkw Hu. unfold topic_keywords in Hitem.
    repeat (apply elem_of_cons in Hitem as [->|Hitem];
      [cbn [snd] in Hkw;
       repeat (apply elem_of_cons in Hkw as [->|Hkw];
               [first [discriminate Hu | by split]|]);
       by apply elem_of_nil in Hkw|]).
    by apply elem_of_nil in Hitem.
Qed.

(** *** The two loops compute, topic by topic, a filter of the posts *)

Lemma append_to_found (n : string) (p : post) (ps : list post)
    (T1 T2 : list (string * list post)) :
  n ∉ T1.*1 ->
  append_to n p (T1 ++ (n, ps) :: T2) = Ok (T1 ++ (n, ps ++ [p]) :: T2).
Proof.
  induction T1 as [|[m qs] T1 IH]; intros Hn.
  - cbn [app append_to]. by rewrite String.eqb_refl.
  - rewrite fmap_cons in Hn. apply not_elem_of_cons in Hn as [Hne Hn].
    cbn [app append_to fst].
    destruct (String.eqb m n) eqn:E.
    + apply String.eqb_eq in E. cbn [fst] in Hne. congruence.
    + rewrite (IH Hn). reflexivity.
Qed.

Lemma add_post_spec (p : post) (g : string * list string -> list post)
    (items : list (string * list string)) (T1 : list (string * list post)) :
  NoDup items.*1 -> (forall n, n ∈ items.*1 -> n ∉ T1.*1) ->
  add_post items p (T1 ++ ((fun it => (it.1, g it)) <$> items))
  = Ok (T1 ++ ((fun it => (it.1, g it ++ (if any_in it.2 (post_text p)
                                            then [p] else [])))
               <$> items)).
Proof.
  revert T1. induction items as [|[n kws] items IH]; intros T1 Hnd Hdis.
  - reflexivity.
  - rewrite fmap_cons in Hnd. apply NoDup_cons in Hnd as [Hn Hnd].
    rewrite !fmap_cons. cbn [add_post fst snd].
    assert (Hrest : forall T : list (string * list post),
              T.*1 = T1.*1 ++ [n] ->
              forall m, m ∈ items.*1 -> m ∉ T.*1).
    { intros T HT m Hm. rewrite HT. intros Hin.
      apply elem_of_app in Hin as [Hin|Hin].
      - apply (Hdis m); [rewrite fmap_cons; by right | exact Hin].
      - apply list_elem_of_singleton in Hin. subst m. by apply Hn. }
    destruct (any_in kws (post_text p)).
    + rewrite append_to_found
        by (apply Hdis; rewrite fmap_cons; by left).
      cbn [rbind].
      specialize (IH (T1 ++ [(n, g (n, kws) ++ [p])]) Hnd).
      rewrite <- !app_assoc in IH. cbn [app] in IH. apply IH.
      apply Hrest. by rewrite fmap_app.
    + specialize (IH (T1 ++ [(n, g (n, kws))]) Hnd).
      rewrite <- !app_assoc in IH. cbn [app] in IH.
      rewrite app_nil_r. apply IH.
      apply Hrest. by rewrite fmap_app.
Qed.

Lemma topic_names_nodup : NoDup topic_keywords.*1.
Proof. apply (bool_decide_unpack _). vm_compute. exact I. Qed.

Lemma add_posts_spec (ps : list post) (g : string * list string -> list post) :
  add_posts ps ((fun it => (it.1, g it)) <$> topic_keywords)
  = Ok ((fun it => (it.1, g it ++ in_topic it ps)) <$> topic_keywords).
Proof.
  revert g. induction ps as [|p ps IH]; intros g.
  - cbn [add_posts]. f_equal. apply list_fmap_ext. intros _ it _.
    unfold in_topic. cbn [List.filter]. by rewrite app_nil_r.
  - cbn [add_posts].
    pose proof (add_post_spec p g topic_keywords [] topic_names_nodup) as H.
    change ([] ++ ?x) with x in H.
    rewrite H by (intros n _; apply not_elem_of_nil).
    cbn [rbind]. rewrite IH. f_equal.
    apply list_fmap_ext. intros _ it _. f_equal.
    rewrite <- app_assoc. f_equal.
    unfold in_topic. cbn [List.filter].
    by destruct (any_in it.2 (post_text p)).
Qed.

Lemma keywords_of_topics :
  Forall (fun it => keywords_of topic_keywords it.1 = Ok it.2) topic_keywords.
Proof. repeat constructor. Qed.

Lemma summaries_spec (h : string * list string -> list post)
    (items : list (string * list string)) :
  Forall (fun it => keywords_of topic_keywords it.1 = Ok it.2) items ->
  summaries ((fun it => (it.1, h it)) <$> items)
  = Ok (omap (fun it =>
          match h it with
          | [] => None
          | found =>
              Some {| name := title_case it.1;
                      description := "Posts about " +:+ it.1
                                     +:+ " challenges and solutions";
                      post_count := length found;
                      posts := take 5 found;
                      keywords := it.2;
                      total_engagement := engagement found |}
          end) items).
Proof.
  induction 1 as [|it items Hk _ IH]; [reflexivity|].
  rewrite fmap_cons. cbn [summaries omap list_omap].
  destruct (h it) as [|q qs] eqn:E; [exact IH|].
  rewrite Hk, IH. reflexivity.
Qed.

Lemma insert_desc_sorted {A} (x : R * A) (l : list (R * A)) :
  StronglySorted (fun a b => b.1 <= a.1) l ->
  StronglySorted (fun a b => b.1 <= a.1) (insert_desc x l).
Proof.
  induction 1 as [|y l Hl IH Hy]; [repeat constructor|].
  cbn [insert_desc]. destruct (Rlt_dec x.1 y.1) as [Hlt|Hge].
  - constructor; [exact IH|].
    rewrite insert_desc_perm. constructor; [lra | exact Hy].
  - constructor; [by constructor|].
    constructor; [lra|].
    eapply Forall_impl; [exact Hy|]. intros z Hz. cbn beta in *. lra.
Qed.

Lemma sort_desc_sorted {A} (l : list (R * A)) :
  StronglySorted (fun a b => b.1 <= a.1) (sort_desc l).
Proof.
  induction l as [|x l IH]; [constructor|].
  cbn [sort_desc]. by apply insert_desc_sorted.
Qed.

Lemma StronglySorted_fmap {A B} (f : A -> B) (P : B -> B -> Prop)
    (l : list A) :
  StronglySorted (fun a b => P (f a) (f b)) l -> StronglySorted P (f <$> l).
Proof.
  induction 1 as [|x l _ IH Hx]; [constructor|].
  rewrite fmap_cons. constructor; [exact IH|].
  apply Forall_fmap. exact Hx.
Qed.

Lemma StronglySorted_impl_on {A} (P P' : A -> A -> Prop) (Q : A -> Prop)
    (l : list A) :
  (forall a b, Q a -> Q b -> P a b -> P' a b) ->
  Forall Q l -> StronglySorted P l -> StronglySorted P' l.
Proof.
  intros HPP HQ HS. induction HS as [|x l _ IH Hx]; [constructor|].
  apply Forall_cons in HQ as [Hqx HQ].
  constructor; [by apply IH|].
  apply Forall_forall. intros y Hy.
  apply HPP; [exact Hqx | | ].
  - by apply (proj1 (Forall_forall _ _) HQ).
  - by apply (proj1 (Forall_forall _ _) Hx).
Qed.

Lemma fmap_snd_keyed {A} (key : A -> R) (l : list A) :
  snd <$> ((fun s => (key s, s)) <$> l) = l.
Proof.
  induction l as [|x l IH]; [reflexivity|].
  rewrite !fmap_cons. cbn [snd]. by rewrite IH.
Qed.

(** X18: [extract_topics] never raises; the two nested loops give each
    topic the posts whose lowered title and text contain one of its
    keywords, in the order of the input; a topic without such a post is
    left out; the summary of a topic counts all its posts, keeps the first
    five, and adds up score and comments over all of them; the summaries
    come by total engagement, highest first, ties in the order of the
    keyword table. *)
Theorem extract_topics_by_filter (ps : list post) :
  exists out,
    extract_topics ps = Ok out /\
    out = (snd <$> sort_desc
             ((fun s => (IZR (total_engagement s), s))
                <$> omap (topic_of ps) topic_keywords)) /\
    out ≡ₚ omap (topic_of ps) topic_keywords /\
    StronglySorted
      (fun a b => (total_engagement b <= total_engagement a)%Z) out.
Proof.
  eexists. split; [|split; [reflexivity|split]].
  - unfold extract_topics.
    rewrite (add_posts_spec ps (fun _ => [])). cbn [rbind].
    rewrite (summaries_spec (fun it => [] ++ in_topic it ps))
      by exact keywords_of_topics.
    cbn [rbind]. reflexivity.
  - rewrite sort_desc_perm. by rewrite fmap_snd_keyed.
  - apply StronglySorted_fmap.
    apply (StronglySorted_impl_on (fun a b => b.1 <= a.1) _
             (fun x => x.1 = IZR (total_engagement x.2))).
    + intros a b Ha Hb Hle. rewrite Ha, Hb in Hle. by apply le_IZR.
    + rewrite sort_desc_perm. apply Forall_fmap, Forall_true. by intros s.
    + apply sort_desc_sorted.
Qed.

(** ** Finding pain posts *)

Import PainPosts.

Lemma sort_by_key_sorted {A} (key : A -> Z) (l : list A) :
  StronglySorted (fun a b => (key b <= key a)%Z)
    (snd <$> sort_desc ((fun p => (IZR (key p), p)) <$> l)).
Proof.
  apply StronglySorted_fmap.
  apply (StronglySorted_impl_on (fun a b => b.1 <= a.1) _
           (fun x => x.1 = IZR (key x.2))).
  - intros a b Ha Hb Hle. rewrite Ha, Hb in Hle. by apply le_IZR.
  - rewrite sort_desc_perm. apply Forall_fmap, Forall_true. by intros s.
  - apply sort_desc_sorted.
Qed.

Lemma sort_by_key_perm {A} (key : A -> R) (l : list A) :
  snd <$> sort_desc ((fun p => (key p, p)) <$> l) ≡ₚ l.
Proof. rewrite sort_desc_perm. by rewrite fmap_snd_keyed. Qed.

Lemma StronglySorted_take {A} (P : A -> A -> Prop) (n : nat) (l : list A) :
  StronglySorted P l -> StronglySorted P (take n l).
Proof.
  intros H. revert n. induction H as [|x l _ IH Hx]; intros [|n];
    try constructor.
  - apply IH.
  - by apply Forall_take.
Qed.

Section ScraperFacts.
Variable stamp : nat -> R.

Lemma mock_posts_from_S (k : nat) (sub : string) (i n : nat) :
  mock_posts_from stamp k sub i (S n)
  = (mock_post stamp k sub i :: (mock_posts_from stamp (S k) sub (S i) n).1,
     (mock_posts_from stamp (S k) sub (S i) n).2).
Proof.
  cbn [mock_posts_from].
  by destruct (mock_posts_from stamp (S k) sub (S i) n).
Qed.

Lemma mock_posts_length (n k i : nat) (sub : string) :
  length (mock_posts_from stamp k sub i n).1 = n
  /\ (mock_posts_from stamp k sub i n).2 = (k + n)%nat.
Proof.
  revert k i. induction n as [|n IH]; intros k i; [simpl; lia|].
  rewrite mock_posts_from_S. destruct (IH (S k) (S i)) as [H1 H2].
  cbn [fst snd length]. rewrite H1, H2. lia.
Qed.

Lemma mock_posts_forall (P : post -> Prop) (sub : string) :
  (forall k i, P (mock_post stamp k sub i)) ->
  forall n k i, Forall P (mock_posts_from stamp k sub i n).1.
Proof.
  intros HP. induction n as [|n IH]; intros k i; [constructor|].
  rewrite mock_posts_from_S. constructor; [apply HP | apply IH].
Qed.

Lemma collect_mock (fetch : string -> nat -> list submission)
    (reddit : Connectors.connector) (k : nat) (sub : string)
    (rest : list string) (limit : nat) :
  Connectors.mock_mode reddit = true ->
  collect stamp fetch reddit k (sub :: rest) limit
  = ((_generate_mock_posts stamp k sub 3).1
       ++ (collect stamp fetch reddit (k + 3) rest limit).1,
     (collect stamp fetch reddit (k + 3) rest limit).2).
Proof.
  intros Hm. cbn [collect]. rewrite Hm.
  pose proof (mock_posts_length 3 k 0 sub) as [_ Hk].
  unfold _generate_mock_posts.
  destruct (mock_posts_from stamp k sub 0 3) as [found k1].
  cbn [snd] in Hk. subst k1. cbn [fst].
  by destruct (collect stamp fetch reddit (k + 3) rest limit).
Qed.

Lemma collect_live (fetch : string -> nat -> list submission)
    (reddit : Connectors.connector) (k : nat) (sub : string)
    (rest : list string) (limit : nat) :
  Connectors.mock_mode reddit = false ->
  collect stamp fetch reddit k (sub :: rest) limit
  = (live_posts fetch sub limit
       ++ (collect stamp fetch reddit k rest limit).1,
     (collect stamp fetch reddit k rest limit).2).
Proof.
  intros Hm. cbn [collect]. rewrite Hm.
  by destruct (collect stamp fetch reddit k rest limit).
Qed.

Lemma find_pain_posts_eq (fetch : string -> nat -> list submission)
    (reddit : Connectors.connector) (k : nat)
    (subreddits : option (list string)) (limit : nat) :
  find_pain_posts stamp fetch reddit k subreddits limit
  = (take 100
       (snd <$> sort_desc
          ((fun p => (IZR (sort_key_of p), p))
             <$> (collect stamp fetch reddit k (or_default subreddits)
                    limit).1)),
     (collect stamp fetch reddit k (or_default subreddits) limit).2).
Proof.
  unfold find_pain_posts.
  by destruct (collect stamp fetch reddit k (or_default subreddits) limit).
Qed.

Lemma collect_mock_spec (fetch : string -> nat -> list submission)
    (P : post -> Prop) (reddit : Connectors.connector)
    (fetch' : string -> nat -> list submission) (limit limit' : nat)
    (subs : list string) (k : nat) :
  Connectors.mock_mode reddit = true ->
  (forall sub j i, sub ∈ subs -> P (mock_post stamp j sub i)) ->
  collect stamp fetch reddit k subs limit
  = collect stamp fetch' reddit k subs limit' /\
  length (collect stamp fetch reddit k subs limit).1 = (3 * length subs)%nat /\
  (collect stamp fetch reddit k subs limit).2 = (k + 3 * length subs)%nat /\
  Forall P (collect stamp fetch reddit k subs limit).1.
Proof.
  intros Hm. revert k. induction subs as [|sub rest IH]; intros k HP.
  - cbn [collect length fst snd]. repeat split; [lia | constructor].
  - destruct (IH (k + 3)%nat) as (He & Hl & Hk & HF).
    { intros s j i Hs. apply HP. by right. }
    rewrite (collect_mock fetch), (collect_mock fetch') by exact Hm.
    cbn [fst snd]. rewrite <- He.
    split; [reflexivity|]. split; [|split].
    + rewrite length_app, Hl. unfold _generate_mock_posts.
      rewrite (proj1 (mock_posts_length 3 k 0 sub)). cbn [length]. lia.
    + rewrite Hk. cbn [length]. lia.
    + apply Forall_app. split; [|exact HF].
      unfold _generate_mock_posts.
      apply mock_posts_forall. intros j i. apply HP. by left.
Qed.

Lemma filter_existsb {A} (f : A -> bool) (l : list A) :
  existsb f l = true -> List.filter f l <> [].
Proof.
  induction l as [|x l IH]; [discriminate|].
  cbn [existsb List.filter]. destruct (f x); [discriminate|]. exact IH.
Qed.

Lemma substring_length (m : nat) (s : string) :
  (String.length (String.substring 0 m s) <= m)%nat.
Proof.
  revert s. induction m as [|m IH]; intros [|c s]; cbn; try lia.
  specialize (IH s). lia.
Qed.

Lemma live_posts_spec (fetch : string -> nat -> list submission)
    (sub : string) (limit : nat) :
  Forall (fun p =>
            pain_signals p <> [] /\
            (forall kw, kw ∈ pain_signals p <->
               kw ∈ PAIN_KEYWORDS /\ contains kw (lower (title p)) = true) /\
            (String.length (text p) <= 500)%nat /\
            subreddit p = sub)
    (live_posts fetch sub limit).
Proof.
  unfold live_posts. apply Forall_fmap, Forall_forall. intros s Hs.
  apply list_elem_of_In, filter_In in Hs as [_ Hs].
  unfold compose. cbn [pain_post pain_signals title text subreddit].
  split; [by apply filter_existsb|]. split; [|split].
  - intros kw. rewrite list_elem_of_In, filter_In, <- list_elem_of_In.
    reflexivity.
  - apply substring_length.
  - reflexivity.
Qed.

Lemma collect_live_spec (fetch : string -> nat -> list submission)
    (reddit : Connectors.connector) (limit : nat)
    (subs : list string) (k : nat) :
  Connectors.mock_mode reddit = false ->
  (collect stamp fetch reddit k subs limit).2 = k /\
  Forall (fun p =>
            pain_signals p <> [] /\
            (forall kw, kw ∈ pain_signals p <->
               kw ∈ PAIN_KEYWORDS /\ contains kw (lower (title p)) = true) /\
            (String.length (text p) <= 500)%nat /\
            subreddit p ∈ subs)
    (collect stamp fetch reddit k subs limit).1.
Proof.
  intros Hm. induction subs as [|sub rest [Hk HF]].
  - split; [reflexivity | constructor].
  - rewrite (collect_live fetch) by exact Hm. cbn [fst snd].
    split; [exact Hk|]. apply Forall_app. split.
    + eapply Forall_impl; [apply (live_posts_spec fetch)|].
      intros p (H1 & H2 & H3 & ->).
      split; [exact H1|]. split; [exact H2|]. split; [exact H3|]. by left.
    + eapply Forall_impl; [exact HF|].
      intros p (H1 & H2 & H3 & H4).
      split; [exact H1|]. split; [exact H2|]. split; [exact H3|]. by right.
Qed.

End ScraperFacts.

(** X19: with a connector in mock mode, [find_pain_posts] does not ask
    Reddit at all: the result does not depend on what the client would
    yield nor on [limit]; it holds three mock posts per subreddit of the
    list in use, cut to 100 and sorted by [score + 2 * num_comments],
    highest first, and the clock has been read once per mock post. *)
Theorem find_pain_posts_mock (stamp : nat -> R)
    (fetch fetch' : string -> nat -> list submission)
    (reddit : Connectors.connector) (k : nat)
    (subreddits : option (list string)) (limit limit' : nat) :
  Connectors.mock_mode reddit = true ->
  find_pain_posts stamp fetch reddit k subreddits limit
  = find_pain_posts stamp fetch' reddit k subreddits limit' /\
  length (find_pain_posts stamp fetch reddit k subreddits limit).1
  = Nat.min (3 * length (or_default subreddits)) 100 /\
  (find_pain_posts stamp fetch reddit k subreddits limit).2
  = (k + 3 * length (or_default subreddits))%nat /\
  Forall (fun p => subreddit p ∈ or_default subreddits /\
                   author p = "mock_user"%string)
    (find_pain_posts stamp fetch reddit k subreddits limit).1 /\
  StronglySorted (fun a b => (sort_key_of b <= sort_key_of a)%Z)
    (find_pain_posts stamp fetch reddit k subreddits limit).1.
Proof.
  intros Hm.
  destruct (collect_mock_spec stamp fetch
              (fun p => subreddit p ∈ or_default subreddits /\
                        author p = "mock_user"%string)
              reddit fetch' limit limit' (or_default subreddits) k Hm)
    as (He & Hl & Hk & HF).
  { intros sub j i Hs. by split. }
  rewrite !find_pain_posts_eq. rewrite <- He. cbn [fst snd].
  split; [reflexivity|]. split; [|split; [exact Hk|split]].
  - rewrite length_take, length_fmap, sort_desc_length, length_fmap, Hl.
    lia.
  - apply Forall_take. by rewrite sort_by_key_perm.
  - apply StronglySorted_take, sort_by_key_sorted.
Qed.

Lemma find_pain_posts_mock_witness :
  length (find_pain_posts example_stamp example_fetch
            (Connectors.RedditConnector__init__ (Some "id") (Some "secret")
               false true) 0 None 50).1 = 24%nat.
Proof.
  exact (proj1 (proj2
    (find_pain_posts_mock example_stamp example_fetch example_fetch
       (Connectors.RedditConnector__init__ (Some "id") (Some "secret")
          false true) 0 None 50 50 eq_refl))).
Defined.

(** X20: with a connector out of mock mode, [find_pain_posts] returns at
    most 100 posts, sorted by [score + 2 * num_comments], highest first;
    every post is from a subreddit of the list in use, its text has at
    most 500 characters, and its pain signals are exactly the pain
    keywords that occur in its lowered title, at least one; the clock is
    not read. *)
Theorem find_pain_posts_live (stamp : nat -> R)
    (fetch : string -> nat -> list submission)
    (reddit : Connectors.connector) (k : nat)
    (subreddits : option (list string)) (limit : nat) :
  Connectors.mock_mode reddit = false ->
  (find_pain_posts stamp fetch reddit k subreddits limit).2 = k /\
  (length (find_pain_posts stamp fetch reddit k subreddits limit).1
   <= 100)%nat /\
  Forall (fun p =>
            pain_signals p <> [] /\
            (forall kw, kw ∈ pain_signals p <->
               kw ∈ PAIN_KEYWORDS /\ contains kw (lower (title p)) = true) /\
            (String.length (text p) <= 500)%nat /\
            subreddit p ∈ or_default subreddits)
    (find_pain_posts stamp fetch reddit k subreddits limit).1 /\
  StronglySorted (fun a b => (sort_key_of b <= sort_key_of a)%Z)
    (find_pain_posts stamp fetch reddit k subreddits limit).1.
Proof.
  intros Hm.
  destruct (collect_live_spec stamp fetch reddit limit
              (or_default subreddits) k Hm) as [Hk HF].
  rewrite !find_pain_posts_eq. cbn [fst snd].
  split; [exact Hk|]. split; [|split].
  - rewrite length_take. lia.
  - apply Forall_take. by rewrite sort_by_key_perm.
  - apply StronglySorted_take, sort_by_key_sorted.
Qed.

Lemma find_pain_posts_live_witness :
  (find_pain_posts example_stamp example_fetch live_connector 7
     (Some ["smallbusiness"%string]) 50).2 = 7%nat.
Proof.
  exact (proj1
    (find_pain_posts_live example_stamp example_fetch live_connector 7
       (Some ["smallbusiness"%string]) 50 eq_refl)).
Defined.
